(** * The project-management script of voucherify-openapi

    A shallow embedding of [scripts/manage-project.ts]: the command-line
    options, the version identifier derived from them, the validation of
    the options, and the synchronisation procedure (fork, clean-up of the
    categories, uploads, bounded retry of the reference-doc upload).

    The script talks to the outside world through [fetch], through
    [child_process.exec], through [console.log] and through [setTimeout].
    Each run is modelled as a function from the answers of the outside
    world to the chronological list of these interactions and the way the
    run ends. *)

From Stdlib Require Import String Ascii List ZArith NArith Bool Lia DecimalString.
From ExtLib Require Import Structures.Monad Structures.MonadExc.
Import ListNotations.
Import MonadNotation.
Local Open Scope string_scope.
Local Open Scope monad_scope.

(* ===================================================================== *)
(** ** JavaScript values met by the script *)
(* ===================================================================== *)

(** The values the script handles as option values and as properties of
    the objects sent back by the remote: [undefined], booleans and
    strings.  (minimist turns numeric-looking arguments into numbers and
    repeated ones into arrays; these are outside the model.) *)
Inductive JsVal : Type :=
| JUndefined
| JBool (b : bool)
| JString (s : string).

(** [undefined], [false] and the empty string are falsy. *)
Definition truthy (v : JsVal) : bool :=
  match v with
  | JUndefined => false
  | JBool b => b
  | JString s => negb (s =? EmptyString)
  end.

(** [a || b] *)
Definition js_or (a b : JsVal) : JsVal := if truthy a then a else b.

(** String conversion, as done by a template literal [`${v}`]. *)
Definition toStr (v : JsVal) : string :=
  match v with
  | JUndefined => "undefined"
  | JBool true => "true"
  | JBool false => "false"
  | JString s => s
  end.

(** [v === s] for a string [s]. *)
Definition strictEq (v : JsVal) (s : string) : bool :=
  match v with
  | JString x => x =? s
  | _ => false
  end.

(** [hay.includes(needle)] *)
Fixpoint includes (needle hay : string) : bool :=
  String.prefix needle hay
  || match hay with
     | EmptyString => false
     | String _ rest => includes needle rest
     end.

(** [hay?.includes(needle)]: [undefined] when [hay] is, hence falsy. *)
Definition includesOpt (needle : string) (hay : option string) : bool :=
  match hay with
  | Some s => includes needle s
  | None => false
  end.

(** Truthiness of a string that may be [undefined]. *)
Definition nonEmpty (s : option string) : bool :=
  match s with
  | Some x => negb (x =? EmptyString)
  | None => false
  end.

Definition nl : string := String "010" EmptyString.
Definition dq : string := String "034" EmptyString.

(** Error objects: [name] is the constructor's name, [Error] or
    [TypeError]. *)
Record JsError : Type := mkError { name : string; message : string }.

Definition Error (msg : string) : JsError := mkError "Error" msg.
Definition TypeError (msg : string) : JsError := mkError "TypeError" msg.

(** [Error.prototype.toString] *)
Definition errorToString (e : JsError) : string :=
  if (message e =? EmptyString) then name e
  else if (name e =? EmptyString) then message e
  else name e ++ ": " ++ message e.

(** [error?.toString?.()] for the [error] argument of an [exec] callback,
    which is [null] when the command succeeded. *)
Definition errorText (e : option JsError) : option string :=
  option_map errorToString e.

(* ===================================================================== *)
(** ** Command-line options and the version identifier *)
(* ===================================================================== *)

(** The object returned by [minimist(process.argv.slice(2))], reduced to
    the keys the script reads. *)
Record Options : Type := mkOptions {
  arg_versionTag : JsVal;
  arg_vt : JsVal;
  arg_version : JsVal;
  arg_v : JsVal;
  arg_create : JsVal;
  arg_update : JsVal;
  arg_help : JsVal;
  arg_h : JsVal
}.

Definition versionTag (options : Options) : JsVal :=
  js_or (arg_versionTag options) (arg_vt options).

Definition versionOption (options : Options) : JsVal :=
  js_or (arg_version options) (arg_v options).

Definition create (options : Options) : JsVal := arg_create options.
Definition update (options : Options) : JsVal := arg_update options.

Definition help (options : Options) : JsVal :=
  js_or (arg_help options) (arg_h options).

Definition mainVersion : string := "v2018-08-01".

(** [versionOption || versionTag ? `${mainVersion}-${versionTag}` : undefined]:
    the conditional operator binds weaker than [||], so the disjunction is
    the test and the template is the only value produced. *)
Definition version (options : Options) : JsVal :=
  if truthy (js_or (versionOption options) (versionTag options))
  then JString (mainVersion ++ "-" ++ toStr (versionTag options))
  else JUndefined.

Definition listOfGuideCategories : list string :=
  [ "Getting started";
    "Development";
    "Building blocks";
    "Campaigns Recipes";
    "Discounts Recipes";
    "Distributions Recipes";
    "More" ].

Definition listOfReferenceCategories : list string := [ "Introduction" ].

(* ===================================================================== *)
(** ** The outside world *)
(* ===================================================================== *)

Inductive Method : Type := GET | POST | PUT | DELETE.

(** The argument of [fetch].  [body] is the object handed to
    [JSON.stringify], as the list of its properties. *)
Record Request : Type := mkRequest {
  url : string;
  method : Method;
  headers : list (string * string);
  body : option (list (string * JsVal))
}.

(** An element of a JSON array sent back by the remote, an object: the
    script reads nothing but its [title] and its [slug], [undefined] when
    the property is absent. *)
Record ApiObject : Type := mkApiObject { title : JsVal; slug : JsVal }.

(** What [response.json()] resolves to. *)
Inductive Json : Type :=
| JsonArray (items : list ApiObject)
| JsonNull
| JsonOther.

Inductive Body : Type :=
| BodyJson (j : Json)
| BodyNotJson (e : JsError).

Record Response : Type := mkResponse { status : N; payload : Body }.

(** The promise returned by [fetch] is rejected (network failure) or
    resolves to a response, whatever its status. *)
Inductive FetchResult : Type :=
| Rejected (e : JsError)
| Responded (r : Response).

(** The three arguments of the callback of [exec]. *)
Record ExecResult : Type := mkExecResult {
  error : option JsError;
  stdout : option string;
  stderr : option string
}.

(** The environment of one run.  [authorization] is the value of
    ["Basic " + btoa(process.env.README_IO_AUTH + ":")]; [http n req] is the
    answer to the [n]-th call of [fetch] of the run, made with [req], and
    [shell n command] the outcome of the [n]-th child process. *)
Record Environment : Type := mkEnvironment {
  authorization : string;
  http : nat -> Request -> FetchResult;
  shell : nat -> string -> ExecResult
}.

Inductive Color : Type := Green | Red.

(** What a run does, in the order it does it. *)
Inductive Event : Type :=
| Log (c : Color) (text : string)            (* console.log(colors.c(text)) *)
| Fetch (req : Request)                      (* fetch(req) is called *)
| Settled (req : Request) (r : FetchResult)  (* its promise settles and is observed *)
| Exec (command : string)                    (* exec(command, callback) *)
| Sleep (ms : Z).                            (* setTimeout(r, ms), awaited *)

(** How a computation ends: with a value, with an exception that travels
    up the chain of awaiting callers, or with an exception thrown inside a
    callback of [exec], which nothing can catch and which ends the
    process. *)
Inductive Outcome (A : Type) : Type :=
| Done (a : A)
| Throw (e : JsError)
| Uncaught (e : JsError).
Arguments Done {A} a.
Arguments Throw {A} e.
Arguments Uncaught {A} e.

(** How many calls of [fetch] and of [exec] were made so far. *)
Record Cursor : Type := mkCursor { fetched : nat; spawned : nat }.

Definition Run (A : Type) : Type := (Cursor * list Event * Outcome A)%type.

Definition cursorOf {A} (r : Run A) : Cursor := fst (fst r).
Definition traceOf {A} (r : Run A) : list Event := snd (fst r).
Definition outcomeOf {A} (r : Run A) : Outcome A := snd r.

(** A piece of the script. *)
Definition Script (A : Type) : Type := Cursor -> Run A.

Definition retS {A} (a : A) : Script A := fun c => (c, [], Done a).

Definition bindS {A B} (m : Script A) (k : A -> Script B) : Script B :=
  fun c =>
    match m c with
    | (c1, t1, Done a) =>
        match k a c1 with
        | (c2, t2, o) => (c2, (t1 ++ t2)%list, o)
        end
    | (c1, t1, Throw e) => (c1, t1, Throw e)
    | (c1, t1, Uncaught e) => (c1, t1, Uncaught e)
    end.

Definition throwS {A} (e : JsError) : Script A := fun c => (c, [], Throw e).

(** [try { m } catch (e) { handler e }] *)
Definition catchS {A} (m : Script A) (handler : JsError -> Script A) : Script A :=
  fun c =>
    match m c with
    | (c1, t1, Throw e) =>
        match handler e c1 with
        | (c2, t2, o) => (c2, (t1 ++ t2)%list, o)
        end
    | r => r
    end.

#[export] Instance Monad_Script : Monad Script :=
  {| ret := @retS; bind := @bindS |}.

#[export] Instance Exception_Script : MonadExc JsError Script :=
  {| raise := @throwS; catch := @catchS |}.

(** A [throw] inside a callback of [exec]. *)
Definition uncaught {A} (e : JsError) : Script A := fun c => (c, [], Uncaught e).

Definition emit (e : Event) : Script unit := fun c => (c, [e], Done tt).

Definition log (c : Color) (text : string) : Script unit := emit (Log c text).

(** [await new Promise((r) => setTimeout(r, ms))] *)
Definition sleep (ms : Z) : Script unit := emit (Sleep ms).

(* ===================================================================== *)
(** ** Promises *)
(* ===================================================================== *)

(** Calling an [async] function runs its body up to the first [await]
    that has to wait, and hands a promise back.  [Async A] is the script of
    that first part; its value is the script of what remains to be done
    once the awaited promise has settled. *)
Definition Async (A : Type) : Type := Script (Script A).

(** [await f(...)]: call, then wait for the result. *)
Definition await {A} (f : Async A) : Script A := bindS f (fun rest => rest).

(** The body of an [async] function that awaits [p] and goes on with [k]. *)
Definition andThen {A B} (p : Async A) (k : A -> Script B) : Async B :=
  bindS p (fun rest => retS (bindS rest k)).

(** The promise obtained from a call that is not awaited on the spot: still
    pending, or already rejected because the body threw before it had to
    wait. *)
Inductive Promise (A : Type) : Type :=
| Pending (rest : Script A)
| RejectedPromise (e : JsError).
Arguments Pending {A} rest.
Arguments RejectedPromise {A} e.

Definition call {A} (f : Async A) : Script (Promise A) :=
  fun c =>
    match f c with
    | (c1, t1, Done rest) => (c1, t1, Done (Pending rest))
    | (c1, t1, Throw e) => (c1, t1, Done (RejectedPromise e))
    | (c1, t1, Uncaught e) => (c1, t1, Uncaught e)
    end.

(** [arr.map(asyncFn)]: the calls are made one after the other, none is
    awaited. *)
Fixpoint mapCalls {A B} (asyncFn : A -> Async B) (arr : list A)
  : Script (list (Promise B)) :=
  match arr with
  | [] => ret []
  | x :: others =>
      p <- call (asyncFn x) ;;
      ps <- mapCalls asyncFn others ;;
      ret (p :: ps)
  end.

Fixpoint firstRejected {A} (ps : list (Promise A)) : option JsError :=
  match ps with
  | [] => None
  | RejectedPromise e :: _ => Some e
  | Pending _ :: others => firstRejected others
  end.

Fixpoint awaitAll {A} (ps : list (Promise A)) : Script (list A) :=
  match ps with
  | [] => ret []
  | Pending rest :: others =>
      x <- rest ;;
      xs <- awaitAll others ;;
      ret (x :: xs)
  | RejectedPromise e :: _ => raise e
  end.

(** [await Promise.all(ps)].  A promise that is rejected from the start
    wins over the pending ones.  The pending ones settle in an order that
    the network decides; the model lets them settle in the order of the
    list, and stops at the first rejection. *)
Definition promiseAll {A} (ps : list (Promise A)) : Script (list A) :=
  match firstRejected ps with
  | Some e => raise e
  | None => awaitAll ps
  end.

Definition asyncMap {A B} (arr : list A) (asyncFn : A -> Async B)
  : Script (list B) :=
  ps <- mapCalls asyncFn arr ;;
  promiseAll ps.

(** [asyncMap] applied to a value read from a JSON answer: [arr.map] only
    exists on arrays. *)
Definition asyncMapJson {B} (arr : Json) (asyncFn : ApiObject -> Async B)
  : Script (list B) :=
  match arr with
  | JsonArray items => asyncMap items asyncFn
  | JsonNull => raise (TypeError "Cannot read properties of null (reading 'map')")
  | JsonOther => raise (TypeError "arr.map is not a function")
  end.

(** [for (const x of l) { await body(x) }] *)
Fixpoint forOf {A} (l : list A) (body : A -> Script unit) : Script unit :=
  match l with
  | [] => ret tt
  | x :: others => body x ;; forOf others body
  end.

(* ===================================================================== *)
(** ** The script *)
(* ===================================================================== *)

Definition showStatus (n : N) : string := NilZero.string_of_uint (N.to_uint n).

(** [colors.red(s)] for an [s] that may be [undefined]. *)
Definition orUndefined (s : option string) : string :=
  match s with
  | Some x => x
  | None => "undefined"
  end.

(** [s || fallback] *)
Definition orElse (s : option string) (fallback : string) : string :=
  if nonEmpty s then orUndefined s else fallback.

Definition uploadTimedOut : string :=
  "We're sorry, your upload request timed out. Please try again or split your file up into smaller chunks.".

Definition categoryNotFound : string :=
  "We couldn't save this doc (Unable to find a category with the slug 'voucherify-api')".

Definition successfullyCreated : string := "successfully created".

Definition helpText : string :=
  "options:" ++
  nl ++ dq ++ "versionTag" ++ dq ++ " or " ++ dq ++ "vt" ++ dq ++ " for versionTag" ++
  nl ++ dq ++ "version" ++ dq ++ " or " ++ dq ++ "v" ++ dq ++ " for version" ++
  nl ++ dq ++ "create" ++ dq ++ " if you want to create such version" ++
  nl ++ dq ++ "update" ++ dq ++ " if you want to update such version" ++
  nl ++ nl ++ "versionTag or version is required!" ++
  nl ++ "create or update option is required!" ++
  nl ++ nl ++ "examples:" ++
  nl ++ "npm run manage-project -- --vt=piotr-123 --create" ++
  nl ++ "npm run manage-project -- --v=v2018-08-01-piotr-123 --create" ++
  nl ++ "npm run manage-project -- --vt=piotr-123 --update" ++
  nl ++ "npm run manage-project -- --v=v2018-08-01-piotr-123 --update".

Definition seeHelp : string :=
  ", check `help` for more information" ++ nl ++
  "run 'npm run manage-project -- --help'".

Definition missingVersion : string :=
  "invalid arguments, missing `version` or `versionTag`" ++ seeHelp.

Definition missingAction : string :=
  "invalid arguments, missing `update` or `create`" ++ seeHelp.

Definition conflictingArguments : string :=
  "invalid arguments, you provided conflicting arguments `update` and `create`"
  ++ seeHelp.

Definition printHelp : Script unit := log Green helpText.

Definition validateOptions (help version create update : JsVal) : Script bool :=
  if truthy help
     || (negb (truthy version) && negb (truthy create) && negb (truthy update))
  then printHelp ;; ret false
  else if negb (truthy version) then log Red missingVersion ;; ret false
  else if negb (truthy create) && negb (truthy update)
  then log Red missingAction ;; ret false
  else if truthy create && truthy update
  then log Red conflictingArguments ;; ret false
  else ret true.

(** The promise of [fetch(req)] settles with [answer]. *)
Definition settled (req : Request) (answer : FetchResult) : Script Response :=
  fun c =>
    (c, [Settled req answer],
     match answer with
     | Rejected e => Throw e
     | Responded r => Done r
     end).

Section Synchronizer.

Variable env : Environment.

(** [fetch(req)]: the request leaves at once; the answer is looked at when
    the promise is awaited. *)
Definition fetch (req : Request) : Async Response :=
  fun c =>
    (mkCursor (S (fetched c)) (spawned c),
     [Fetch req],
     Done (settled req (http env (fetched c) req))).

(** [await new Promise((resolve) => exec(command, callback))], up to the
    point where the callback is entered with its three arguments. *)
Definition exec (command : string) : Script ExecResult :=
  fun c =>
    (mkCursor (fetched c) (S (spawned c)),
     [Exec command],
     Done (shell env (spawned c) command)).

Definition basicAuth : string * string := ("authorization", authorization env).
Definition readmeVersion (version : JsVal) : string * string :=
  ("x-readme-version", toStr version).
Definition contentJson : string * string := ("content-type", "application/json").
Definition acceptJson : string * string := ("accept", "application/json").

Definition api : string := "https://dash.readme.com/api/v1/".

Definition updateCategoryRequest (version slug : JsVal)
  (data : list (string * JsVal)) : Request :=
  {| url := api ++ "categories/" ++ toStr slug;
     method := PUT;
     headers := [readmeVersion version; basicAuth; contentJson; acceptJson];
     body := Some data |}.

Definition updateCategory (version slug : JsVal) (data : list (string * JsVal))
  : Async unit :=
  andThen (fetch (updateCategoryRequest version slug data)) (fun _ => ret tt).

Definition getAllCategoriesRequest (version : JsVal) : Request :=
  {| url := api ++ "categories?perPage=100&page=1";
     method := GET;
     headers := [readmeVersion version; basicAuth];
     body := None |}.

(** [await (await fetch(...)).json()] *)
Definition readJson (response : Response) : Script Json :=
  match payload response with
  | BodyJson j => ret j
  | BodyNotJson e => raise e
  end.

Definition getAllCategories (version : JsVal) : Script Json :=
  response <- await (fetch (getAllCategoriesRequest version)) ;;
  readJson response.

Definition deleteCategoryRequest (version slug : JsVal) : Request :=
  {| url := api ++ "categories/" ++ toStr slug;
     method := DELETE;
     headers := [readmeVersion version; basicAuth; acceptJson];
     body := None |}.

Definition deleteCategory (version slug : JsVal) : Async unit :=
  andThen (fetch (deleteCategoryRequest version slug)) (fun _ => ret tt).

Definition createCategoryRequest (version : JsVal) (title : string) : Request :=
  {| url := api ++ "categories";
     method := POST;
     headers := [readmeVersion version; basicAuth; contentJson; acceptJson];
     body := Some [("title", JString title)] |}.

Definition createCategory (version : JsVal) (title : string) : Async unit :=
  andThen (fetch (createCategoryRequest version title)) (fun _ => ret tt).

Definition getAllApiSpecificationsRequest (version : JsVal) : Request :=
  {| url := api ++ "api-specification?perPage=100&page=1";
     method := GET;
     headers := [readmeVersion version; basicAuth];
     body := None |}.

Definition getAllApiSpecifications (version : JsVal) : Script Json :=
  response <- await (fetch (getAllApiSpecificationsRequest version)) ;;
  readJson response.

(** [deleteSpecification] is handed to [arr.map] as it is, so its [id] is
    the whole element of the array, an object, which the template literal
    turns into ["[object Object]"]. *)
Definition deleteSpecificationRequest (id : ApiObject) : Request :=
  {| url := api ++ "api-specification/" ++ "[object Object]";
     method := DELETE;
     headers := [basicAuth; acceptJson];
     body := None |}.

Definition deleteSpecification (id : ApiObject) : Async unit :=
  andThen (fetch (deleteSpecificationRequest id)) (fun _ => ret tt).

Definition createNewVersionRequest (version : JsVal) : Request :=
  {| url := nl ++ "https://dash.readme.com/api/v1/version";
     method := POST;
     headers := [basicAuth; contentJson; acceptJson];
     body := Some [ ("is_beta", JBool false);
                    ("is_stable", JBool false);
                    ("is_hidden", JBool true);
                    ("is_deprecated", JBool false);
                    ("from", JString mainVersion);
                    ("version", version) ] |}.

Definition createNewVersion (version : JsVal) : Script unit :=
  catch
    (response <- await (fetch (createNewVersionRequest version)) ;;
     (if negb (status response =? 200)%N
      then raise (Error ("Response status: " ++ showStatus (status response)
                         ++ ", maybe this versionTag is already created?"))
      else ret tt) ;;
     log Green ("FORK CREATED! VERSION " ++ dq ++ toStr version ++ dq))
    (fun error =>
       log Red ("Error while creating fork from " ++ mainVersion ++ "!") ;;
       raise (Error (errorToString error))).

(** [allCategories.find((category) => category.title === categoryTitle)] *)
Definition findByTitle (categoryTitle : string) (items : list ApiObject)
  : option ApiObject :=
  find (fun category => strictEq (title category) categoryTitle) items.

Definition lookupError : JsError :=
  TypeError "Cannot read properties of undefined (reading 'slug')".

Definition kindReference : list (string * JsVal) := [("type", JString "reference")].

(** The function mapped over [listOfReferenceCategories]: the look-up and
    the reading of [.slug] come before the request is built. *)
Definition updateReferenceCategory (version : JsVal) (allCategories : Json)
  (categoryTitle : string) : Async unit :=
  match allCategories with
  | JsonArray items =>
      match findByTitle categoryTitle items with
      | Some category => updateCategory version (slug category) kindReference
      | None => throwS lookupError
      end
  | JsonNull => throwS (TypeError "Cannot read properties of null (reading 'find')")
  | JsonOther => throwS (TypeError "allCategories.find is not a function")
  end.

Definition cleanProject (version : JsVal) : Script unit :=
  categoriesToDelete <- getAllCategories version ;;
  asyncMapJson categoriesToDelete
    (fun category => deleteCategory version (slug category)) ;;
  log Green "OLD CATEGORIES DELETED!" ;;
  forOf (listOfGuideCategories ++ listOfReferenceCategories)%list
    (fun categoryTitle => await (createCategory version categoryTitle)) ;;
  log Green "NEW CATEGORIES CREATED!" ;;
  allCategories <- getAllCategories version ;;
  asyncMap listOfReferenceCategories
    (updateReferenceCategory version allCategories) ;;
  log Green "REFERENCE CATEGORIES UPDATED!" ;;
  allApiSpecifications <- getAllApiSpecifications version ;;
  asyncMapJson allApiSpecifications deleteSpecification ;;
  log Green "API SPECIFICATIONS DELETED!" ;;
  log Green ("VERSION " ++ dq ++ toStr version ++ dq ++ " IS CLEANED UP!").

Definition uploadOpenApiFileCommand (version : JsVal) : string :=
  "rdme openapi ./reference/OpenAPI.json --version=" ++ toStr version ++ " --create".

Definition uploadOpenApiFile (version : JsVal) : Script unit :=
  log Green "UPLOADING OPEN API FILE... PLEASE WAIT... THIS MAY TAKE UP TO A MINUTE" ;;
  r <- exec (uploadOpenApiFileCommand version) ;;
  if includesOpt uploadTimedOut (errorText (error r)) || nonEmpty (stdout r)
  then log Green "OPEN API FILE WAS UPLOADED"
  else uncaught (Error (orElse (errorText (error r)) "OPEN API FILE WAS NOT UPLOADED")).

Definition buildMdTables : Script unit :=
  log Green "BUILDING MD TABLES FROM OPEN API..." ;;
  r <- exec "npm run build-md-tables-from-openapi" ;;
  if nonEmpty (stdout r)
  then log Green "MD TABLES WERE BUILDED SUCCESSFULLY!"
  else log Red (orUndefined (errorText (error r))) ;;
       uncaught (Error "MD TABLES WERE NOT BUILDED!").

Definition updateMdTablesInDocs : Script unit :=
  log Green "UPDATING MD TABLES IN DOCS..." ;;
  r <- exec "npm run update-md-tables-in-doc" ;;
  if nonEmpty (stdout r)
  then log Green "MD TABLES WERE UPDATED IN DOCS SUCCESSFULLY!"
  else log Red (orUndefined (errorText (error r))) ;;
       uncaught (Error "MD TABLES WERE NOT UPDATED IN DOCS!").

Definition uploadGuideFiles (version : JsVal) : Script unit :=
  log Green "UPLOADING GUIDES DOC FILES..." ;;
  r <- exec ("rdme docs ./docs/guides --version=" ++ toStr version) ;;
  if includesOpt successfullyCreated (stdout r)
  then log Green "GUIDES DOC FILES WERE UPLOADED!"
  else log Red (orUndefined (errorText (error r))) ;;
       uncaught (Error "GUIDES DOC WERE NOT UPLOADED!").

Definition updateReferenceDocsCommand (version : JsVal) : string :=
  "rdme docs ./docs/reference-docs --version=" ++ toStr version.

(** The value the callback of [updateReferenceDocs] resolves with. *)
Definition referenceDocsUploaded (r : ExecResult) : bool :=
  if includesOpt categoryNotFound (stderr r) then false
  else if includesOpt successfullyCreated (stdout r) then true
  else false.

Definition updateReferenceDocs (version : JsVal) : Script bool :=
  r <- exec (updateReferenceDocsCommand version) ;;
  ret (referenceDocsUploaded r).

(** The [for] loop of [uploadReferenceDocsWithMaxNumberOfAttempts], entered
    with the counter at [i] and [remaining] values of the counter left up
    to [maxNumberOfUploadingAttempts]. *)
Fixpoint uploadAttempts (version : JsVal) (maxNumberOfUploadingAttempts : Z)
  (timeoutAfterEachFail : Z) (remaining : nat) (i : Z) : Script unit :=
  match remaining with
  | O => ret tt
  | S remaining' =>
      success <- updateReferenceDocs version ;;
      if (success : bool)
      then log Green "REFERENCE DOC FILES WERE UPLOADED!"
      else if (i =? maxNumberOfUploadingAttempts)%Z
      then raise (Error "REFERENCE DOC WERE NOT UPLOADED!")
      else sleep timeoutAfterEachFail ;;
           uploadAttempts version maxNumberOfUploadingAttempts
             timeoutAfterEachFail remaining' (i + 1)%Z
  end.

Definition uploadReferenceDocsWithMaxNumberOfAttempts (version : JsVal)
  (maxNumberOfUploadingAttempts : Z) (timeoutAfterEachFail : Z) : Script unit :=
  log Green "UPLOADING REFERENCE DOC FILES..." ;;
  uploadAttempts version maxNumberOfUploadingAttempts timeoutAfterEachFail
    (Z.to_nat maxNumberOfUploadingAttempts) 1%Z.

Definition main (help version create update : JsVal) : Script unit :=
  valid <- validateOptions help version create update ;;
  if negb valid then ret tt
  else
    (if truthy create then createNewVersion version else ret tt) ;;
    cleanProject version ;;
    uploadOpenApiFile version ;;
    buildMdTables ;;
    updateMdTablesInDocs ;;
    uploadGuideFiles version ;;
    uploadReferenceDocsWithMaxNumberOfAttempts version 6%Z 5000%Z ;;
    log Green (nl ++ nl ++ "DONE!" ++ nl ++ "Visit: https://docs.voucherify.io/"
               ++ toStr version ++ "/").

(** The call at the end of the file. *)
Definition run (options : Options) : Script unit :=
  main (help options) (version options) (create options) (update options).

End Synchronizer.

Definition start : Cursor := mkCursor 0 0.

(* ===================================================================== *)
(** ** Observations on a run *)
(* ===================================================================== *)

(** The cursor after one more child process, and after [n] more calls of
    [fetch]. *)
Definition spawn (c : Cursor) : Cursor := mkCursor (fetched c) (S (spawned c)).
Definition advance (n : nat) (c : Cursor) : Cursor :=
  mkCursor (n + fetched c) (spawned c).

(** Everything that leaves the machine: HTTP requests and child processes
    (the uploads go through the [rdme] command). *)
Definition isRemoteCall (e : Event) : bool :=
  match e with
  | Fetch _ | Exec _ => true
  | _ => false
  end.

Definition remoteCalls (tr : list Event) : list Event := filter isRemoteCall tr.

Definition isExec (e : Event) : bool :=
  match e with
  | Exec _ => true
  | _ => false
  end.

(** The child processes started, and the delays slept. *)
Definition execs (tr : list Event) : list Event := filter isExec tr.

Definition sleepOf (e : Event) : list Z :=
  match e with
  | Sleep ms => [ms]
  | _ => []
  end.

Definition sleeps (tr : list Event) : list Z := flat_map sleepOf tr.

(** An option is supplied when the script finds it truthy. *)
Definition exactlyOne (a b : JsVal) : bool := xorb (truthy a) (truthy b).

(** The messages [validateOptions] can print. *)
Definition usageMessages : list Event :=
  [ Log Green helpText;
    Log Red missingVersion;
    Log Red missingAction;
    Log Red conflictingArguments ].

(** Requests that create a category. *)
Definition isCreate (req : Request) : bool :=
  match method req with
  | POST => url req =? api ++ "categories"
  | _ => false
  end.

Definition aboutCreation (e : Event) : bool :=
  match e with
  | Fetch req | Settled req _ => isCreate req
  | _ => false
  end.

Definition creationEvents (tr : list Event) : list Event := filter aboutCreation tr.

(** [OneByOne env version titles evs]: [evs] is, for each title in turn,
    the request that creates it followed by the settling of that
    request. *)
Inductive OneByOne (env : Environment) (version : JsVal)
  : list string -> list Event -> Prop :=
| OneByOne_nil : OneByOne env version [] []
| OneByOne_cons (t : string) (answer : FetchResult) titles evs :
    OneByOne env version titles evs ->
    OneByOne env version (t :: titles)
      (Fetch (createCategoryRequest env version t)
       :: Settled (createCategoryRequest env version t) answer :: evs).

(** The category listings the run has read. *)
Definition isListing (req : Request) : bool :=
  match method req with
  | GET => url req =? api ++ "categories?perPage=100&page=1"
  | _ => false
  end.

Definition listingOf (e : Event) : list Json :=
  match e with
  | Settled req (Responded r) =>
      if isListing req
      then match payload r with
           | BodyJson j => [j]
           | BodyNotJson _ => []
           end
      else []
  | _ => []
  end.

Definition listings (tr : list Event) : list Json := flat_map listingOf tr.

(** The requests that change a category. *)
Definition kindUpdateOf (e : Event) : list Request :=
  match e with
  | Fetch req =>
      match method req with
      | PUT => [req]
      | _ => []
      end
  | _ => []
  end.

Definition kindUpdates (tr : list Event) : list Request := flat_map kindUpdateOf tr.

(** A category whose title is in the list of reference categories. *)
Definition isReferenceCategory (category : ApiObject) : bool :=
  existsb (strictEq (title category)) listOfReferenceCategories.

(** The two readings of the output of the upload of the OpenAPI file that
    make it a success. *)
Definition ordinarySuccess (r : ExecResult) : bool := nonEmpty (stdout r).
Definition timeoutReported (r : ExecResult) : bool :=
  includesOpt uploadTimedOut (errorText (error r)).

(** The two readings of the output of an upload of the reference docs. *)
Definition reportsCategoryNotFound (r : ExecResult) : bool :=
  includesOpt categoryNotFound (stderr r).
Definition reportsSuccess (r : ExecResult) : bool :=
  includesOpt successfullyCreated (stdout r).

(* ===================================================================== *)
(** ** Sample invocations and environments *)
(* ===================================================================== *)

(** [--version=v2018-08-01-piotr-123 --update] *)
Definition explicitVersion : Options :=
  mkOptions JUndefined JUndefined (JString "v2018-08-01-piotr-123") JUndefined
            JUndefined (JBool true) JUndefined JUndefined.

(** [--vt=piotr-123 --update] *)
Definition taggedVersion : Options :=
  mkOptions JUndefined (JString "piotr-123") JUndefined JUndefined
            JUndefined (JBool true) JUndefined JUndefined.

(** [--version=v2018-08-01-piotr-123 --versionTag=piotr-123 --create] *)
Definition versionAndTag : Options :=
  mkOptions (JString "piotr-123") JUndefined (JString "v2018-08-01-piotr-123")
            JUndefined (JBool true) JUndefined JUndefined JUndefined.

(** [--vt=piotr-123 --create --update] *)
Definition createAndUpdate : Options :=
  mkOptions JUndefined (JString "piotr-123") JUndefined JUndefined
            (JBool true) (JBool true) JUndefined JUndefined.

(** [--create --update] *)
Definition createAndUpdateOnly : Options :=
  mkOptions JUndefined JUndefined JUndefined JUndefined
            (JBool true) (JBool true) JUndefined JUndefined.

Definition commandFailed : ExecResult :=
  mkExecResult (Some (Error "Command failed")) (Some EmptyString)
               (Some "getaddrinfo ENOTFOUND dash.readme.com").

Definition categoryMissing : ExecResult :=
  mkExecResult (Some (Error "Command failed")) (Some EmptyString)
               (Some ("Error uploading: " ++ categoryNotFound)).

Definition uploaded : ExecResult :=
  mkExecResult None (Some "introduction successfully created") (Some EmptyString).

Definition timedOut : ExecResult :=
  mkExecResult (Some (Error ("Command failed: " ++ uploadTimedOut)))
               (Some EmptyString) (Some EmptyString).

(** No network: every request is rejected and every command fails. *)
Definition offline : Environment :=
  {| authorization := "Basic a2V5Og==";
     http := fun _ _ => Rejected (TypeError "fetch failed");
     shell := fun _ _ => commandFailed |}.

Definition ok (j : Json) : FetchResult := Responded (mkResponse 200 (BodyJson j)).

(** A remote that answers every listing with [categories] and accepts
    everything else, and a command line tool that reports the missing
    category when it uploads the reference docs in one of the first
    [misses] child processes of the run. *)
Definition remote (categories : list ApiObject) (misses : nat) : Environment :=
  {| authorization := "Basic a2V5Og==";
     http := fun _ req =>
               match method req with
               | GET => ok (JsonArray categories)
               | _ => ok JsonOther
               end;
     shell := fun n command =>
                if (n <? misses)%nat
                   && String.prefix "rdme docs ./docs/reference-docs" command
                then categoryMissing
                else uploaded |}.

Definition introduction : ApiObject :=
  mkApiObject (JString "Introduction") (JString "introduction").
Definition introductionAgain : ApiObject :=
  mkApiObject (JString "Introduction") (JString "introduction-1").
Definition more : ApiObject := mkApiObject (JString "More") (JString "more").

(* ===================================================================== *)
(** ** Calls that send one request *)
(* ===================================================================== *)

(** The functions mapped by [asyncMap] all have the same shape: one
    request is sent and its answer is ignored, unless an exception comes
    first.  A plan names the request, or the exception. *)
Section Plans.

Variable env : Environment.

Definition plannedCall (plan : JsError + Request) : Async unit :=
  match plan with
  | inl e => throwS e
  | inr req => andThen (fetch env req) (fun _ => ret tt)
  end.

Fixpoint requestsOf (plans : list (JsError + Request)) : list Request :=
  match plans with
  | [] => []
  | inl _ :: others => requestsOf others
  | inr req :: others => req :: requestsOf others
  end.

Fixpoint firstError (plans : list (JsError + Request)) : option JsError :=
  match plans with
  | [] => None
  | inl e :: _ => Some e
  | inr _ :: others => firstError others
  end.

(** The promises obtained from the planned calls, the first request being
    the [n]-th of the run. *)
Fixpoint promisesOf (n : nat) (plans : list (JsError + Request))
  : list (Promise unit) :=
  match plans with
  | [] => []
  | inl e :: others => RejectedPromise e :: promisesOf n others
  | inr req :: others =>
      Pending (bindS (settled req (http env n req)) (fun _ => ret tt))
      :: promisesOf (S n) others
  end.

Definition updatePlan (version : JsVal) (allCategories : Json)
  (categoryTitle : string) : JsError + Request :=
  match allCategories with
  | JsonArray items =>
      match findByTitle categoryTitle items with
      | Some category =>
          inr (updateCategoryRequest env version (slug category) kindReference)
      | None => inl lookupError
      end
  | JsonNull => inl (TypeError "Cannot read properties of null (reading 'find')")
  | JsonOther => inl (TypeError "allCategories.find is not a function")
  end.

(** What [cleanProject] does once it has read the categories again. *)
Definition afterRefetch (version : JsVal) (allCategories : Json) : Script unit :=
  asyncMap listOfReferenceCategories
    (updateReferenceCategory env version allCategories) ;;
  log Green "REFERENCE CATEGORIES UPDATED!" ;;
  allApiSpecifications <- getAllApiSpecifications env version ;;
  asyncMapJson allApiSpecifications (deleteSpecification env) ;;
  log Green "API SPECIFICATIONS DELETED!" ;;
  log Green ("VERSION " ++ dq ++ toStr version ++ dq ++ " IS CLEANED UP!").

End Plans.

(** A script on whose traces an observation sees nothing. *)
Definition Silent {X A} (obs : list Event -> list X) (m : Script A) : Prop :=
  forall c, obs (traceOf (m c)) = [].

(** An observation that reads a trace event by event. *)
Definition Additive {X} (obs : list Event -> list X) : Prop :=
  obs [] = [] /\ forall t1 t2, obs (t1 ++ t2)%list = (obs t1 ++ obs t2)%list.

(** A script that creates the categories [titles] one by one, in that
    order, up to the point where it stops. *)
Definition CreatesInOrder {A} (env : Environment) (version : JsVal)
  (titles : list string) (m : Script A) : Prop :=
  forall c,
  exists created todo,
    OneByOne env version created (creationEvents (traceOf (m c)))
    /\ titles = (created ++ todo)%list
    /\ (forall a, outcomeOf (m c) = Done a -> todo = []).

(* ===================================================================== *)
(** ** Further observations *)
(* ===================================================================== *)

(** The commands of the child processes, in the order they were started. *)
Definition commandOf (e : Event) : list string :=
  match e with
  | Exec command => [command]
  | _ => []
  end.

Definition commands (tr : list Event) : list string := flat_map commandOf tr.

(** The requests sent. *)
Definition requestOf (e : Event) : list Request :=
  match e with
  | Fetch req => [req]
  | _ => []
  end.

Definition requests (tr : list Event) : list Request := flat_map requestOf tr.

(** [k] attempts at uploading the reference docs that failed and were each
    followed by the delay. *)
Definition failedAttempts (version : JsVal) (delay : Z) (k : nat) : list Event :=
  flat_map (fun _ => [Exec (updateReferenceDocsCommand version); Sleep delay])
           (seq 0 k).

(** The cursor after [k] more child processes. *)
Definition spawnMany (k : nat) (c : Cursor) : Cursor :=
  mkCursor (fetched c) (k + spawned c).

(** The options [validateOptions] lets through. *)
Definition acceptable (help version create update : JsVal) : Prop :=
  truthy help = false /\ truthy version = true /\ exactlyOne create update = true.

(** A script whose events all satisfy [P]. *)
Definition Only {A} (P : Event -> Prop) (m : Script A) : Prop :=
  forall c, Forall P (traceOf (m c)).

(** The six kinds of requests of [cleanProject]. *)
Definition CleanRequest (env : Environment) (version : JsVal) (req : Request) : Prop :=
  req = getAllCategoriesRequest env version
  \/ (exists s, req = deleteCategoryRequest env version s)
  \/ (exists t, req = createCategoryRequest env version t)
  \/ (exists s, req = updateCategoryRequest env version s kindReference)
  \/ req = getAllApiSpecificationsRequest env version
  \/ (exists id, req = deleteSpecificationRequest env id).

(** A message, or the sending or settling of a request that satisfies
    [P]. *)
Definition MessageOrRequest (P : Request -> Prop) (e : Event) : Prop :=
  match e with
  | Log _ _ => True
  | Fetch req | Settled req _ => P req
  | Exec _ | Sleep _ => False
  end.

(** What [main] does once the version is clean. *)
Definition uploads (env : Environment) (version : JsVal) : Script unit :=
  uploadOpenApiFile env version ;;
  buildMdTables env ;;
  updateMdTablesInDocs env ;;
  uploadGuideFiles env version ;;
  uploadReferenceDocsWithMaxNumberOfAttempts env version 6%Z 5000%Z ;;
  log Green (nl ++ nl ++ "DONE!" ++ nl ++ "Visit: https://docs.voucherify.io/"
             ++ toStr version ++ "/").

(** The commands of a run that needs every attempt of the last step. *)
Definition pipeline (version : JsVal) : list string :=
  uploadOpenApiFileCommand version
  :: "npm run build-md-tables-from-openapi"
  :: "npm run update-md-tables-in-doc"
  :: ("rdme docs ./docs/guides --version=" ++ toStr version)
  :: repeat (updateReferenceDocsCommand version) 6.

(** The message of [createNewVersion] when the fork could not be made, and
    the error it throws when the answer is not a 200. *)
Definition forkFailed : Event :=
  Log Red ("Error while creating fork from " ++ mainVersion ++ "!").

Definition unexpectedStatus (n : N) : JsError :=
  Error ("Response status: " ++ showStatus n
         ++ ", maybe this versionTag is already created?").

(** A remote that answers like [remote categories 0], but with the status
    [status] on every response. *)
Definition remoteWithStatus (status : N) (categories : list ApiObject) : Environment :=
  {| authorization := "Basic a2V5Og==";
     http := fun _ req =>
               match method req with
               | GET => Responded (mkResponse status (BodyJson (JsonArray categories)))
               | _ => Responded (mkResponse status (BodyJson JsonOther))
               end;
     shell := fun _ _ => uploaded |}.

(** A remote that rejects the deletions and accepts the rest. *)
Definition remoteKeeping (categories : list ApiObject) : Environment :=
  {| authorization := "Basic a2V5Og==";
     http := fun _ req =>
               match method req with
               | GET => ok (JsonArray categories)
               | DELETE => Rejected (TypeError "fetch failed")
               | _ => ok JsonOther
               end;
     shell := fun _ _ => uploaded |}.

(** A remote that answers everything with an error object. *)
Definition remoteRefusing : Environment :=
  {| authorization := "Basic a2V5Og==";
     http := fun _ _ => Responded (mkResponse 401 (BodyJson JsonOther));
     shell := fun _ _ => uploaded |}.

(* ===================================================================== *)
(** ** The script that looks for asset links in the docs *)
(* ===================================================================== *)

(** The second script of the repository: [chunkArray], [getFiles] and
    [readmeFixDocs].  It reads the file system and prints; its runs are
    given as the lines printed and the way the run ends. *)
Module FixDocs.

(** *** [chunkArray] *)

Definition rangeError : JsError := mkError "RangeError" "Invalid array length".

(** [Math.ceil(a / b)] for integers [a] and [b]; [None] when the quotient
    is [NaN] or infinite, that is when [b] is zero. *)
Definition ceilOfQuotient (a b : Z) : option Z :=
  if (b =? 0)%Z then None else Some (- ((- a) / b))%Z.

(** [count] times [array.splice(0, chunkSize)] on the same array: the
    pieces cut off, and what is left of the array. *)
Fixpoint splices {A} (count chunkSize : nat) (array : list A)
  : list (list A) * list A :=
  match count with
  | O => ([], array)
  | S count' =>
      let (chunks, left) := splices count' chunkSize (skipn chunkSize array) in
      (firstn chunkSize array :: chunks, left)
  end.

(** [[...Array(Math.ceil(list.length / chunkSize))].map((_) =>
    list.splice(0, chunkSize))], for the array [array] as [list] and an
    integer [chunkSize]: the chunks and the array as the call leaves it, or
    the [RangeError] of [Array] for a length that is negative or not a
    number. *)
Definition chunkArray {A} (array : list A) (chunkSize : Z)
  : JsError + (list (list A) * list A) :=
  match ceilOfQuotient (Z.of_nat (length array)) chunkSize with
  | None => inl rangeError
  | Some n =>
      if (n <? 0)%Z then inl rangeError
      else inr (splices (Z.to_nat n) (Z.to_nat chunkSize) array)
  end.

(** *** [getFiles] *)

(** [s.endsWith(suffix)] *)
Fixpoint endsWith (suffix s : string) : bool :=
  (s =? suffix)
  || match s with
     | EmptyString => false
     | String _ rest => endsWith suffix rest
     end.

(** An entry of a directory, as [readdir] with [withFileTypes] gives it,
    together with what [readdir] gives for the entry itself when it is a
    directory: its entries, or an error. *)
#[local] Set Warnings "-register-all".
Inductive Dirent : Type :=
| File (name : string)
| Folder (name : string) (items : list Dirent)
| LockedFolder (name : string) (e : JsError).
#[local] Set Warnings "+register-all".

Definition nameOf (item : Dirent) : string :=
  match item with
  | File name | Folder name _ | LockedFolder name _ => name
  end.

(** The [for] loop of [getFiles]: the paths pushed, [body] giving those of
    one turn; an exception in a turn ends the loop. *)
Fixpoint forEachItem (body : Dirent -> JsError + list string) (items : list Dirent)
  : JsError + list string :=
  match items with
  | [] => inr []
  | item :: others =>
      match body item with
      | inl e => inl e
      | inr pushed =>
          match forEachItem body others with
          | inl e => inl e
          | inr more => inr (pushed ++ more)%list
          end
      end
  end.

(** The second [if] of the loop. *)
Definition markdownOnly (itemPath : string) : list string :=
  if endsWith ".md" itemPath then [itemPath] else [].

(** One turn of the loop of [getFiles(path)], the recursive call
    included. *)
Fixpoint turn (path : string) (item : Dirent) : JsError + list string :=
  let itemPath := path ++ "/" ++ nameOf item in
  match item with
  | File _ => inr (markdownOnly itemPath)
  | Folder _ items =>
      if negb (endsWith ".bin" itemPath)
      then forEachItem (turn itemPath) items
      else inr (markdownOnly itemPath)
  | LockedFolder _ e =>
      if negb (endsWith ".bin" itemPath)
      then inl e
      else inr (markdownOnly itemPath)
  end.

(** [getFiles(path)], [readdir(path)] giving [listing]. *)
Definition getFiles (path : string) (listing : JsError + list Dirent)
  : JsError + list string :=
  match listing with
  | inl e => inl e
  | inr items => forEachItem (turn path) items
  end.

(** *** [readmeFixDocs] *)

(** Whether [data.matchAll(/\.\.\/\.\.\/assets.*/g)] has a first match. *)
Definition hasMatch (data : string) : bool := includes "../../assets" data.

(** The result of [next()] is not an iterator. *)
Definition notAFunction : JsError :=
  TypeError "matchIterator.next is not a function".

Definition keyMissing : string :=
  "`README_IO_AUTH` was not provided in `.env` file :/".

(** The [length] of a string of the script is its number of UTF-16 code
    units, while the strings here hold the bytes of the environment, which
    Node decodes as UTF-8: a character of one, two or three bytes is one
    unit, a character of four bytes is two, and every maximal run of bytes
    that starts a character and does not end it is one unit, that of
    U+FFFD. *)

(** The decoder between two bytes: the bytes still [needed] by the
    character begun, whether it takes four bytes, and the bounds of the
    next byte. *)
Record Decoder : Type := mkDecoder {
  needed : nat;
  fourBytes : bool;
  lower : N;
  upper : N
}.

Definition idle : Decoder := mkDecoder 0 false 0x80 0xBF.

Definition within (low high b : N) : bool := ((low <=? b) && (b <=? high))%N.

(** A byte met by the idle decoder: the units it gives at once, and the
    decoder after it. *)
Definition firstByte (b : N) : nat * Decoder :=
  if (b <=? 0x7F)%N then (1, idle)
  else if within 0xC2 0xDF b then (0, mkDecoder 1 false 0x80 0xBF)
  else if within 0xE0 0xEF b
  then (0, mkDecoder 2 false (if (b =? 0xE0)%N then 0xA0 else 0x80)
                             (if (b =? 0xED)%N then 0x9F else 0xBF))
  else if within 0xF0 0xF4 b
  then (0, mkDecoder 3 true (if (b =? 0xF0)%N then 0x90 else 0x80)
                            (if (b =? 0xF4)%N then 0x8F else 0xBF))
  else (1, idle).

(** One byte: it continues the character begun, ends it, or breaks it off,
    in which case it is read again as a first byte. *)
Definition nextByte (d : Decoder) (b : N) : nat * Decoder :=
  match needed d with
  | O => firstByte b
  | S others =>
      if within (lower d) (upper d) b
      then match others with
           | O => (if fourBytes d then 2 else 1, idle)
           | S _ => (0, mkDecoder others (fourBytes d) 0x80 0xBF)
           end
      else let (units, d') := firstByte b in (S units, d')
  end.

Fixpoint unitsFrom (d : Decoder) (s : string) : nat :=
  match s with
  | EmptyString => match needed d with O => 0 | S _ => 1 end
  | String a rest =>
      let (units, d') := nextByte d (N_of_ascii a) in units + unitsFrom d' rest
  end.

(** [s.length] *)
Definition lengthOf (s : string) : nat := unitsFrom idle s.

(** [process.env.README_IO_AUTH?.length < 10] *)
Definition keyTooShort (README_IO_AUTH : option string) : bool :=
  match README_IO_AUTH with
  | Some key => (lengthOf key <? 10)%nat
  | None => false
  end.

(** The loop over [pathsToFiles]: a file without a match has its empty
    list of matches printed; with a match, the [while] loop is entered and
    calls [next] on the result of [next]. *)
Fixpoint processFiles (readFile : string -> JsError + string)
  (pathsToFiles : list string) : list string * Outcome unit :=
  match pathsToFiles with
  | [] => ([], Done tt)
  | pathToFile :: others =>
      match readFile pathToFile with
      | inl e => ([], Throw e)
      | inr data =>
          if hasMatch data then ([], Throw notAFunction)
          else
            let (printed, o) := processFiles readFile others in
            ("[]" :: printed, o)
      end
  end.

(** [readmeFixDocs()], with the value of the environment variable, the
    joined path of the docs, what [readdir] gives there and what
    [readFile] gives for each path. *)
Definition readmeFixDocs (README_IO_AUTH : option string) (basePath : string)
  (listing : JsError + list Dirent) (readFile : string -> JsError + string)
  : list string * Outcome unit :=
  if keyTooShort README_IO_AUTH then ([keyMissing], Done tt)
  else
    match getFiles basePath listing with
    | inl e => ([], Throw e)
    | inr pathsToFiles =>
        match processFiles readFile pathsToFiles with
        | (printed, Done _) => ((printed ++ ["Done!"])%list, Done tt)
        | (printed, o) => (printed, o)
        end
    end.

(** A sample tree of docs. *)
Definition docs : list Dirent :=
  [ Folder "guides" [File "intro.md"; File "logo.png"; Folder "more" [File "faq.md"]];
    Folder "cache.bin" [File "old.md"];
    LockedFolder "vault.bin" (Error "EACCES");
    File "README.md" ].

End FixDocs.

(* ===================================================================== *)
(** ** Running a script *)
(* ===================================================================== *)

Lemma bind_run {A B} (m : Script A) (k : A -> Script B) (c : Cursor) :
  (x <- m ;; k x) c =
  match m c with
  | (c1, t1, Done a) =>
      match k a c1 with
      | (c2, t2, o) => (c2, (t1 ++ t2)%list, o)
      end
  | (c1, t1, Throw e) => (c1, t1, Throw e)
  | (c1, t1, Uncaught e) => (c1, t1, Uncaught e)
  end.
Proof. reflexivity. Qed.

(* ===================================================================== *)
(** ** The version identifier *)
(* ===================================================================== *)

(** With a tag, the identifier is the base version name, a dash and the
    tag. *)
Lemma version_of_tag (options : Options) :
  truthy (versionTag options) = true ->
  version options = JString (mainVersion ++ "-" ++ toStr (versionTag options)).
Proof.
  intros Htag. unfold version, js_or.
  destruct (truthy (versionOption options)) eqn:Hopt; rewrite ?Hopt, ?Htag; reflexivity.
Qed.

(** Without a tag, the value of [--version] only switches the template
    on: the identifier ends in the text of [undefined]. *)
Lemma version_without_tag (options : Options) :
  truthy (versionOption options) = true ->
  versionTag options = JUndefined ->
  version options = JString "v2018-08-01-undefined".
Proof.
  intros Hopt Htag. unfold version, js_or. rewrite Hopt, Hopt, Htag. reflexivity.
Qed.

(** C1. An invocation with [--version=v2018-08-01-piotr-123] and no tag does
    not run on the identifier it was given: the script computes
    [v2018-08-01-undefined], whereas [--vt=piotr-123] alone yields the base
    version name, a dash and the tag. *)
Theorem version_option_is_discarded :
  version explicitVersion = JString "v2018-08-01-undefined"
  /\ version explicitVersion <> versionOption explicitVersion
  /\ version taggedVersion = JString (mainVersion ++ "-" ++ "piotr-123").
Proof.
  split; [reflexivity | split; [discriminate | reflexivity]].
Qed.

Lemma truthy_version (options : Options) :
  truthy (version options)
  = truthy (versionOption options) || truthy (versionTag options).
Proof.
  unfold version, js_or.
  destruct (truthy (versionOption options)) eqn:Hopt; rewrite ?Hopt; cbn [orb].
  - reflexivity.
  - destruct (truthy (versionTag options)); reflexivity.
Qed.

(* ===================================================================== *)
(** ** Validation of the options *)
(* ===================================================================== *)

Lemma validateOptions_refuses (help version create update : JsVal) (c : Cursor) :
  truthy version = false \/ exactlyOne create update = false ->
  exists e, In e usageMessages
            /\ validateOptions help version create update c = (c, [e], Done false).
Proof.
  unfold exactlyOne, validateOptions, usageMessages, printHelp.
  intros H.
  destruct (truthy help), (truthy version), (truthy create), (truthy update);
    cbn [xorb] in H; cbn [negb andb orb];
    try (destruct H; discriminate);
    eexists; (split; [ | reflexivity ]); cbn [In]; auto.
Qed.

Lemma validateOptions_conflict (help version create update : JsVal) (c : Cursor) :
  truthy help = false -> truthy version = true ->
  truthy create = true -> truthy update = true ->
  validateOptions help version create update c
  = (c, [Log Red conflictingArguments], Done false).
Proof.
  intros Hh Hv Hc Hu. unfold validateOptions. rewrite Hh, Hv, Hc, Hu. reflexivity.
Qed.

Lemma main_refused (env : Environment) (help version create update : JsVal)
  (c : Cursor) (e : Event) :
  validateOptions help version create update c = (c, [e], Done false) ->
  main env help version create update c = (c, [e], Done tt).
Proof.
  intros H. unfold main. rewrite bind_run, H. reflexivity.
Qed.

(** C2, as the script has it.  When neither a version nor a tag is
    supplied, or when it is not exactly one of [create] and [update] that
    is supplied, the run prints one usage or error message, makes no remote
    call and ends.  With both [create] and [update], the message is the one
    on conflicting arguments as soon as a version or a tag is there and no
    help is asked for. *)
Theorem invalid_options_make_no_remote_call
  (env : Environment) (options : Options) (c : Cursor) :
  (truthy (versionOption options) = false /\ truthy (versionTag options) = false)
  \/ exactlyOne (create options) (update options) = false ->
  outcomeOf (run env options c) = Done tt
  /\ remoteCalls (traceOf (run env options c)) = []
  /\ (exists e, In e usageMessages /\ traceOf (run env options c) = [e])
  /\ (truthy (create options) = true -> truthy (update options) = true ->
      truthy (help options) = false ->
      truthy (versionOption options) || truthy (versionTag options) = true ->
      traceOf (run env options c) = [Log Red conflictingArguments]).
Proof.
  intros H.
  assert (Hv : truthy (version options) = false
               \/ exactlyOne (create options) (update options) = false).
  { destruct H as [[H1 H2] | H]; [left | right; exact H].
    rewrite truthy_version, H1, H2. reflexivity. }
  destruct (validateOptions_refuses (help options) _ _ _ c Hv) as [e [Hin He]].
  unfold run. rewrite (main_refused env _ _ _ _ c e He).
  cbn [outcomeOf traceOf fst snd].
  repeat split.
  - unfold usageMessages in Hin. cbn [In] in Hin.
    destruct Hin as [<- | [<- | [<- | [<- | []]]]]; reflexivity.
  - exists e. split; [exact Hin | reflexivity].
  - intros Hc Hu Hh Hvt. rewrite <- truthy_version in Hvt.
    rewrite (validateOptions_conflict _ _ _ _ c Hh Hvt Hc Hu) in He.
    congruence.
Qed.

Lemma invalid_options_make_no_remote_call_witness :
  outcomeOf (run offline createAndUpdate start) = Done tt
  /\ remoteCalls (traceOf (run offline createAndUpdate start)) = []
  /\ traceOf (run offline createAndUpdate start) = [Log Red conflictingArguments].
Proof.
  assert (H : (truthy (versionOption createAndUpdate) = false
               /\ truthy (versionTag createAndUpdate) = false)
              \/ exactlyOne (create createAndUpdate) (update createAndUpdate) = false)
    by (right; reflexivity).
  destruct (invalid_options_make_no_remote_call offline createAndUpdate start H)
    as [Ho [Hr [_ Hc]]].
  split; [exact Ho | split; [exact Hr | ]].
  apply Hc; reflexivity.
Defined.

(** C2, as stated, fails twice.  With both [--version] and [--versionTag]
    (and [--create]) it is not exactly one of the two that is supplied, yet
    the options are accepted and the fork is requested.  With [--create] and
    [--update] and nothing else, the message is the one on the missing
    version, not the one on conflicting arguments. *)
Lemma version_and_tag_are_accepted :
  (~ (exactlyOne (versionOption versionAndTag) (versionTag versionAndTag) = true
      /\ exactlyOne (create versionAndTag) (update versionAndTag) = true)
   /\ remoteCalls (traceOf (run offline versionAndTag start))
      = [Fetch (createNewVersionRequest offline (JString "v2018-08-01-piotr-123"))])
  /\ (truthy (create createAndUpdateOnly) = true
      /\ truthy (update createAndUpdateOnly) = true
      /\ traceOf (run offline createAndUpdateOnly start) = [Log Red missingVersion]
      /\ Log Red missingVersion <> Log Red conflictingArguments).
Proof.
  split; [split | repeat split].
  - intros [H _]. discriminate H.
  - reflexivity.
  - discriminate.
Qed.

(* ===================================================================== *)
(** ** Upload of the OpenAPI file *)
(* ===================================================================== *)

Section Uploads.

Variable env : Environment.

Lemma uploadOpenApiFile_run (version : JsVal) (c : Cursor) :
  uploadOpenApiFile env version c =
  let r := shell env (spawned c) (uploadOpenApiFileCommand version) in
  let started :=
    [ Log Green "UPLOADING OPEN API FILE... PLEASE WAIT... THIS MAY TAKE UP TO A MINUTE";
      Exec (uploadOpenApiFileCommand version) ] in
  if timeoutReported r || ordinarySuccess r
  then (spawn c, (started ++ [Log Green "OPEN API FILE WAS UPLOADED"])%list, Done tt)
  else (spawn c, started,
        Uncaught (Error (orElse (errorText (error r)) "OPEN API FILE WAS NOT UPLOADED"))).
Proof.
  unfold uploadOpenApiFile, timeoutReported, ordinarySuccess.
  rewrite bind_run. cbn [log emit]. rewrite bind_run. cbn [exec].
  destruct (includesOpt uploadTimedOut _ || nonEmpty _); reflexivity.
Qed.

(** C4. The upload of the OpenAPI file succeeds exactly when the command
    printed something on its standard output (the ordinary success) or when
    the text of its error contains the upload-timeout message; in every
    other case it fails, with the text of the error if there is one. *)
Theorem uploadOpenApiFile_succeeds_iff (version : JsVal) (c : Cursor) :
  let r := shell env (spawned c) (uploadOpenApiFileCommand version) in
  (outcomeOf (uploadOpenApiFile env version c) = Done tt
   <-> ordinarySuccess r = true \/ timeoutReported r = true)
  /\ (ordinarySuccess r = false -> timeoutReported r = false ->
      outcomeOf (uploadOpenApiFile env version c)
      = Uncaught (Error (orElse (errorText (error r))
                                "OPEN API FILE WAS NOT UPLOADED"))).
Proof.
  intros r. rewrite uploadOpenApiFile_run. cbv zeta. fold r.
  destruct (timeoutReported r), (ordinarySuccess r); cbn [orb outcomeOf snd];
    intuition congruence.
Qed.

(* ===================================================================== *)
(** ** Upload of the reference docs *)
(* ===================================================================== *)

Lemma updateReferenceDocs_run (version : JsVal) (c : Cursor) :
  updateReferenceDocs env version c =
  (spawn c, [Exec (updateReferenceDocsCommand version)],
   Done (referenceDocsUploaded
           (shell env (spawned c) (updateReferenceDocsCommand version)))).
Proof. reflexivity. Qed.

(** C9. Whatever the child process reports, one attempt at uploading the
    reference docs resolves to a boolean: it neither rejects nor throws. *)
Theorem updateReferenceDocs_always_resolves (version : JsVal) (c : Cursor) :
  exists b : bool,
    outcomeOf (updateReferenceDocs env version c) = Done b
    /\ traceOf (updateReferenceDocs env version c)
       = [Exec (updateReferenceDocsCommand version)].
Proof.
  rewrite updateReferenceDocs_run. eexists. split; reflexivity.
Qed.

(** An attempt fails when the missing category is reported, and also when
    it is not but the success text is absent. *)
Lemma referenceDocsUploaded_false (r : ExecResult) :
  referenceDocsUploaded r = false
  <-> reportsCategoryNotFound r = true \/ reportsSuccess r = false.
Proof.
  unfold referenceDocsUploaded, reportsCategoryNotFound, reportsSuccess.
  destruct (includesOpt categoryNotFound _), (includesOpt successfullyCreated _);
    intuition congruence.
Qed.

(** One turn of the loop. *)
Lemma uploadAttempts_step (version : JsVal) (max delay : Z) (n : nat) (i : Z)
  (c : Cursor) :
  uploadAttempts env version max delay (S n) i c =
  if referenceDocsUploaded (shell env (spawned c) (updateReferenceDocsCommand version))
  then (spawn c,
        [ Exec (updateReferenceDocsCommand version);
          Log Green "REFERENCE DOC FILES WERE UPLOADED!" ],
        Done tt)
  else if (i =? max)%Z
  then (spawn c, [Exec (updateReferenceDocsCommand version)],
        Throw (Error "REFERENCE DOC WERE NOT UPLOADED!"))
  else match uploadAttempts env version max delay n (i + 1)%Z (spawn c) with
       | (c2, t2, o) =>
           (c2, Exec (updateReferenceDocsCommand version) :: Sleep delay :: t2, o)
       end.
Proof.
  cbn [uploadAttempts]. rewrite bind_run, updateReferenceDocs_run.
  destruct (referenceDocsUploaded _); [reflexivity | ].
  destruct (i =? max)%Z; [reflexivity | ].
  rewrite bind_run. cbn [sleep emit].
  destruct (uploadAttempts env version max delay n (i + 1)%Z (spawn c)) as [[c2 t2] o].
  reflexivity.
Qed.

Lemma upload_run (version : JsVal) (max delay : Z) (c : Cursor) :
  uploadReferenceDocsWithMaxNumberOfAttempts env version max delay c =
  match uploadAttempts env version max delay (Z.to_nat max) 1%Z c with
  | (c2, t2, o) => (c2, Log Green "UPLOADING REFERENCE DOC FILES..." :: t2, o)
  end.
Proof.
  unfold uploadReferenceDocsWithMaxNumberOfAttempts. rewrite bind_run.
  cbn [log emit].
  destruct (uploadAttempts env version max delay (Z.to_nat max) 1%Z c) as [[c2 t2] o].
  reflexivity.
Qed.

Lemma failedAttempts_S (version : JsVal) (delay : Z) (k : nat) :
  failedAttempts version delay (S k)
  = Exec (updateReferenceDocsCommand version) :: Sleep delay
    :: failedAttempts version delay k.
Proof.
  unfold failedAttempts. cbn [seq flat_map app].
  do 2 f_equal. rewrite <- seq_shift, flat_map_concat_map, map_map.
  rewrite <- flat_map_concat_map. reflexivity.
Qed.

(** After [k] failed attempts that leave the budget unspent, the loop has
    slept after each of them and attempts again. *)
Lemma uploadAttempts_failures (version : JsVal) (max delay : Z) (k n : nat)
  (i : Z) (c : Cursor) :
  k < n ->
  (i + Z.of_nat k <= max)%Z ->
  (forall j, j < k ->
     referenceDocsUploaded
       (shell env (j + spawned c) (updateReferenceDocsCommand version)) = false) ->
  exists rest,
    traceOf (uploadAttempts env version max delay n i c)
    = (failedAttempts version delay k
       ++ Exec (updateReferenceDocsCommand version) :: rest)%list.
Proof.
  revert n i c. induction k as [ | k IH]; intros n i c Hn Hi Hfail.
  - destruct n as [ | n]; [lia | ].
    rewrite uploadAttempts_step.
    destruct (referenceDocsUploaded _); [eexists; reflexivity | ].
    destruct (i =? max)%Z; [eexists; reflexivity | ].
    destruct (uploadAttempts env version max delay n (i + 1)%Z (spawn c))
      as [[c2 t2] o].
    eexists. reflexivity.
  - destruct n as [ | n]; [lia | ].
    rewrite uploadAttempts_step.
    pose proof (Hfail 0 ltac:(lia)) as H0. cbn [Nat.add] in H0. rewrite H0.
    destruct (Z.eqb_spec i max) as [-> | _]; [lia | ].
    destruct (IH n (i + 1)%Z (spawn c)) as [rest Hrest].
    + lia.
    + lia.
    + intros j Hj. cbn [spawn spawned]. rewrite <- Nat.add_succ_comm.
      apply Hfail. lia.
    + destruct (uploadAttempts env version max delay n (i + 1)%Z (spawn c))
        as [[c2 t2] o].
      cbn [traceOf fst snd] in *. exists rest.
      rewrite failedAttempts_S, Hrest. reflexivity.
Qed.

(** C5, as the script has it.  Every attempt that does not succeed, be it
    because the missing category is reported or for any other reason, is
    followed, when attempts are left, by the delay and by another
    attempt: after [k] attempts that failed, [k] being less than the
    budget, the run has slept [k] times and makes an attempt more. *)
Theorem every_failed_attempt_is_retried (version : JsVal) (max delay : Z)
  (k : nat) (c : Cursor) :
  (Z.of_nat k < max)%Z ->
  (forall j, j < k ->
     reportsCategoryNotFound
       (shell env (j + spawned c) (updateReferenceDocsCommand version)) = true
     \/ reportsSuccess
          (shell env (j + spawned c) (updateReferenceDocsCommand version)) = false) ->
  exists rest,
    traceOf (uploadReferenceDocsWithMaxNumberOfAttempts env version max delay c)
    = (Log Green "UPLOADING REFERENCE DOC FILES..."
       :: failedAttempts version delay k
       ++ Exec (updateReferenceDocsCommand version) :: rest)%list.
Proof.
  intros Hmax Hfail.
  destruct (uploadAttempts_failures version max delay k (Z.to_nat max) 1 c)
    as [rest Hrest].
  - lia.
  - lia.
  - intros j Hj. apply referenceDocsUploaded_false. apply Hfail. exact Hj.
  - rewrite upload_run.
    destruct (uploadAttempts env version max delay (Z.to_nat max) 1 c)
      as [[c2 t2] o].
    cbn [traceOf fst snd] in *. exists rest. rewrite Hrest. reflexivity.
Qed.

(** C6. With a budget of two attempts and an upload that fails each time,
    the second failure is fatal: two child processes, one delay between
    them, no third attempt. *)
Theorem two_attempts_then_failure (version : JsVal) (delay : Z) (c : Cursor) :
  (forall n command, referenceDocsUploaded (shell env n command) = false) ->
  outcomeOf (uploadReferenceDocsWithMaxNumberOfAttempts env version 2 delay c)
  = Throw (Error "REFERENCE DOC WERE NOT UPLOADED!")
  /\ traceOf (uploadReferenceDocsWithMaxNumberOfAttempts env version 2 delay c)
     = [ Log Green "UPLOADING REFERENCE DOC FILES...";
         Exec (updateReferenceDocsCommand version);
         Sleep delay;
         Exec (updateReferenceDocsCommand version) ]
  /\ length (execs (traceOf
       (uploadReferenceDocsWithMaxNumberOfAttempts env version 2 delay c))) = 2.
Proof.
  intros Hfail. rewrite upload_run.
  change (Z.to_nat 2) with 2.
  rewrite uploadAttempts_step, Hfail. cbn [Z.eqb Pos.eqb].
  rewrite uploadAttempts_step, Hfail. cbn [Z.add Pos.add Z.eqb Pos.eqb].
  repeat split.
Qed.

(** C7. With a budget of three attempts and an upload that reports the
    missing category twice and succeeds the third time, the run completes
    after three child processes and two delays, one between each two
    attempts. *)
Theorem third_attempt_succeeds (version : JsVal) (delay : Z) (c : Cursor) :
  reportsCategoryNotFound
    (shell env (spawned c) (updateReferenceDocsCommand version)) = true ->
  reportsCategoryNotFound
    (shell env (S (spawned c)) (updateReferenceDocsCommand version)) = true ->
  referenceDocsUploaded
    (shell env (S (S (spawned c))) (updateReferenceDocsCommand version)) = true ->
  outcomeOf (uploadReferenceDocsWithMaxNumberOfAttempts env version 3 delay c)
  = Done tt
  /\ traceOf (uploadReferenceDocsWithMaxNumberOfAttempts env version 3 delay c)
     = [ Log Green "UPLOADING REFERENCE DOC FILES...";
         Exec (updateReferenceDocsCommand version);
         Sleep delay;
         Exec (updateReferenceDocsCommand version);
         Sleep delay;
         Exec (updateReferenceDocsCommand version);
         Log Green "REFERENCE DOC FILES WERE UPLOADED!" ]
  /\ length (execs (traceOf
       (uploadReferenceDocsWithMaxNumberOfAttempts env version 3 delay c))) = 3
  /\ sleeps (traceOf
       (uploadReferenceDocsWithMaxNumberOfAttempts env version 3 delay c))
     = [delay; delay].
Proof.
  intros H0 H1 H2.
  assert (F0 : referenceDocsUploaded
                 (shell env (spawned c) (updateReferenceDocsCommand version)) = false)
    by (apply referenceDocsUploaded_false; auto).
  assert (F1 : referenceDocsUploaded
                 (shell env (S (spawned c)) (updateReferenceDocsCommand version)) = false)
    by (apply referenceDocsUploaded_false; auto).
  rewrite upload_run.
  change (Z.to_nat 3) with 3.
  rewrite uploadAttempts_step, F0. cbn [Z.eqb Pos.eqb].
  rewrite uploadAttempts_step. cbn [spawn spawned]. rewrite F1.
  cbn [Z.add Pos.add Z.eqb Pos.eqb].
  rewrite uploadAttempts_step. cbn [spawn spawned]. rewrite H2.
  repeat split.
Qed.

End Uploads.

Lemma uploadOpenApiFile_succeeds_iff_witness :
  outcomeOf (uploadOpenApiFile offline (JString "v2018-08-01-piotr-123") start)
  = Uncaught (Error "Error: Command failed").
Proof.
  apply (proj2 (uploadOpenApiFile_succeeds_iff offline
                  (JString "v2018-08-01-piotr-123") start)); reflexivity.
Defined.

Lemma every_failed_attempt_is_retried_witness :
  exists rest,
    traceOf (uploadReferenceDocsWithMaxNumberOfAttempts offline
               (JString "v2018-08-01-piotr-123") 6 5000 start)
    = (Log Green "UPLOADING REFERENCE DOC FILES..."
       :: failedAttempts (JString "v2018-08-01-piotr-123") 5000 5
       ++ Exec "rdme docs ./docs/reference-docs --version=v2018-08-01-piotr-123"
       :: rest)%list.
Proof.
  apply (every_failed_attempt_is_retried offline
           (JString "v2018-08-01-piotr-123") 6 5000 5 start).
  - lia.
  - intros j Hj. right. reflexivity.
Defined.

(** C5, as stated, fails: an attempt whose output reports neither the
    missing category nor a success is followed by the delay and by a second
    attempt, like one that reports the missing category. *)
Lemma other_failures_are_retried_too :
  reportsCategoryNotFound commandFailed = false
  /\ reportsSuccess commandFailed = false
  /\ traceOf (uploadReferenceDocsWithMaxNumberOfAttempts offline
                (JString "v2018-08-01-piotr-123") 2 5000 start)
     = [ Log Green "UPLOADING REFERENCE DOC FILES...";
         Exec "rdme docs ./docs/reference-docs --version=v2018-08-01-piotr-123";
         Sleep 5000;
         Exec "rdme docs ./docs/reference-docs --version=v2018-08-01-piotr-123" ].
Proof. repeat split. Qed.

Lemma two_attempts_then_failure_witness :
  outcomeOf (uploadReferenceDocsWithMaxNumberOfAttempts offline
               (JString "v2018-08-01-piotr-123") 2 5000 start)
  = Throw (Error "REFERENCE DOC WERE NOT UPLOADED!")
  /\ length (execs (traceOf (uploadReferenceDocsWithMaxNumberOfAttempts offline
                               (JString "v2018-08-01-piotr-123") 2 5000 start))) = 2.
Proof.
  destruct (two_attempts_then_failure offline
              (JString "v2018-08-01-piotr-123") 5000 start) as [Ho [_ Hn]].
  - intros n command. reflexivity.
  - split; [exact Ho | exact Hn].
Defined.

Lemma third_attempt_succeeds_witness :
  outcomeOf (uploadReferenceDocsWithMaxNumberOfAttempts (remote [introduction] 2)
               (JString "v2018-08-01-piotr-123") 3 5000 start)
  = Done tt
  /\ sleeps (traceOf (uploadReferenceDocsWithMaxNumberOfAttempts
                        (remote [introduction] 2)
                        (JString "v2018-08-01-piotr-123") 3 5000 start))
     = [5000%Z; 5000%Z].
Proof.
  destruct (third_attempt_succeeds (remote [introduction] 2)
              (JString "v2018-08-01-piotr-123") 5000 start) as [Ho [_ [_ Hs]]];
    try reflexivity.
  split; [exact Ho | exact Hs].
Defined.

(* ===================================================================== *)
(** ** Sequencing and observations *)
(* ===================================================================== *)

Lemma bind_done {A B} (m : Script A) (k : A -> Script B) (c : Cursor) (a : A) :
  outcomeOf (m c) = Done a ->
  traceOf (bind m k c)
  = (traceOf (m c) ++ traceOf (k a (cursorOf (m c))))%list
  /\ outcomeOf (bind m k c) = outcomeOf (k a (cursorOf (m c))).
Proof.
  change (bind m k c) with ((x <- m ;; k x) c).
  rewrite bind_run. destruct (m c) as [[c1 t1] o]. cbn [outcomeOf snd].
  intros ->. cbn [cursorOf traceOf fst snd].
  destruct (k a c1) as [[c2 t2] o2]. split; reflexivity.
Qed.

Lemma bind_throw {A B} (m : Script A) (k : A -> Script B) (c : Cursor) (e : JsError) :
  outcomeOf (m c) = Throw e ->
  traceOf (bind m k c) = traceOf (m c)
  /\ outcomeOf (bind m k c) = Throw e.
Proof.
  change (bind m k c) with ((x <- m ;; k x) c).
  rewrite bind_run. destruct (m c) as [[c1 t1] o]. cbn [outcomeOf snd].
  intros ->. split; reflexivity.
Qed.

Lemma bind_uncaught {A B} (m : Script A) (k : A -> Script B) (c : Cursor) (e : JsError) :
  outcomeOf (m c) = Uncaught e ->
  traceOf (bind m k c) = traceOf (m c)
  /\ outcomeOf (bind m k c) = Uncaught e.
Proof.
  change (bind m k c) with ((x <- m ;; k x) c).
  rewrite bind_run. destruct (m c) as [[c1 t1] o]. cbn [outcomeOf snd].
  intros ->. split; reflexivity.
Qed.

(** The three ways [m ;; k] can go, [m] being run first. *)
Ltac sequence m k c :=
  let a := fresh "a" in
  let e := fresh "e" in
  let Ho := fresh "Ho" in
  let Ht := fresh "Ht" in
  let Hr := fresh "Hr" in
  destruct (outcomeOf (m c)) as [a | e | e] eqn:Ho;
  [ destruct (bind_done m k c a Ho) as [Ht Hr]
  | destruct (bind_throw m k c e Ho) as [Ht Hr]
  | destruct (bind_uncaught m k c e Ho) as [Ht Hr] ].

Lemma creationEvents_additive : Additive creationEvents.
Proof. split; [reflexivity | intros; apply filter_app]. Qed.

Lemma listings_additive : Additive listings.
Proof. split; [reflexivity | intros; apply flat_map_app]. Qed.

Lemma kindUpdates_additive : Additive kindUpdates.
Proof. split; [reflexivity | intros; apply flat_map_app]. Qed.

Create HintDb script.

#[local] Hint Resolve creationEvents_additive listings_additive
  kindUpdates_additive : script.

Lemma silent_bind {X A B} (obs : list Event -> list X)
  (m : Script A) (k : A -> Script B) :
  Additive obs -> Silent obs m -> (forall a, Silent obs (k a)) ->
  Silent obs (bind m k).
Proof.
  intros [_ Hadd] Hm Hk c.
  sequence m k c; rewrite Ht; [ | apply Hm | apply Hm ].
  rewrite Hadd, Hm, Hk. reflexivity.
Qed.

Lemma silent_log {X} (obs : list Event -> list X) (color : Color) (text : string) :
  Additive obs -> obs [Log color text] = [] -> Silent obs (log color text).
Proof. intros _ H c. exact H. Qed.

(** An additive observation that sees nothing in any event of a trace sees
    nothing in the trace. *)
Lemma observes_nothing {X} (obs : list Event -> list X) (tr : list Event) :
  Additive obs -> Forall (fun e => obs [e] = []) tr -> obs tr = [].
Proof.
  intros [Hnil Hadd]. induction 1 as [ | e tr He _ IH]; [exact Hnil | ].
  change (e :: tr) with ([e] ++ tr)%list. rewrite Hadd, He, IH. reflexivity.
Qed.

(* ===================================================================== *)
(** ** Planned calls, mapped and awaited together *)
(* ===================================================================== *)

Section PlannedCalls.

Variable env : Environment.

Lemma advance_0 (c : Cursor) : advance 0 c = c.
Proof. destruct c; reflexivity. Qed.

Lemma advance_S (n : nat) (c : Cursor) : advance n (advance 1 c) = advance (S n) c.
Proof. unfold advance. cbn [fetched spawned]. f_equal. lia. Qed.

Lemma call_planned (plan : JsError + Request) (c : Cursor) :
  call (plannedCall env plan) c =
  match plan with
  | inl e => (c, [], Done (RejectedPromise e))
  | inr req =>
      (advance 1 c, [Fetch req],
       Done (Pending (bindS (settled req (http env (fetched c) req))
                            (fun _ => ret tt))))
  end.
Proof. destruct plan; reflexivity. Qed.

Lemma mapCalls_planned {A} (g : A -> JsError + Request) (l : list A) (c : Cursor) :
  mapCalls (fun x => plannedCall env (g x)) l c =
  (advance (length (requestsOf (map g l))) c,
   map Fetch (requestsOf (map g l)),
   Done (promisesOf env (fetched c) (map g l))).
Proof.
  revert c. induction l as [ | x l IH]; intros c.
  - cbn. rewrite advance_0. reflexivity.
  - cbn [mapCalls map]. rewrite bind_run, call_planned.
    destruct (g x) as [e | req]; rewrite bind_run, IH;
      cbn [requestsOf promisesOf ret Monad_Script retS];
      rewrite app_nil_r; cbn [app].
    + reflexivity.
    + cbn [length map fetched advance]. rewrite advance_S. reflexivity.
Qed.

Lemma firstRejected_promisesOf (n : nat) (plans : list (JsError + Request)) :
  firstRejected (promisesOf env n plans) = firstError plans.
Proof.
  revert n. induction plans as [ | [e | req] plans IH]; intros n; cbn; auto.
Qed.

Lemma pending_run (req : Request) (answer : FetchResult) (c : Cursor) :
  bindS (settled req answer) (fun _ => ret tt) c =
  (c, [Settled req answer],
   match answer with
   | Rejected e => Throw e
   | Responded _ => Done tt
   end).
Proof. destruct answer; reflexivity. Qed.

(** Awaiting the promises of requests that were all sent only adds
    settlements of these requests; it ends well or with a rejection. *)
Lemma awaitAll_promisesOf (n : nat) (plans : list (JsError + Request)) (c : Cursor) :
  firstError plans = None ->
  Forall (fun e => exists req answer,
                     e = Settled req answer /\ In req (requestsOf plans))
         (traceOf (awaitAll (promisesOf env n plans) c))
  /\ forall e, outcomeOf (awaitAll (promisesOf env n plans) c) <> Uncaught e.
Proof.
  revert n c. induction plans as [ | [e | req] plans IH]; intros n c Hnone.
  - cbn. split; [constructor | discriminate].
  - discriminate Hnone.
  - cbn [promisesOf awaitAll firstError requestsOf] in *.
    rewrite bind_run, pending_run.
    destruct (http env n req) as [e | r].
    + split; [ | intros e' H; discriminate H].
      repeat constructor. exists req, (Rejected e). split; [reflexivity | left; reflexivity].
    + rewrite bind_run.
      destruct (IH (S n) c Hnone) as [Htr Hun].
      destruct (awaitAll (promisesOf env (S n) plans) c) as [[c2 t2] [xs | e | e]];
        cbn [traceOf outcomeOf fst snd app] in *.
      * split; [ | intros e' H; discriminate H].
        constructor.
        { exists req, (Responded r). split; [reflexivity | left; reflexivity]. }
        rewrite app_nil_r. eapply Forall_impl; [ | exact Htr].
        intros ev (q & a & -> & Hin). exists q, a. split; [reflexivity | right; exact Hin].
      * split; [ | intros e' H; discriminate H].
        constructor.
        { exists req, (Responded r). split; [reflexivity | left; reflexivity]. }
        eapply Forall_impl; [ | exact Htr].
        intros ev (q & a & -> & Hin). exists q, a. split; [reflexivity | right; exact Hin].
      * exfalso. exact (Hun e eq_refl).
Qed.

(** [asyncMap] over planned calls: the requests leave first, in the order
    of the array; then come settlements, none if one of the calls threw. *)
Lemma asyncMap_planned {A} (g : A -> JsError + Request) (l : list A) (c : Cursor) :
  exists settlements,
    traceOf (asyncMap l (fun x => plannedCall env (g x)) c)
    = (map Fetch (requestsOf (map g l)) ++ settlements)%list
    /\ Forall (fun e => exists req answer,
                          e = Settled req answer
                          /\ In req (requestsOf (map g l))) settlements
    /\ (forall e, firstError (map g l) = Some e ->
                  outcomeOf (asyncMap l (fun x => plannedCall env (g x)) c) = Throw e)
    /\ (forall xs, outcomeOf (asyncMap l (fun x => plannedCall env (g x)) c) = Done xs ->
                   firstError (map g l) = None).
Proof.
  unfold asyncMap. rewrite bind_run, mapCalls_planned.
  unfold promiseAll. rewrite firstRejected_promisesOf.
  destruct (firstError (map g l)) as [e | ] eqn:Hfirst.
  - exists []. cbn [raise Exception_Script throwS traceOf outcomeOf fst snd].
    repeat split; [constructor | congruence | discriminate].
  - destruct (awaitAll_promisesOf (fetched c) (map g l)
                (advance (length (requestsOf (map g l))) c) Hfirst) as [Htr _].
    destruct (awaitAll _ _) as [[c2 t2] o]. cbn [traceOf outcomeOf fst snd] in *.
    exists t2. repeat split; [exact Htr | discriminate].
Qed.

Lemma mapCalls_ext {A B} (f g : A -> Async B) (l : list A) :
  (forall x, f x = g x) -> mapCalls f l = mapCalls g l.
Proof.
  intros H. induction l as [ | x l IH]; [reflexivity | ].
  cbn [mapCalls]. rewrite H, IH. reflexivity.
Qed.

Lemma updateReferenceCategory_planned (version : JsVal) (allCategories : Json)
  (categoryTitle : string) :
  updateReferenceCategory env version allCategories categoryTitle
  = plannedCall env (updatePlan env version allCategories categoryTitle).
Proof.
  unfold updateReferenceCategory, updatePlan.
  destruct allCategories as [items | | ]; try reflexivity.
  destruct (findByTitle categoryTitle items); reflexivity.
Qed.

End PlannedCalls.

(* ===================================================================== *)
(** ** The steps of [cleanProject] *)
(* ===================================================================== *)

Section CleanProject.

Variable env : Environment.
Variable version : JsVal.

Lemma in_requestsOf_map {A} (g : A -> JsError + Request) (l : list A) (req : Request) :
  In req (requestsOf (map g l)) -> exists x, In x l /\ g x = inr req.
Proof.
  induction l as [ | x l IH]; cbn [map requestsOf]; [intros [] | ].
  destruct (g x) as [e | q] eqn:Hg.
  - intros H. destruct (IH H) as (y & Hy & Hgy). exists y. split; [right | ]; assumption.
  - intros [<- | H].
    + exists x. split; [left; reflexivity | exact Hg].
    + destruct (IH H) as (y & Hy & Hgy). exists y. split; [right | ]; assumption.
Qed.

(** [asyncMap] over planned calls is silent for an observation that sees
    nothing in the requests of the plans. *)
Lemma asyncMap_planned_silent {X A} (obs : list Event -> list X)
  (g : A -> JsError + Request) (l : list A) :
  Additive obs ->
  (forall x req, g x = inr req ->
                 obs [Fetch req] = [] /\ forall answer, obs [Settled req answer] = []) ->
  Silent obs (asyncMap l (fun x => plannedCall env (g x))).
Proof.
  intros Hobs Hg c.
  destruct (asyncMap_planned env g l c) as (settlements & Htr & Hset & _).
  rewrite Htr. apply observes_nothing; [exact Hobs | ].
  apply Forall_app. split.
  - apply Forall_map, Forall_forall. intros req Hin.
    destruct (in_requestsOf_map g l req Hin) as (x & _ & Hx).
    exact (proj1 (Hg x req Hx)).
  - eapply Forall_impl; [ | exact Hset].
    intros e (req & answer & -> & Hin).
    destruct (in_requestsOf_map g l req Hin) as (x & _ & Hx).
    exact (proj2 (Hg x req Hx) answer).
Qed.

Lemma silent_throw {X A} (obs : list Event -> list X) (e : JsError) :
  Additive obs -> Silent obs (raise e : Script A).
Proof. intros [Hnil _] c. exact Hnil. Qed.

Lemma silent_ret {X A} (obs : list Event -> list X) (a : A) :
  Additive obs -> Silent obs (ret a : Script A).
Proof. intros [Hnil _] c. exact Hnil. Qed.

(** *** The listings *)

Lemma getAllCategories_run (c : Cursor) :
  getAllCategories env version c =
  let req := getAllCategoriesRequest env version in
  let answer := http env (fetched c) req in
  (advance 1 c,
   [Fetch req; Settled req answer],
   match answer with
   | Rejected e => Throw e
   | Responded r =>
       match payload r with
       | BodyJson j => Done j
       | BodyNotJson e => Throw e
       end
   end).
Proof.
  unfold getAllCategories, await, readJson. cbv zeta.
  rewrite bind_run. unfold bindS, fetch, settled.
  destruct (http env (fetched c) _) as [e | r]; [reflexivity | ].
  destruct (payload r); reflexivity.
Qed.

(** A listing is observed exactly when [getAllCategories] returns it. *)
Lemma getAllCategories_listings (c : Cursor) :
  listings (traceOf (getAllCategories env version c))
  = match outcomeOf (getAllCategories env version c) with
    | Done j => [j]
    | _ => []
    end.
Proof.
  rewrite getAllCategories_run. cbv zeta. cbn [traceOf outcomeOf fst snd].
  unfold listings. cbn [flat_map listingOf app].
  change (isListing (getAllCategoriesRequest env version)) with true. cbv iota.
  destruct (http env (fetched c) _) as [e | r]; [reflexivity | ].
  destruct (payload r); reflexivity.
Qed.

Lemma getAllCategories_creates_nothing :
  Silent creationEvents (getAllCategories env version).
Proof. intros c. rewrite getAllCategories_run. reflexivity. Qed.

Lemma getAllCategories_updates_nothing :
  Silent kindUpdates (getAllCategories env version).
Proof. intros c. rewrite getAllCategories_run. reflexivity. Qed.

Lemma getAllApiSpecifications_run (c : Cursor) :
  getAllApiSpecifications env version c =
  let req := getAllApiSpecificationsRequest env version in
  let answer := http env (fetched c) req in
  (advance 1 c,
   [Fetch req; Settled req answer],
   match answer with
   | Rejected e => Throw e
   | Responded r =>
       match payload r with
       | BodyJson j => Done j
       | BodyNotJson e => Throw e
       end
   end).
Proof.
  unfold getAllApiSpecifications, await, readJson. cbv zeta.
  rewrite bind_run. unfold bindS, fetch, settled.
  destruct (http env (fetched c) _) as [e | r]; [reflexivity | ].
  destruct (payload r); reflexivity.
Qed.

Lemma getAllApiSpecifications_silent :
  Silent creationEvents (getAllApiSpecifications env version)
  /\ Silent listings (getAllApiSpecifications env version)
  /\ Silent kindUpdates (getAllApiSpecifications env version).
Proof.
  repeat split; intros c; rewrite getAllApiSpecifications_run; cbv zeta;
    cbn [traceOf fst snd]; try reflexivity.
  unfold listings. cbn [flat_map listingOf app].
  change (isListing (getAllApiSpecificationsRequest env version)) with false.
  destruct (http env (fetched c) _); reflexivity.
Qed.

(** *** The deletions *)

Lemma deleteCategories_silent (categoriesToDelete : Json) :
  Silent creationEvents
    (asyncMapJson categoriesToDelete
       (fun category => deleteCategory env version (slug category)))
  /\ Silent listings
       (asyncMapJson categoriesToDelete
          (fun category => deleteCategory env version (slug category)))
  /\ Silent kindUpdates
       (asyncMapJson categoriesToDelete
          (fun category => deleteCategory env version (slug category))).
Proof.
  destruct categoriesToDelete as [items | | ]; cbn [asyncMapJson];
    repeat split; try (apply silent_throw; auto with script);
    apply (asyncMap_planned_silent _
             (fun category => inr (deleteCategoryRequest env version (slug category))));
    auto with script;
    intros x req [= <-]; (split; [reflexivity | intros [e | r]; reflexivity]).
Qed.

Lemma deleteSpecifications_silent (allApiSpecifications : Json) :
  Silent creationEvents
    (asyncMapJson allApiSpecifications (deleteSpecification env))
  /\ Silent listings
       (asyncMapJson allApiSpecifications (deleteSpecification env))
  /\ Silent kindUpdates
       (asyncMapJson allApiSpecifications (deleteSpecification env)).
Proof.
  destruct allApiSpecifications as [items | | ]; cbn [asyncMapJson];
    repeat split; try (apply silent_throw; auto with script);
    apply (asyncMap_planned_silent _
             (fun id => inr (deleteSpecificationRequest env id)));
    auto with script;
    intros x req [= <-]; (split; [reflexivity | intros [e | r]; reflexivity]).
Qed.

(** *** The creations *)

Lemma createCategory_run (categoryTitle : string) (c : Cursor) :
  await (createCategory env version categoryTitle) c =
  let req := createCategoryRequest env version categoryTitle in
  let answer := http env (fetched c) req in
  (advance 1 c,
   [Fetch req; Settled req answer],
   match answer with
   | Rejected e => Throw e
   | Responded _ => Done tt
   end).
Proof.
  unfold await, createCategory, andThen, bindS, fetch, retS, settled. cbv zeta.
  destruct (http env (fetched c) _); reflexivity.
Qed.

(** The loop sends one request per title, each after the previous one has
    settled, and stops at the first rejection. *)
Lemma forOf_createCategory (titles : list string) (c : Cursor) :
  exists created todo,
    OneByOne env version created
      (traceOf (forOf titles
                  (fun categoryTitle => await (createCategory env version categoryTitle)) c))
    /\ titles = (created ++ todo)%list
    /\ (forall a,
          outcomeOf (forOf titles
                       (fun categoryTitle =>
                          await (createCategory env version categoryTitle)) c) = Done a ->
          todo = []).
Proof.
  revert c. induction titles as [ | t titles IH]; intros c.
  - exists [], []. repeat split. constructor.
  - cbn [forOf]. rewrite bind_run, createCategory_run. cbv zeta.
    destruct (http env (fetched c) _) as [e | r].
    + exists [t], titles. repeat split.
      * repeat constructor.
      * intros a H. discriminate H.
    + destruct (IH (advance 1 c)) as (created & todo & Hone & Heq & Hdone).
      destruct (forOf titles _ (advance 1 c)) as [[c2 t2] o].
      cbn [traceOf outcomeOf fst snd app] in *.
      exists (t :: created), todo. repeat split.
      * constructor. exact Hone.
      * rewrite Heq. reflexivity.
      * exact Hdone.
Qed.

Lemma OneByOne_observed (created : list string) (tr : list Event) :
  OneByOne env version created tr ->
  creationEvents tr = tr /\ listings tr = [] /\ kindUpdates tr = [].
Proof.
  induction 1 as [ | t answer created tr _ (IH1 & IH2 & IH3)];
    [repeat split | ].
  unfold creationEvents, listings, kindUpdates in *.
  cbn [filter flat_map aboutCreation listingOf kindUpdateOf].
  assert (Hc : isCreate (createCategoryRequest env version t) = true)
    by apply String.eqb_refl.
  rewrite Hc, IH1, IH3.
  repeat split.
  destruct answer as [e | r]; [exact IH2 | ].
  change (isListing (createCategoryRequest env version t)) with false.
  exact IH2.
Qed.

Lemma createCategories_in_order (titles : list string) :
  CreatesInOrder env version titles
    (forOf titles
       (fun categoryTitle => await (createCategory env version categoryTitle))).
Proof.
  intros c. destruct (forOf_createCategory titles c) as (created & todo & H1 & H2 & H3).
  exists created, todo. repeat split; try assumption.
  rewrite (proj1 (OneByOne_observed created _ H1)). exact H1.
Qed.

Lemma createCategories_silent (titles : list string) :
  Silent listings
    (forOf titles
       (fun categoryTitle => await (createCategory env version categoryTitle)))
  /\ Silent kindUpdates
       (forOf titles
          (fun categoryTitle => await (createCategory env version categoryTitle))).
Proof.
  split; intros c;
    destruct (forOf_createCategory titles c) as (created & todo & H1 & _);
    apply (OneByOne_observed created _ H1).
Qed.

(** *** Silence and ordered creation through sequencing *)

Lemma silent_then_creates {A B} (titles : list string)
  (m : Script A) (k : A -> Script B) :
  Silent creationEvents m ->
  (forall a, CreatesInOrder env version titles (k a)) ->
  CreatesInOrder env version titles (bind m k).
Proof.
  intros Hm Hk c. sequence m k c; rewrite Ht, Hr.
  - destruct (Hk a (cursorOf (m c))) as (created & todo & H1 & H2 & H3).
    exists created, todo. repeat split; try assumption.
    rewrite (proj2 creationEvents_additive), Hm. exact H1.
  - exists [], titles. rewrite Hm. repeat split; [constructor | discriminate].
  - exists [], titles. rewrite Hm. repeat split; [constructor | discriminate].
Qed.

Lemma creates_then_silent {A B} (titles : list string)
  (m : Script A) (k : A -> Script B) :
  CreatesInOrder env version titles m ->
  (forall a, Silent creationEvents (k a)) ->
  CreatesInOrder env version titles (bind m k).
Proof.
  intros Hm Hk c. destruct (Hm c) as (created & todo & H1 & H2 & H3).
  sequence m k c; rewrite Ht, Hr.
  - exists created, todo. repeat split; try assumption.
    + rewrite (proj2 creationEvents_additive), Hk, app_nil_r. exact H1.
    + intros _ _. exact (H3 a eq_refl).
  - exists created, todo. repeat split; try assumption. discriminate.
  - exists created, todo. repeat split; try assumption. discriminate.
Qed.

(** *** Following a run up to a given point *)

(** A run that ends well went through both halves of a sequence. *)
Lemma done_step {A B} (m : Script A) (k : A -> Script B) (c : Cursor) (b : B) :
  outcomeOf (bind m k c) = Done b ->
  exists a,
    outcomeOf (m c) = Done a
    /\ outcomeOf (k a (cursorOf (m c))) = Done b
    /\ traceOf (bind m k c)
       = (traceOf (m c) ++ traceOf (k a (cursorOf (m c))))%list.
Proof.
  intros H. sequence m k c; rewrite Hr in H; try discriminate H.
  exists a. repeat split; assumption.
Qed.

(** A listing seen after a step that reads none was read by what follows,
    which then decides the outcome and the updates. *)
Lemma silent_step {A B} (m : Script A) (k : A -> Script B) (c : Cursor)
  (seen : list Json) :
  Silent listings m -> Silent kindUpdates m ->
  listings (traceOf (bind m k c)) = seen -> seen <> [] ->
  exists a c',
    listings (traceOf (k a c')) = seen
    /\ kindUpdates (traceOf (bind m k c)) = kindUpdates (traceOf (k a c'))
    /\ outcomeOf (bind m k c) = outcomeOf (k a c').
Proof.
  intros Hl Hu H Hseen. sequence m k c; rewrite Ht in *.
  - exists a, (cursorOf (m c)).
    rewrite (proj2 listings_additive), Hl in H.
    rewrite (proj2 kindUpdates_additive), Hu.
    repeat split; assumption.
  - rewrite Hl in H. congruence.
  - rewrite Hl in H. congruence.
Qed.

(** The first listing seen is the one [getAllCategories] returned. *)
Lemma listing_step {B} (k : Json -> Script B) (c : Cursor)
  (j : Json) (seen : list Json) :
  listings (traceOf (bind (getAllCategories env version) k c)) = j :: seen ->
  exists c',
    listings (traceOf (k j c')) = seen
    /\ kindUpdates (traceOf (bind (getAllCategories env version) k c))
       = kindUpdates (traceOf (k j c'))
    /\ outcomeOf (bind (getAllCategories env version) k c) = outcomeOf (k j c').
Proof.
  intros H. pose proof (getAllCategories_listings c) as Hg.
  sequence (getAllCategories env version) k c; rewrite Ht in *.
  - rewrite (proj2 listings_additive), Hg in H. injection H as -> H.
    exists (cursorOf (getAllCategories env version c)).
    rewrite (proj2 kindUpdates_additive), getAllCategories_updates_nothing.
    repeat split; assumption.
  - rewrite Hg in H. discriminate H.
  - rewrite Hg in H. discriminate H.
Qed.

(** *** The updates of the reference categories *)

Lemma asyncMap_updates (allCategories : Json) (titles : list string) :
  asyncMap titles (updateReferenceCategory env version allCategories)
  = asyncMap titles (fun t => plannedCall env (updatePlan env version allCategories t)).
Proof.
  unfold asyncMap. f_equal. apply mapCalls_ext.
  intros t. apply updateReferenceCategory_planned.
Qed.

Lemma updatePlan_request (allCategories : Json) (t : string) (req : Request) :
  updatePlan env version allCategories t = inr req ->
  exists category, req = updateCategoryRequest env version (slug category) kindReference.
Proof.
  unfold updatePlan. destruct allCategories as [items | | ]; try discriminate.
  destruct (findByTitle t items) as [category | ]; [ | discriminate].
  intros [= <-]. exists category. reflexivity.
Qed.

Lemma kindUpdates_of_updates (allCategories : Json) (titles : list string) :
  kindUpdates (map Fetch (requestsOf (map (updatePlan env version allCategories) titles)))
  = requestsOf (map (updatePlan env version allCategories) titles).
Proof.
  induction titles as [ | t titles IH]; [reflexivity | ].
  cbn [map requestsOf].
  destruct (updatePlan env version allCategories t) as [e | req] eqn:Hplan; [exact IH | ].
  destruct (updatePlan_request _ _ _ Hplan) as [category ->].
  cbn [map]. unfold kindUpdates in *. cbn [flat_map kindUpdateOf].
  cbn [method updateCategoryRequest app]. rewrite IH. reflexivity.
Qed.

Lemma updates_observed (allCategories : Json) (c : Cursor) :
  creationEvents (traceOf (asyncMap listOfReferenceCategories
                     (updateReferenceCategory env version allCategories) c)) = []
  /\ listings (traceOf (asyncMap listOfReferenceCategories
                 (updateReferenceCategory env version allCategories) c)) = []
  /\ kindUpdates (traceOf (asyncMap listOfReferenceCategories
                    (updateReferenceCategory env version allCategories) c))
     = requestsOf (map (updatePlan env version allCategories)
                       listOfReferenceCategories).
Proof.
  rewrite asyncMap_updates. repeat split.
  - apply asyncMap_planned_silent; auto with script.
    intros t req Hplan. destruct (updatePlan_request _ _ _ Hplan) as [category ->].
    split; [reflexivity | intros [e | r]; reflexivity].
  - apply asyncMap_planned_silent; auto with script.
    intros t req Hplan. destruct (updatePlan_request _ _ _ Hplan) as [category ->].
    split; [reflexivity | intros [e | r]; reflexivity].
  - destruct (asyncMap_planned env (updatePlan env version allCategories)
                listOfReferenceCategories c) as (settlements & Htr & Hset & _).
    rewrite Htr, (proj2 kindUpdates_additive), kindUpdates_of_updates.
    rewrite (observes_nothing kindUpdates settlements); auto with script.
    + apply app_nil_r.
    + eapply Forall_impl; [ | exact Hset]. intros e (req & answer & -> & _). reflexivity.
Qed.

(** What follows the updates in [afterRefetch] adds nothing to the three
    observations. *)
Lemma afterUpdates_silent :
  let rest :=
    (log Green "REFERENCE CATEGORIES UPDATED!" ;;
     allApiSpecifications <- getAllApiSpecifications env version ;;
     asyncMapJson allApiSpecifications (deleteSpecification env) ;;
     log Green "API SPECIFICATIONS DELETED!" ;;
     log Green ("VERSION " ++ dq ++ toStr version ++ dq ++ " IS CLEANED UP!"))
    : Script unit in
  Silent creationEvents rest /\ Silent listings rest /\ Silent kindUpdates rest.
Proof.
  cbv zeta.
  destruct getAllApiSpecifications_silent as (G1 & G2 & G3).
  repeat split;
    (apply silent_bind; auto with script; [apply silent_log; auto with script | intros _ ]);
    (apply silent_bind; auto with script; intros specs);
    destruct (deleteSpecifications_silent specs) as (D1 & D2 & D3);
    (apply silent_bind; auto with script; intros _);
    (apply silent_bind; auto with script; [apply silent_log; auto with script | intros _ ]);
    apply silent_log; auto with script.
Qed.

Lemma afterRefetch_observed (allCategories : Json) (c : Cursor) :
  creationEvents (traceOf (afterRefetch env version allCategories c)) = []
  /\ listings (traceOf (afterRefetch env version allCategories c)) = []
  /\ kindUpdates (traceOf (afterRefetch env version allCategories c))
     = requestsOf (map (updatePlan env version allCategories)
                       listOfReferenceCategories).
Proof.
  destruct (updates_observed allCategories c) as (U1 & U2 & U3).
  destruct afterUpdates_silent as (R1 & R2 & R3).
  unfold afterRefetch.
  match goal with
  | |- context [bind ?m ?k c] => sequence m k c; rewrite Ht
  end;
    rewrite ?(proj2 creationEvents_additive), ?(proj2 listings_additive),
      ?(proj2 kindUpdates_additive), ?U1, ?U2, ?U3, ?R1, ?R2, ?R3, ?app_nil_r;
    repeat split.
Qed.

Lemma afterRefetch_throws (allCategories : Json) (c : Cursor) (e : JsError) :
  firstError (map (updatePlan env version allCategories) listOfReferenceCategories)
  = Some e ->
  outcomeOf (afterRefetch env version allCategories c) = Throw e.
Proof.
  intros Hfirst.
  destruct (asyncMap_planned env (updatePlan env version allCategories)
              listOfReferenceCategories c) as (_ & _ & _ & Hthrow & _).
  rewrite <- asyncMap_updates in Hthrow.
  unfold afterRefetch.
  match goal with
  | |- context [bind ?m ?k c] => apply (bind_throw m k c e (Hthrow e Hfirst))
  end.
Qed.

Lemma afterRefetch_done (allCategories : Json) (c : Cursor) (a : unit) :
  outcomeOf (afterRefetch env version allCategories c) = Done a ->
  firstError (map (updatePlan env version allCategories) listOfReferenceCategories)
  = None.
Proof.
  unfold afterRefetch. intros H.
  apply done_step in H as (xs & Hdone & _).
  rewrite asyncMap_updates in Hdone.
  destruct (asyncMap_planned env (updatePlan env version allCategories)
              listOfReferenceCategories c) as (_ & _ & _ & _ & Hnone).
  exact (Hnone xs Hdone).
Qed.

(** *** Look-ups by title *)

Lemma found_all (items : list ApiObject) (titles : list string) :
  (forall t, In t titles -> findByTitle t items <> None) ->
  exists found,
    Forall2 (fun t category => findByTitle t items = Some category) titles found.
Proof.
  induction titles as [ | t titles IH]; intros H.
  - exists []. constructor.
  - destruct IH as [found Hfound]; [intros u Hu; apply H; right; exact Hu | ].
    destruct (findByTitle t items) as [category | ] eqn:Hfind.
    + exists (category :: found). constructor; assumption.
    + exfalso. apply (H t); [left; reflexivity | exact Hfind].
Qed.

Lemma plans_of_found (items : list ApiObject) (titles : list string)
  (found : list ApiObject) :
  Forall2 (fun t category => findByTitle t items = Some category) titles found ->
  requestsOf (map (updatePlan env version (JsonArray items)) titles)
  = map (fun category => updateCategoryRequest env version (slug category) kindReference)
        found.
Proof.
  induction 1 as [ | t category titles found Hfind _ IH]; [reflexivity | ].
  cbn [map requestsOf updatePlan]. rewrite Hfind. cbn [requestsOf]. rewrite IH.
  reflexivity.
Qed.

Lemma plans_missing (items : list ApiObject) (titles : list string) :
  (exists t, In t titles /\ findByTitle t items = None) ->
  firstError (map (updatePlan env version (JsonArray items)) titles)
  = Some lookupError.
Proof.
  induction titles as [ | t titles IH]; intros (u & Hin & Hnone); [destruct Hin | ].
  cbn [map firstError updatePlan].
  destruct (findByTitle t items) as [category | ] eqn:Hfind; [ | reflexivity].
  cbn [firstError]. apply IH. exists u. split; [ | exact Hnone].
  destruct Hin as [-> | Hin]; [congruence | exact Hin].
Qed.

Lemma plans_without_error (allCategories : Json) (titles : list string) :
  firstError (map (updatePlan env version allCategories) titles) = None ->
  titles <> [] ->
  exists items,
    allCategories = JsonArray items
    /\ forall t, In t titles -> findByTitle t items <> None.
Proof.
  intros Hnone Hne.
  destruct allCategories as [items | | ].
  - exists items. split; [reflexivity | ].
    intros t Hin Hmiss.
    rewrite plans_missing in Hnone; [discriminate | ].
    exists t. split; assumption.
  - destruct titles; [contradiction | discriminate].
  - destruct titles; [contradiction | discriminate].
Qed.

Lemma found_is_reference (items : list ApiObject) (titles : list string)
  (found : list ApiObject) :
  Forall2 (fun t category => findByTitle t items = Some category) titles found ->
  Forall (fun category =>
            In category items /\ existsb (strictEq (title category)) titles = true)
         found.
Proof.
  induction 1 as [ | t category titles found Hfind _ IH]; constructor.
  - apply find_some in Hfind. destruct Hfind as [Hin Heq].
    split; [exact Hin | ]. cbn [existsb]. rewrite Heq. reflexivity.
  - eapply Forall_impl; [ | exact IH].
    intros x [Hin Hex]. split; [exact Hin | ].
    cbn [existsb]. rewrite Hex. apply orb_true_r.
Qed.

(** *** The whole of [cleanProject] *)

(** [afterRefetch] is the end of [cleanProject], word for word. *)
Lemma cleanProject_unfold :
  cleanProject env version =
  (categoriesToDelete <- getAllCategories env version ;;
   asyncMapJson categoriesToDelete
     (fun category => deleteCategory env version (slug category)) ;;
   log Green "OLD CATEGORIES DELETED!" ;;
   forOf (listOfGuideCategories ++ listOfReferenceCategories)%list
     (fun categoryTitle => await (createCategory env version categoryTitle)) ;;
   log Green "NEW CATEGORIES CREATED!" ;;
   allCategories <- getAllCategories env version ;;
   afterRefetch env version allCategories).
Proof. reflexivity. Qed.

Lemma cleanProject_CreatesInOrder :
  CreatesInOrder env version
    (listOfGuideCategories ++ listOfReferenceCategories)%list
    (cleanProject env version).
Proof.
  unfold cleanProject.
  apply silent_then_creates; [apply getAllCategories_creates_nothing | intros j].
  apply silent_then_creates; [apply deleteCategories_silent | intros _].
  apply silent_then_creates; [intros c; reflexivity | intros _].
  apply creates_then_silent; [apply createCategories_in_order | intros _].
  apply silent_bind; auto with script; [intros c; reflexivity | intros _].
  apply silent_bind; auto with script;
    [apply getAllCategories_creates_nothing | intros allCategories].
  intros c. apply (afterRefetch_observed allCategories c).
Qed.

(** When two listings were read, the run went on with the second of
    them. *)
Lemma cleanProject_after_refetch (c : Cursor) (d j : Json) :
  listings (traceOf (cleanProject env version c)) = [d; j] ->
  exists c',
    kindUpdates (traceOf (cleanProject env version c))
    = kindUpdates (traceOf (afterRefetch env version j c'))
    /\ outcomeOf (cleanProject env version c)
       = outcomeOf (afterRefetch env version j c').
Proof.
  unfold cleanProject. intros H.
  apply listing_step in H as (c1 & H & -> & ->).
  apply silent_step in H as (x2 & c2 & H & -> & ->);
    [ | apply deleteCategories_silent | apply deleteCategories_silent | discriminate].
  apply silent_step in H as (x3 & c3 & H & -> & ->);
    [ | intros c'; reflexivity | intros c'; reflexivity | discriminate].
  apply silent_step in H as (x4 & c4 & H & -> & ->);
    [ | apply createCategories_silent | apply createCategories_silent | discriminate].
  apply silent_step in H as (x5 & c5 & H & -> & ->);
    [ | intros c'; reflexivity | intros c'; reflexivity | discriminate].
  apply listing_step in H as (c6 & H & -> & ->).
  exists c6. split; reflexivity.
Qed.

(** A run that ends well has read two listings. *)
Lemma cleanProject_done_listings (c : Cursor) :
  outcomeOf (cleanProject env version c) = Done tt ->
  exists d j, listings (traceOf (cleanProject env version c)) = [d; j].
Proof.
  unfold cleanProject. intros H.
  apply done_step in H as (d & Ho1 & H & ->).
  apply done_step in H as (x2 & _ & H & ->).
  apply done_step in H as (x3 & _ & H & ->).
  apply done_step in H as (x4 & _ & H & ->).
  apply done_step in H as (x5 & _ & H & ->).
  apply done_step in H as (j & Ho6 & H & ->).
  exists d, j.
  rewrite !(proj2 listings_additive), !getAllCategories_listings, Ho1, Ho6.
  rewrite (proj1 (proj2 (deleteCategories_silent d))).
  rewrite (proj1 (createCategories_silent _)).
  match goal with
  | |- context [traceOf (?m ?cc)] =>
      change (m cc) with (afterRefetch env version j cc)
  end.
  rewrite (proj1 (proj2 (afterRefetch_observed j _))).
  reflexivity.
Qed.

(** C3. In every run of [cleanProject], the requests that create
    categories are sent one at a time, each after the previous one has
    settled, for the titles of the guide categories followed by those of
    the reference categories, in the order of the two lists; a run that is
    cut short has created the first titles only, a run that ends well all
    of them. *)
Theorem categories_are_created_in_order (c : Cursor) :
  exists created todo,
    OneByOne env version created
      (creationEvents (traceOf (cleanProject env version c)))
    /\ (listOfGuideCategories ++ listOfReferenceCategories)%list
       = (created ++ todo)%list
    /\ (outcomeOf (cleanProject env version c) = Done tt ->
        created = (listOfGuideCategories ++ listOfReferenceCategories)%list).
Proof.
  destruct (cleanProject_CreatesInOrder c) as (created & todo & H1 & H2 & H3).
  exists created, todo. repeat split; try assumption.
  intros Hdone. rewrite H2, (H3 tt Hdone), app_nil_r. reflexivity.
Qed.

(** C8, as the script has it.  When [cleanProject] ends well, the
    categories were listed twice and, for each title of the list of
    reference categories, the first category of the second listing that
    bears this title has been sent an update of its kind to [reference];
    these are all the updates: each goes to a listed category whose title
    is in the list. *)
Theorem reference_categories_are_updated (c : Cursor) :
  outcomeOf (cleanProject env version c) = Done tt ->
  exists d items found,
    listings (traceOf (cleanProject env version c)) = [d; JsonArray items]
    /\ Forall2 (fun t category => findByTitle t items = Some category)
               listOfReferenceCategories found
    /\ kindUpdates (traceOf (cleanProject env version c))
       = map (fun category =>
                updateCategoryRequest env version (slug category) kindReference)
             found
    /\ Forall (fun category =>
                 In category items /\ isReferenceCategory category = true)
              found.
Proof.
  intros Hdone.
  destruct (cleanProject_done_listings c Hdone) as (d & j & Hlist).
  destruct (cleanProject_after_refetch c d j Hlist) as (c' & Hupd & Hout).
  rewrite Hout in Hdone. apply afterRefetch_done in Hdone.
  destruct (plans_without_error j listOfReferenceCategories Hdone)
    as (items & -> & Hall); [discriminate | ].
  destruct (found_all items listOfReferenceCategories Hall) as [found Hfound].
  exists d, items, found. repeat split.
  - exact Hlist.
  - exact Hfound.
  - rewrite Hupd, (proj2 (proj2 (afterRefetch_observed _ _))).
    apply plans_of_found. exact Hfound.
  - apply (found_is_reference items listOfReferenceCategories found Hfound).
Qed.

(** C10. Once [cleanProject] has read the categories again: if every title
    of the list of reference categories is borne by a category of that
    second listing, every look-up finds a category and its update is sent;
    if a title is missing, [cleanProject] ends with the [TypeError] of
    reading [.slug] of [undefined]. *)
Theorem lookup_needs_every_reference_title (c : Cursor) (d : Json)
  (items : list ApiObject) :
  listings (traceOf (cleanProject env version c)) = [d; JsonArray items] ->
  ((forall t, In t listOfReferenceCategories -> findByTitle t items <> None) ->
   exists found,
     Forall2 (fun t category => findByTitle t items = Some category)
             listOfReferenceCategories found
     /\ kindUpdates (traceOf (cleanProject env version c))
        = map (fun category =>
                 updateCategoryRequest env version (slug category) kindReference)
              found)
  /\ ((exists t, In t listOfReferenceCategories /\ findByTitle t items = None) ->
      outcomeOf (cleanProject env version c) = Throw lookupError).
Proof.
  intros Hlist.
  destruct (cleanProject_after_refetch c d _ Hlist) as (c' & Hupd & Hout).
  split.
  - intros Hall.
    destruct (found_all items listOfReferenceCategories Hall) as [found Hfound].
    exists found. split; [exact Hfound | ].
    rewrite Hupd, (proj2 (proj2 (afterRefetch_observed _ _))).
    apply plans_of_found. exact Hfound.
  - intros Hmissing. rewrite Hout.
    apply afterRefetch_throws, plans_missing. exact Hmissing.
Qed.

End CleanProject.

Lemma categories_are_created_in_order_witness :
  OneByOne (remote [introduction; more] 0) (JString "v2018-08-01-piotr-123")
    (listOfGuideCategories ++ listOfReferenceCategories)%list
    (creationEvents
       (traceOf (cleanProject (remote [introduction; more] 0)
                   (JString "v2018-08-01-piotr-123") start))).
Proof.
  destruct (categories_are_created_in_order (remote [introduction; more] 0)
              (JString "v2018-08-01-piotr-123") start)
    as (created & todo & H1 & _ & H3).
  rewrite <- H3; [exact H1 | reflexivity].
Defined.

Lemma reference_categories_are_updated_witness :
  exists d items found,
    listings (traceOf (cleanProject (remote [introduction; more] 0)
                         (JString "v2018-08-01-piotr-123") start))
    = [d; JsonArray items]
    /\ Forall2 (fun t category => findByTitle t items = Some category)
               listOfReferenceCategories found
    /\ kindUpdates (traceOf (cleanProject (remote [introduction; more] 0)
                               (JString "v2018-08-01-piotr-123") start))
       = map (fun category =>
                updateCategoryRequest (remote [introduction; more] 0)
                  (JString "v2018-08-01-piotr-123") (slug category) kindReference)
             found
    /\ Forall (fun category =>
                 In category items /\ isReferenceCategory category = true)
              found.
Proof.
  apply (reference_categories_are_updated (remote [introduction; more] 0)
           (JString "v2018-08-01-piotr-123") start).
  reflexivity.
Defined.

(** C8, as stated, fails: when the second listing has two categories
    entitled [Introduction], [cleanProject] ends well and only the first of
    them is sent an update. *)
Lemma second_category_of_same_title_is_left_alone :
  let env := remote [introduction; introductionAgain; more] 0 in
  let version := JString "v2018-08-01-piotr-123" in
  outcomeOf (cleanProject env version start) = Done tt
  /\ listings (traceOf (cleanProject env version start))
     = [ JsonArray [introduction; introductionAgain; more];
         JsonArray [introduction; introductionAgain; more] ]
  /\ isReferenceCategory introductionAgain = true
  /\ kindUpdates (traceOf (cleanProject env version start))
     = [updateCategoryRequest env version (slug introduction) kindReference]
  /\ ~ In (updateCategoryRequest env version (slug introductionAgain) kindReference)
          (kindUpdates (traceOf (cleanProject env version start))).
Proof.
  cbv zeta. repeat split.
  intros [H | []]. discriminate H.
Qed.

Lemma lookup_needs_every_reference_title_witness :
  (exists found,
     Forall2 (fun t category => findByTitle t [introduction; more] = Some category)
             listOfReferenceCategories found
     /\ kindUpdates (traceOf (cleanProject (remote [introduction; more] 0)
                                (JString "v2018-08-01-piotr-123") start))
        = map (fun category =>
                 updateCategoryRequest (remote [introduction; more] 0)
                   (JString "v2018-08-01-piotr-123") (slug category) kindReference)
              found)
  /\ outcomeOf (cleanProject (remote [more] 0) (JString "v2018-08-01-piotr-123") start)
     = Throw lookupError.
Proof.
  split.
  - apply (proj1 (lookup_needs_every_reference_title (remote [introduction; more] 0)
                    (JString "v2018-08-01-piotr-123") start
                    (JsonArray [introduction; more]) [introduction; more] eq_refl)).
    intros t [<- | []]. discriminate.
  - apply (proj2 (lookup_needs_every_reference_title (remote [more] 0)
                    (JString "v2018-08-01-piotr-123") start
                    (JsonArray [more]) [more] eq_refl)).
    exists "Introduction". split; [left; reflexivity | reflexivity].
Defined.

(* ===================================================================== *)
(** ** Whole runs *)
(* ===================================================================== *)

(** [--vt=piotr-123 --update] against a remote on which the reference docs
    only go through at the third attempt: no fork, sixteen requests, seven
    child processes, two delays and the closing message. *)
Example update_run_completes :
  let r := run (remote [introduction; more] 6) taggedVersion start in
  outcomeOf r = Done tt
  /\ cursorOf r = mkCursor 16 7
  /\ sleeps (traceOf r) = [5000%Z; 5000%Z]
  /\ last (traceOf r) (Log Red EmptyString)
     = Log Green (nl ++ nl ++ "DONE!" ++ nl
                  ++ "Visit: https://docs.voucherify.io/v2018-08-01-piotr-123/").
Proof. cbv zeta. repeat split. Qed.

(** Without network the fork is asked for once, and the failure is
    reported and passed on. *)
Example create_run_offline :
  let r := run offline versionAndTag start in
  outcomeOf r = Throw (Error "TypeError: fetch failed")
  /\ last (traceOf r) (Log Green EmptyString)
     = Log Red "Error while creating fork from v2018-08-01!".
Proof. cbv zeta. repeat split. Qed.

(** The timeout of the upload of the OpenAPI file counts as a success. *)
Example upload_timeout_is_a_success :
  outcomeOf
    (uploadOpenApiFile
       {| authorization := authorization offline;
          http := http offline;
          shell := fun _ _ => timedOut |}
       (JString "v2018-08-01-piotr-123") start)
  = Done tt.
Proof. reflexivity. Qed.

(** A non-200 answer to the fork request. *)
Example fork_refused :
  outcomeOf
    (createNewVersion
       {| authorization := authorization offline;
          http := fun _ _ => Responded (mkResponse 400 (BodyJson JsonOther));
          shell := shell offline |}
       (JString "v2018-08-01-piotr-123") start)
  = Throw (Error ("Error: Response status: 400, "
                  ++ "maybe this versionTag is already created?")).
Proof. reflexivity. Qed.

(* ===================================================================== *)
(** ** The retry loop in general *)
(* ===================================================================== *)

Section Retry.

Variable env : Environment.
Variable version : JsVal.
Variable max delay : Z.

Lemma spawnMany_spawn (k : nat) (c : Cursor) :
  spawnMany k (spawn c) = spawnMany (S k) c.
Proof. unfold spawnMany, spawn. cbn [fetched spawned]. f_equal. lia. Qed.

(** The loop up to its first success. *)
Lemma uploadAttempts_first_success (k n : nat) (i : Z) (c : Cursor) :
  k < n ->
  (i + Z.of_nat k <= max)%Z ->
  (forall j, j < k ->
     referenceDocsUploaded
       (shell env (j + spawned c) (updateReferenceDocsCommand version)) = false) ->
  referenceDocsUploaded
    (shell env (k + spawned c) (updateReferenceDocsCommand version)) = true ->
  uploadAttempts env version max delay n i c
  = (spawnMany (S k) c,
     (failedAttempts version delay k
      ++ [ Exec (updateReferenceDocsCommand version);
           Log Green "REFERENCE DOC FILES WERE UPLOADED!" ])%list,
     Done tt).
Proof.
  revert n i c. induction k as [ | k IH]; intros n i c Hn Hi Hfail Hok.
  - destruct n as [ | n]; [lia | ].
    rewrite uploadAttempts_step. cbn [Nat.add] in Hok. rewrite Hok. reflexivity.
  - destruct n as [ | n]; [lia | ].
    rewrite uploadAttempts_step.
    assert (H0 := Hfail 0 ltac:(lia)); cbn [Nat.add] in H0; rewrite H0; clear H0.
    destruct (Z.eqb_spec i max) as [-> | _]; [lia | ].
    rewrite (IH n (i + 1)%Z (spawn c)).
    + rewrite spawnMany_spawn, failedAttempts_S. reflexivity.
    + lia.
    + lia.
    + intros j Hj. cbn [spawn spawned]. rewrite <- Nat.add_succ_comm.
      apply Hfail. lia.
    + cbn [spawn spawned]. rewrite <- Nat.add_succ_comm. exact Hok.
Qed.

(** The loop when nothing succeeds. *)
Lemma uploadAttempts_all_fail (n : nat) (i : Z) (c : Cursor) :
  Z.of_nat (S n) = (max - i + 1)%Z ->
  (forall j, j < S n ->
     referenceDocsUploaded
       (shell env (j + spawned c) (updateReferenceDocsCommand version)) = false) ->
  uploadAttempts env version max delay (S n) i c
  = (spawnMany (S n) c,
     (failedAttempts version delay n
      ++ [Exec (updateReferenceDocsCommand version)])%list,
     Throw (Error "REFERENCE DOC WERE NOT UPLOADED!")).
Proof.
  revert i c. induction n as [ | n IH]; intros i c Hi Hfail.
  - rewrite uploadAttempts_step. assert (H0 := Hfail 0 ltac:(lia)); cbn [Nat.add] in H0; rewrite H0; clear H0.
    destruct (Z.eqb_spec i max) as [_ | Hne]; [reflexivity | lia].
  - rewrite uploadAttempts_step. assert (H0 := Hfail 0 ltac:(lia)); cbn [Nat.add] in H0; rewrite H0; clear H0.
    destruct (Z.eqb_spec i max) as [-> | _]; [lia | ].
    rewrite (IH (i + 1)%Z (spawn c)).
    + rewrite spawnMany_spawn, failedAttempts_S. reflexivity.
    + lia.
    + intros j Hj. cbn [spawn spawned]. rewrite <- Nat.add_succ_comm.
      apply Hfail. lia.
Qed.

Lemma failedAttempts_observed (k : nat) :
  commands (failedAttempts version delay k)
  = repeat (updateReferenceDocsCommand version) k
  /\ sleeps (failedAttempts version delay k) = repeat delay k
  /\ requests (failedAttempts version delay k) = [].
Proof.
  induction k as [ | k (IH1 & IH2 & IH3)]; [repeat split | ].
  rewrite failedAttempts_S. unfold commands, sleeps, requests in *.
  cbn [flat_map commandOf sleepOf requestOf app repeat].
  rewrite IH1, IH2, IH3. repeat split.
Qed.

(** Among the first [n] attempts either all fail or there is a first one
    that succeeds. *)
Lemma first_success (n : nat) (c : Cursor) :
  (forall j, j < n ->
     referenceDocsUploaded
       (shell env (j + spawned c) (updateReferenceDocsCommand version)) = false)
  \/ exists k,
       k < n
       /\ (forall j, j < k ->
             referenceDocsUploaded
               (shell env (j + spawned c) (updateReferenceDocsCommand version)) = false)
       /\ referenceDocsUploaded
            (shell env (k + spawned c) (updateReferenceDocsCommand version)) = true.
Proof.
  induction n as [ | n [IH | (k & Hk & Hfail & Hok)]].
  - left. intros j Hj. lia.
  - destruct (referenceDocsUploaded
                (shell env (n + spawned c) (updateReferenceDocsCommand version)))
      eqn:Hn.
    + right. exists n. repeat split; [lia | exact IH | exact Hn].
    + left. intros j Hj. destruct (Nat.eq_dec j n) as [-> | Hne]; [exact Hn | ].
      apply IH. lia.
  - right. exists k. repeat split; [lia | exact Hfail | exact Hok].
Qed.

(** The commands of the loop, whatever the answers. *)
Lemma uploadAttempts_observed (n : nat) (i : Z) (c : Cursor) :
  exists k,
    k <= n
    /\ commands (traceOf (uploadAttempts env version max delay n i c))
       = repeat (updateReferenceDocsCommand version) k
    /\ requests (traceOf (uploadAttempts env version max delay n i c)) = [].
Proof.
  revert i c. induction n as [ | n IH]; intros i c.
  - exists 0. split; [lia | split; reflexivity].
  - rewrite uploadAttempts_step.
    destruct (referenceDocsUploaded _);
      [exists 1; split; [lia | split; reflexivity] | ].
    destruct (i =? max)%Z; [exists 1; split; [lia | split; reflexivity] | ].
    destruct (IH (i + 1)%Z (spawn c)) as (k & Hk & Hcmd & Hreq).
    destruct (uploadAttempts env version max delay n (i + 1)%Z (spawn c))
      as [[c2 t2] o].
    cbn [traceOf fst snd] in *. exists (S k).
    unfold commands, requests in *. cbn [flat_map commandOf requestOf app].
    rewrite Hcmd, Hreq. split; [lia | split; reflexivity].
Qed.

Lemma upload_observed (c : Cursor) :
  exists k,
    k <= Z.to_nat max
    /\ commands (traceOf
         (uploadReferenceDocsWithMaxNumberOfAttempts env version max delay c))
       = repeat (updateReferenceDocsCommand version) k
    /\ requests (traceOf
         (uploadReferenceDocsWithMaxNumberOfAttempts env version max delay c)) = [].
Proof.
  rewrite upload_run.
  destruct (uploadAttempts_observed (Z.to_nat max) 1 c) as (k & Hk & Hcmd & Hreq).
  destruct (uploadAttempts env version max delay (Z.to_nat max) 1 c) as [[c2 t2] o].
  cbn [traceOf fst snd] in *. exists k. split; [exact Hk | split; assumption].
Qed.

(** The upload ends well at the first attempt that succeeds, if it comes
    within the budget: the failed attempts before it were each followed by
    the delay, and nothing is attempted after it. *)
Theorem upload_stops_at_first_success (k : nat) (c : Cursor) :
  (Z.of_nat k < max)%Z ->
  (forall j, j < k ->
     referenceDocsUploaded
       (shell env (j + spawned c) (updateReferenceDocsCommand version)) = false) ->
  referenceDocsUploaded
    (shell env (k + spawned c) (updateReferenceDocsCommand version)) = true ->
  uploadReferenceDocsWithMaxNumberOfAttempts env version max delay c
  = (spawnMany (S k) c,
     (Log Green "UPLOADING REFERENCE DOC FILES..."
      :: failedAttempts version delay k
      ++ [ Exec (updateReferenceDocsCommand version);
           Log Green "REFERENCE DOC FILES WERE UPLOADED!" ])%list,
     Done tt).
Proof.
  intros Hk Hfail Hok. rewrite upload_run.
  rewrite (uploadAttempts_first_success k (Z.to_nat max) 1 c); try assumption;
    [reflexivity | lia | lia].
Qed.

(** When every attempt within a budget of at least one fails, the upload
    throws after exactly as many attempts as the budget allows, the last of
    which is not followed by a delay. *)
Theorem upload_gives_up_after_budget (c : Cursor) :
  (1 <= max)%Z ->
  (forall j, j < Z.to_nat max ->
     referenceDocsUploaded
       (shell env (j + spawned c) (updateReferenceDocsCommand version)) = false) ->
  uploadReferenceDocsWithMaxNumberOfAttempts env version max delay c
  = (spawnMany (Z.to_nat max) c,
     (Log Green "UPLOADING REFERENCE DOC FILES..."
      :: failedAttempts version delay (Z.to_nat max - 1)
      ++ [Exec (updateReferenceDocsCommand version)])%list,
     Throw (Error "REFERENCE DOC WERE NOT UPLOADED!")).
Proof.
  intros Hmax Hfail. rewrite upload_run.
  destruct (Z.to_nat max) as [ | n] eqn:Hn; [lia | ].
  rewrite (uploadAttempts_all_fail n 1 c); [ | lia | exact Hfail].
  cbn [Nat.sub]. rewrite Nat.sub_0_r. reflexivity.
Qed.

(** With a budget of zero or less nothing is attempted, and the upload
    ends as if it had succeeded. *)
Theorem upload_without_budget_does_nothing (c : Cursor) :
  (max <= 0)%Z ->
  uploadReferenceDocsWithMaxNumberOfAttempts env version max delay c
  = (c, [Log Green "UPLOADING REFERENCE DOC FILES..."], Done tt).
Proof.
  intros Hmax. rewrite upload_run.
  replace (Z.to_nat max) with 0 by lia. reflexivity.
Qed.

(** Whatever the child processes answer, the upload starts at most as many
    of them as the budget allows, all with the same command, sleeps the
    same delay between two of them and not after the last, sends no
    request, and ends well or with its own error. *)
Theorem upload_stays_within_budget (c : Cursor) :
  exists k,
    k <= Z.to_nat max
    /\ commands (traceOf
         (uploadReferenceDocsWithMaxNumberOfAttempts env version max delay c))
       = repeat (updateReferenceDocsCommand version) k
    /\ sleeps (traceOf
         (uploadReferenceDocsWithMaxNumberOfAttempts env version max delay c))
       = repeat delay (k - 1)
    /\ requests (traceOf
         (uploadReferenceDocsWithMaxNumberOfAttempts env version max delay c)) = []
    /\ (outcomeOf
          (uploadReferenceDocsWithMaxNumberOfAttempts env version max delay c)
        = Done tt
        \/ outcomeOf
             (uploadReferenceDocsWithMaxNumberOfAttempts env version max delay c)
           = Throw (Error "REFERENCE DOC WERE NOT UPLOADED!")).
Proof.
  destruct (Z_le_gt_dec max 0) as [Hle | Hgt].
  - rewrite upload_run. replace (Z.to_nat max) with 0 by lia.
    cbn [uploadAttempts ret Monad_Script retS].
    exists 0. repeat split; [lia | left; reflexivity].
  - destruct (first_success (Z.to_nat max) c) as [Hfail | (k & Hk & Hfail & Hok)].
    + rewrite upload_run.
      destruct (Z.to_nat max) as [ | n] eqn:Hn; [lia | ].
      rewrite (uploadAttempts_all_fail n 1 c ltac:(lia) Hfail).
      rewrite <- Hn.
      replace n with (Z.to_nat max - 1) by lia.
      exists (Z.to_nat max). cbn [traceOf outcomeOf fst snd].
      destruct (failedAttempts_observed (Z.to_nat max - 1)) as (H1 & H2 & H3).
      unfold commands, sleeps, requests in *.
      cbn [flat_map commandOf sleepOf requestOf app].
      rewrite !flat_map_app, H1, H2, H3. cbn [flat_map commandOf sleepOf requestOf app].
      rewrite app_nil_r.
      repeat split; [lia | | right; reflexivity].
      replace (Z.to_nat max) with (S (Z.to_nat max - 1)) at 2 by lia.
      rewrite <- repeat_cons. reflexivity.
    + rewrite upload_run.
      rewrite (uploadAttempts_first_success k (Z.to_nat max) 1 c
                 Hk ltac:(lia) Hfail Hok).
      exists (S k). cbn [traceOf outcomeOf fst snd].
      destruct (failedAttempts_observed k) as (H1 & H2 & H3).
      unfold commands, sleeps, requests in *.
      cbn [flat_map commandOf sleepOf requestOf app].
      rewrite !flat_map_app, H1, H2, H3. cbn [flat_map commandOf sleepOf requestOf app].
      rewrite app_nil_r.
      repeat split; [lia | | | left; reflexivity].
      * rewrite <- repeat_cons. reflexivity.
      * cbn [Nat.sub]. rewrite Nat.sub_0_r. reflexivity.
Qed.

End Retry.

(* ===================================================================== *)
(** ** Acceptance of the options *)
(* ===================================================================== *)

Lemma validateOptions_accepts (help version create update : JsVal) (c : Cursor) :
  acceptable help version create update ->
  validateOptions help version create update c = (c, [], Done true).
Proof.
  unfold acceptable, exactlyOne, validateOptions. intros (Hh & Hv & Hx).
  rewrite Hh, Hv.
  destruct (truthy create), (truthy update); try discriminate Hx; reflexivity.
Qed.

Lemma validateOptions_refuses_the_rest (help version create update : JsVal)
  (c : Cursor) :
  ~ acceptable help version create update ->
  exists e, In e usageMessages
            /\ validateOptions help version create update c = (c, [e], Done false).
Proof.
  unfold acceptable, exactlyOne, validateOptions, usageMessages, printHelp.
  intros Hna.
  destruct (truthy help), (truthy version), (truthy create), (truthy update);
    cbn [xorb] in Hna; cbn [negb andb orb];
    try (exfalso; apply Hna; repeat split; fail);
    eexists; (split; [ | reflexivity ]); cbn [In]; auto.
Qed.

Lemma acceptable_dec (help version create update : JsVal) :
  acceptable help version create update \/ ~ acceptable help version create update.
Proof.
  unfold acceptable, exactlyOne.
  destruct (truthy help), (truthy version), (truthy create), (truthy update);
    cbn [xorb]; intuition congruence.
Qed.

(** [validateOptions] answers [true] exactly when no help is asked for, a
    version identifier could be derived and exactly one of [create] and
    [update] is given.  It then prints nothing; in every other case it
    prints one of its four messages and answers [false]. *)
Theorem validateOptions_accepts_iff (help version create update : JsVal)
  (c : Cursor) :
  (outcomeOf (validateOptions help version create update c) = Done true
   <-> acceptable help version create update)
  /\ (acceptable help version create update ->
      traceOf (validateOptions help version create update c) = [])
  /\ (~ acceptable help version create update ->
      exists e, In e usageMessages
                /\ validateOptions help version create update c
                   = (c, [e], Done false)).
Proof.
  split; [split | split].
  - intros Hdone.
    destruct (acceptable_dec help version create update) as [Hacc | Hna];
      [exact Hacc | ].
    destruct (validateOptions_refuses_the_rest _ _ _ _ c Hna) as (e & _ & Hrun).
    rewrite Hrun in Hdone. discriminate Hdone.
  - intros Hacc. rewrite (validateOptions_accepts _ _ _ _ c Hacc). reflexivity.
  - intros Hacc. rewrite (validateOptions_accepts _ _ _ _ c Hacc). reflexivity.
  - apply validateOptions_refuses_the_rest.
Qed.

(** Two invocations that differ only in the truthy value given to
    [--version] or [-v] run on the same identifier. *)
Theorem version_ignores_the_value_of_v (o1 o2 : Options) :
  truthy (versionOption o1) = true ->
  truthy (versionOption o2) = true ->
  versionTag o1 = versionTag o2 ->
  version o1 = version o2.
Proof.
  intros H1 H2 Ht. unfold version, js_or. rewrite H1, H2, H1, H2, Ht. reflexivity.
Qed.

(* ===================================================================== *)
(** ** The fork *)
(* ===================================================================== *)

Section Fork.

Variable env : Environment.
Variable version : JsVal.

Lemma createNewVersion_run (c : Cursor) :
  createNewVersion env version c =
  let req := createNewVersionRequest env version in
  let answer := http env (fetched c) req in
  match answer with
  | Rejected e =>
      (advance 1 c, [Fetch req; Settled req answer; forkFailed],
       Throw (Error (errorToString e)))
  | Responded r =>
      if (status r =? 200)%N
      then (advance 1 c,
            [ Fetch req; Settled req answer;
              Log Green ("FORK CREATED! VERSION " ++ dq ++ toStr version ++ dq) ],
            Done tt)
      else (advance 1 c, [Fetch req; Settled req answer; forkFailed],
            Throw (Error (errorToString (unexpectedStatus (status r)))))
  end.
Proof.
  cbv zeta. unfold createNewVersion.
  cbn [catch Exception_Script]. unfold catchS.
  rewrite bind_run. unfold await, bindS at 1, fetch, settled.
  destruct (http env (fetched c) _) as [e | r]; [reflexivity | ].
  rewrite bind_run.
  destruct (status r =? 200)%N; reflexivity.
Qed.

(** [createNewVersion] sends one request and never a second one.  It ends
    well exactly when the answer is a response of status 200; a rejection
    and any other status are reported in red and thrown again, wrapped in
    a new error whose message is the text of the first. *)
Theorem createNewVersion_needs_a_200 (c : Cursor) :
  let answer := http env (fetched c) (createNewVersionRequest env version) in
  requests (traceOf (createNewVersion env version c))
  = [createNewVersionRequest env version]
  /\ (outcomeOf (createNewVersion env version c) = Done tt
      <-> exists r, answer = Responded r /\ status r = 200%N)
  /\ (forall e, answer = Rejected e ->
        outcomeOf (createNewVersion env version c) = Throw (Error (errorToString e))
        /\ last (traceOf (createNewVersion env version c)) forkFailed = forkFailed)
  /\ (forall r, answer = Responded r -> status r <> 200%N ->
        outcomeOf (createNewVersion env version c)
        = Throw (Error ("Error: Response status: " ++ showStatus (status r)
                        ++ ", maybe this versionTag is already created?"))
        /\ last (traceOf (createNewVersion env version c)) forkFailed = forkFailed).
Proof.
  cbv zeta. rewrite createNewVersion_run. cbv zeta.
  destruct (http env (fetched c) _) as [e | r];
    [ | destruct (N.eqb_spec (status r) 200) as [Heq | Hne] ];
    (split; [reflexivity | split; [split | split]]); intros;
    repeat match goal with
           | H : exists _, _ |- _ => destruct H as (? & ? & ?)
           | H : Rejected _ = Rejected _ |- _ => injection H as <-
           | H : Responded _ = Responded _ |- _ => injection H as <-
           end;
    try discriminate; try contradiction;
    try (split; reflexivity);
    try (eexists; split; [reflexivity | assumption]).
Qed.

End Fork.

(* ===================================================================== *)
(** ** The steps that run a command *)
(* ===================================================================== *)

Section Commands.

Variable env : Environment.
Variable version : JsVal.

Lemma buildMdTables_run (c : Cursor) :
  buildMdTables env c =
  let r := shell env (spawned c) "npm run build-md-tables-from-openapi" in
  let started :=
    [ Log Green "BUILDING MD TABLES FROM OPEN API...";
      Exec "npm run build-md-tables-from-openapi" ] in
  if nonEmpty (stdout r)
  then (spawn c, (started ++ [Log Green "MD TABLES WERE BUILDED SUCCESSFULLY!"])%list,
        Done tt)
  else (spawn c, (started ++ [Log Red (orUndefined (errorText (error r)))])%list,
        Uncaught (Error "MD TABLES WERE NOT BUILDED!")).
Proof.
  unfold buildMdTables. cbv zeta.
  rewrite bind_run. cbn [log emit]. rewrite bind_run. cbn [exec].
  destruct (nonEmpty _); [reflexivity | ].
  rewrite bind_run. reflexivity.
Qed.

Lemma updateMdTablesInDocs_run (c : Cursor) :
  updateMdTablesInDocs env c =
  let r := shell env (spawned c) "npm run update-md-tables-in-doc" in
  let started :=
    [ Log Green "UPDATING MD TABLES IN DOCS...";
      Exec "npm run update-md-tables-in-doc" ] in
  if nonEmpty (stdout r)
  then (spawn c,
        (started ++ [Log Green "MD TABLES WERE UPDATED IN DOCS SUCCESSFULLY!"])%list,
        Done tt)
  else (spawn c, (started ++ [Log Red (orUndefined (errorText (error r)))])%list,
        Uncaught (Error "MD TABLES WERE NOT UPDATED IN DOCS!")).
Proof.
  unfold updateMdTablesInDocs. cbv zeta.
  rewrite bind_run. cbn [log emit]. rewrite bind_run. cbn [exec].
  destruct (nonEmpty _); [reflexivity | ].
  rewrite bind_run. reflexivity.
Qed.

Lemma uploadGuideFiles_run (c : Cursor) :
  uploadGuideFiles env version c =
  let command := "rdme docs ./docs/guides --version=" ++ toStr version in
  let r := shell env (spawned c) command in
  let started := [Log Green "UPLOADING GUIDES DOC FILES..."; Exec command] in
  if includesOpt successfullyCreated (stdout r)
  then (spawn c, (started ++ [Log Green "GUIDES DOC FILES WERE UPLOADED!"])%list,
        Done tt)
  else (spawn c, (started ++ [Log Red (orUndefined (errorText (error r)))])%list,
        Uncaught (Error "GUIDES DOC WERE NOT UPLOADED!")).
Proof.
  unfold uploadGuideFiles. cbv zeta.
  rewrite bind_run. cbn [log emit]. rewrite bind_run. cbn [exec].
  destruct (includesOpt _ _); [reflexivity | ].
  rewrite bind_run. reflexivity.
Qed.

(** The three steps that follow the upload of the OpenAPI file judge their
    command by its standard output alone, whatever its error and its error
    output: the two steps on the tables want it non-empty, the upload of
    the guides wants the success text in it.  A step that is not satisfied
    prints the text of the error, [undefined] when there is none, and ends
    the process with an error of its own. *)
Theorem commands_are_judged_by_stdout (c : Cursor) :
  (outcomeOf (buildMdTables env c) = Done tt
   <-> nonEmpty (stdout (shell env (spawned c)
                           "npm run build-md-tables-from-openapi")) = true)
  /\ (outcomeOf (updateMdTablesInDocs env c) = Done tt
      <-> nonEmpty (stdout (shell env (spawned c)
                              "npm run update-md-tables-in-doc")) = true)
  /\ (outcomeOf (uploadGuideFiles env version c) = Done tt
      <-> includesOpt successfullyCreated
            (stdout (shell env (spawned c)
                       ("rdme docs ./docs/guides --version=" ++ toStr version)))
          = true)
  /\ (forall e, outcomeOf (buildMdTables env c) <> Throw e)
  /\ (forall e, outcomeOf (updateMdTablesInDocs env c) <> Throw e)
  /\ (forall e, outcomeOf (uploadGuideFiles env version c) <> Throw e).
Proof.
  rewrite buildMdTables_run, updateMdTablesInDocs_run, uploadGuideFiles_run.
  cbv zeta.
  destruct (nonEmpty (stdout (shell env (spawned c)
                                "npm run build-md-tables-from-openapi")));
    destruct (nonEmpty (stdout (shell env (spawned c)
                                  "npm run update-md-tables-in-doc")));
    destruct (includesOpt successfullyCreated _);
    cbn [outcomeOf snd]; intuition congruence.
Qed.

End Commands.

(* ===================================================================== *)
(** ** What [cleanProject] sends *)
(* ===================================================================== *)

Lemma only_bind {A B} (P : Event -> Prop) (m : Script A) (k : A -> Script B) :
  Only P m -> (forall a, Only P (k a)) -> Only P (bind m k).
Proof.
  intros Hm Hk c. sequence m k c; rewrite Ht; [ | apply Hm | apply Hm].
  apply Forall_app. split; [apply Hm | apply Hk].
Qed.

Lemma only_log (P : Event -> Prop) (color : Color) (text : string) :
  P (Log color text) -> Only P (log color text).
Proof. intros H c. repeat constructor. exact H. Qed.

Lemma only_throw {A} (P : Event -> Prop) (e : JsError) :
  Only P (raise e : Script A).
Proof. intros c. constructor. Qed.

Lemma only_asyncMap_planned {A} (P : Event -> Prop) (env : Environment)
  (g : A -> JsError + Request) (l : list A) :
  (forall x req, g x = inr req ->
                 P (Fetch req) /\ forall answer, P (Settled req answer)) ->
  Only P (asyncMap l (fun x => plannedCall env (g x))).
Proof.
  intros Hg c.
  destruct (asyncMap_planned env g l c) as (settlements & Htr & Hset & _).
  rewrite Htr. apply Forall_app. split.
  - apply Forall_map, Forall_forall. intros req Hin.
    destruct (in_requestsOf_map g l req Hin) as (x & _ & Hx).
    exact (proj1 (Hg x req Hx)).
  - eapply Forall_impl; [ | exact Hset].
    intros e (req & answer & -> & Hin).
    destruct (in_requestsOf_map g l req Hin) as (x & _ & Hx).
    exact (proj2 (Hg x req Hx) answer).
Qed.

(** An observation that sees nothing in messages and requests sees nothing
    in a trace made of them. *)
Lemma messages_and_requests_hide {X} (obs : list Event -> list X)
  (P : Request -> Prop) (tr : list Event) :
  Additive obs ->
  (forall color text, obs [Log color text] = []) ->
  (forall req, obs [Fetch req] = []) ->
  (forall req answer, obs [Settled req answer] = []) ->
  Forall (MessageOrRequest P) tr -> obs tr = [].
Proof.
  intros Hadd Hlog Hfetch Hsettled Htr.
  apply observes_nothing; [exact Hadd | ].
  eapply Forall_impl; [ | exact Htr].
  intros [color text | req | req answer | command | ms] He; cbn in He;
    auto; contradiction.
Qed.

Lemma commands_additive : Additive commands.
Proof. split; [reflexivity | intros; apply flat_map_app]. Qed.

Lemma sleeps_additive : Additive sleeps.
Proof. split; [reflexivity | intros; apply flat_map_app]. Qed.

Lemma requests_additive : Additive requests.
Proof. split; [reflexivity | intros; apply flat_map_app]. Qed.

#[local] Hint Resolve commands_additive sleeps_additive requests_additive : script.

(** The requests of a trace of messages and requests satisfy the
    predicate. *)
Lemma requests_satisfy (P : Request -> Prop) (tr : list Event) :
  Forall (MessageOrRequest P) tr -> Forall P (requests tr).
Proof.
  induction 1 as [ | e tr He _ IH]; [constructor | ].
  unfold requests in *. cbn [flat_map].
  destruct e; cbn [requestOf app]; try exact IH.
  constructor; [exact He | exact IH].
Qed.

Section CleanEvents.

Variable env : Environment.
Variable version : JsVal.

Lemma only_getAllCategories : Only (MessageOrRequest (CleanRequest env version)) (getAllCategories env version).
Proof.
  intros c. rewrite getAllCategories_run. cbv zeta. cbn [traceOf fst snd].
  constructor; [left; reflexivity | ].
  constructor; [left; reflexivity | constructor].
Qed.

Lemma only_getAllApiSpecifications : Only (MessageOrRequest (CleanRequest env version)) (getAllApiSpecifications env version).
Proof.
  intros c. rewrite getAllApiSpecifications_run. cbv zeta. cbn [traceOf fst snd].
  constructor; [do 4 right; left; reflexivity | ].
  constructor; [do 4 right; left; reflexivity | constructor].
Qed.

Lemma only_createCategories (titles : list string) :
  Only (MessageOrRequest (CleanRequest env version)) (forOf titles
            (fun categoryTitle => await (createCategory env version categoryTitle))).
Proof.
  intros c.
  destruct (forOf_createCategory env version titles c) as (created & todo & H & _).
  induction H as [ | t answer created' evs _ IH]; [constructor | ].
  constructor; [do 2 right; left; exists t; reflexivity | ].
  constructor; [do 2 right; left; exists t; reflexivity | exact IH].
Qed.

Lemma cleanProject_events :
  Only (MessageOrRequest (CleanRequest env version)) (cleanProject env version).
Proof.
  unfold cleanProject.
  apply only_bind; [apply only_getAllCategories | intros categoriesToDelete].
  apply only_bind.
  { destruct categoriesToDelete as [items | | ]; cbn [asyncMapJson];
      try apply only_throw.
    apply (only_asyncMap_planned _ env
             (fun category => inr (deleteCategoryRequest env version (slug category)))).
    intros x req [= <-].
    split; [ | intros answer]; cbn; right; left; eexists; reflexivity. }
  intros _. apply only_bind; [apply only_log; exact I | intros _].
  apply only_bind; [apply only_createCategories | intros _].
  apply only_bind; [apply only_log; exact I | intros _].
  apply only_bind; [apply only_getAllCategories | intros allCategories].
  apply only_bind.
  { rewrite asyncMap_updates.
    apply only_asyncMap_planned.
    intros t req Hplan.
    destruct (updatePlan_request env version _ _ _ Hplan) as [category ->].
    split; [ | intros answer]; cbn; do 3 right; left; eexists; reflexivity. }
  intros _. apply only_bind; [apply only_log; exact I | intros _].
  apply only_bind; [apply only_getAllApiSpecifications | intros specs].
  apply only_bind.
  { destruct specs as [items | | ]; cbn [asyncMapJson]; try apply only_throw.
    apply (only_asyncMap_planned _ env
             (fun id => inr (deleteSpecificationRequest env id))).
    intros x req [= <-].
    split; [ | intros answer]; cbn; do 5 right; eexists; reflexivity. }
  intros _. apply only_bind; [apply only_log; exact I | intros _].
  apply only_log; exact I.
Qed.

Lemma cleanProject_starts_nothing (c : Cursor) :
  commands (traceOf (cleanProject env version c)) = []
  /\ sleeps (traceOf (cleanProject env version c)) = [].
Proof.
  split.
  - apply (messages_and_requests_hide commands (CleanRequest env version) _
             commands_additive); auto.
    apply cleanProject_events.
  - apply (messages_and_requests_hide sleeps (CleanRequest env version) _
             sleeps_additive); auto.
    apply cleanProject_events.
Qed.

(** [cleanProject] prints messages and sends requests of its six kinds;
    it starts no child process and never sleeps. *)
Theorem cleanProject_only_sends_its_requests (c : Cursor) :
  Forall (MessageOrRequest (CleanRequest env version))
         (traceOf (cleanProject env version c))
  /\ Forall (CleanRequest env version)
            (requests (traceOf (cleanProject env version c)))
  /\ commands (traceOf (cleanProject env version c)) = []
  /\ sleeps (traceOf (cleanProject env version c)) = [].
Proof.
  pose proof (cleanProject_events c) as H. repeat split.
  - exact H.
  - apply requests_satisfy. exact H.
  - apply (messages_and_requests_hide commands (CleanRequest env version) _
             commands_additive); auto.
  - apply (messages_and_requests_hide sleeps (CleanRequest env version) _
             sleeps_additive); auto.
Qed.

End CleanEvents.

(* ===================================================================== *)
(** ** The order of a whole run *)
(* ===================================================================== *)

Section Order.

Variable env : Environment.

Lemma firstn_repeat_le {A} (x : A) (k n : nat) :
  k <= n -> firstn k (repeat x n) = repeat x k.
Proof.
  revert n. induction k as [ | k IH]; intros n Hk; [reflexivity | ].
  destruct n as [ | n]; [lia | ].
  cbn [repeat firstn]. rewrite IH by lia. reflexivity.
Qed.

(** A step that starts one child process and sends nothing, followed by
    steps that run the first commands of [rest]. *)
Lemma step_then_commands {A B} (m : Script A) (k : A -> Script B) (c : Cursor)
  (command : string) (rest : list string) :
  requests (traceOf (m c)) = [] ->
  commands (traceOf (m c)) = [command] ->
  (forall a c',
     requests (traceOf (k a c')) = []
     /\ exists n, commands (traceOf (k a c')) = firstn n rest) ->
  requests (traceOf (bind m k c)) = []
  /\ exists n, commands (traceOf (bind m k c)) = firstn n (command :: rest).
Proof.
  intros Hreq Hcmd Hk. sequence m k c; rewrite Ht.
  - destruct (Hk a (cursorOf (m c))) as (Hreq' & n & Hcmd').
    rewrite (proj2 requests_additive), (proj2 commands_additive).
    rewrite Hreq, Hreq', Hcmd, Hcmd'.
    split; [reflexivity | exists (S n); reflexivity].
  - rewrite Hreq, Hcmd. split; [reflexivity | exists 1; reflexivity].
  - rewrite Hreq, Hcmd. split; [reflexivity | exists 1; reflexivity].
Qed.

Lemma uploads_in_order (version : JsVal) (c : Cursor) :
  requests (traceOf (uploads env version c)) = []
  /\ exists n, commands (traceOf (uploads env version c))
               = firstn n (pipeline version).
Proof.
  unfold uploads, pipeline.
  apply step_then_commands.
  { rewrite uploadOpenApiFile_run. cbv zeta. destruct (_ || _); reflexivity. }
  { rewrite uploadOpenApiFile_run. cbv zeta. destruct (_ || _); reflexivity. }
  intros _ c1. apply step_then_commands.
  { rewrite buildMdTables_run. cbv zeta. destruct (nonEmpty _); reflexivity. }
  { rewrite buildMdTables_run. cbv zeta. destruct (nonEmpty _); reflexivity. }
  intros _ c2. apply step_then_commands.
  { rewrite updateMdTablesInDocs_run. cbv zeta. destruct (nonEmpty _); reflexivity. }
  { rewrite updateMdTablesInDocs_run. cbv zeta. destruct (nonEmpty _); reflexivity. }
  intros _ c3. apply step_then_commands.
  { rewrite uploadGuideFiles_run. cbv zeta. destruct (includesOpt _ _); reflexivity. }
  { rewrite uploadGuideFiles_run. cbv zeta. destruct (includesOpt _ _); reflexivity. }
  intros _ c4.
  destruct (upload_observed env version 6 5000 c4) as (n & Hn & Hcmd & Hreq).
  change (Z.to_nat 6) with 6 in Hn.
  match goal with
  | |- context [bind ?m ?k c4] => sequence m k c4; rewrite Ht
  end;
    rewrite ?(proj2 requests_additive), ?(proj2 commands_additive), Hreq, Hcmd;
    cbn [log emit traceOf fst snd requests commands flat_map requestOf commandOf app];
    rewrite ?app_nil_r;
    (split; [reflexivity | exists n; symmetry; apply firstn_repeat_le; exact Hn]).
Qed.

Lemma main_accepted (help version create update : JsVal) (c : Cursor) :
  acceptable help version create update ->
  main env help version create update c
  = bind (if truthy create then createNewVersion env version else ret tt)
         (fun _ => bind (cleanProject env version) (fun _ => uploads env version)) c.
Proof.
  intros Hacc. unfold main. rewrite bind_run.
  rewrite (validateOptions_accepts _ _ _ _ c Hacc). cbn [negb]. unfold uploads.
  match goal with
  | |- match ?r with _ => _ end = _ => destruct r as [[c2 t2] o]
  end.
  reflexivity.
Qed.

Lemma fork_observed (version create : JsVal) (c : Cursor) :
  commands (traceOf ((if truthy create then createNewVersion env version
                      else ret tt) c)) = []
  /\ sleeps (traceOf ((if truthy create then createNewVersion env version
                       else ret tt) c)) = [].
Proof.
  destruct (truthy create); [ | split; reflexivity].
  rewrite createNewVersion_run. cbv zeta.
  destruct (http env (fetched c) _) as [e | r]; [split; reflexivity | ].
  destruct (status r =? 200)%N; split; reflexivity.
Qed.

(** Every run of the script splits in two: first messages and requests,
    with no child process and no delay, then messages, child processes and
    delays, with no request.  The commands come in the order of the steps
    of [main], the upload of the reference docs being attempted six times
    at most. *)
Theorem requests_come_before_commands (options : Options) (c : Cursor) :
  exists before after n,
    traceOf (run env options c) = (before ++ after)%list
    /\ commands before = []
    /\ sleeps before = []
    /\ requests after = []
    /\ commands after = firstn n (pipeline (version options)).
Proof.
  unfold run.
  destruct (acceptable_dec (help options) (version options)
              (create options) (update options)) as [Hacc | Hna].
  - rewrite (main_accepted _ _ _ _ c Hacc).
    match goal with
    | |- context [bind ?m ?k c] => sequence m k c; rewrite Ht
    end.
    + match goal with
      | |- context [bind ?m ?k ?c'] =>
          destruct (cleanProject_starts_nothing env (version options) c')
            as (Hcmd & Hsleep);
          sequence m k c'; rewrite Ht0
      end.
      * destruct (uploads_in_order (version options)
                    (cursorOf (cleanProject env (version options)
                                 (cursorOf ((if truthy (create options)
                                             then createNewVersion env (version options)
                                             else ret tt) c)))))
          as (Hreq & n & Hn).
        eexists (_ ++ _)%list, _, n. rewrite app_assoc.
        repeat split; try exact Hreq; try exact Hn.
        -- rewrite (proj2 commands_additive), Hcmd.
           rewrite (proj1 (fork_observed _ _ c)). reflexivity.
        -- rewrite (proj2 sleeps_additive), Hsleep.
           rewrite (proj2 (fork_observed _ _ c)). reflexivity.
      * eexists (_ ++ _)%list, [], 0. rewrite app_nil_r.
        repeat split.
        -- rewrite (proj2 commands_additive), Hcmd.
           rewrite (proj1 (fork_observed _ _ c)). reflexivity.
        -- rewrite (proj2 sleeps_additive), Hsleep.
           rewrite (proj2 (fork_observed _ _ c)). reflexivity.
      * eexists (_ ++ _)%list, [], 0. rewrite app_nil_r.
        repeat split.
        -- rewrite (proj2 commands_additive), Hcmd.
           rewrite (proj1 (fork_observed _ _ c)). reflexivity.
        -- rewrite (proj2 sleeps_additive), Hsleep.
           rewrite (proj2 (fork_observed _ _ c)). reflexivity.
    + eexists _, [], 0. rewrite app_nil_r.
      repeat split; apply (fork_observed _ _ c).
    + eexists _, [], 0. rewrite app_nil_r.
      repeat split; apply (fork_observed _ _ c).
  - destruct (validateOptions_refuses_the_rest _ _ _ _ c Hna)
      as (e & Hin & Hrun).
    rewrite (main_refused env _ _ _ _ c e Hrun).
    exists [e], [], 0. cbn [traceOf fst snd app].
    unfold usageMessages in Hin. cbn [In] in Hin.
    destruct Hin as [<- | [<- | [<- | [<- | []]]]]; repeat split.
Qed.

End Order.

(* ===================================================================== *)
(** ** To fork or not to fork *)
(* ===================================================================== *)

Section Forking.

Variable env : Environment.

Lemma bind_trace_prefix {A B} (m : Script A) (k : A -> Script B) (c : Cursor) :
  exists rest, traceOf (bind m k c) = (traceOf (m c) ++ rest)%list.
Proof.
  sequence m k c; rewrite Ht.
  - eexists. reflexivity.
  - exists []. symmetry. apply app_nil_r.
  - exists []. symmetry. apply app_nil_r.
Qed.

(** With [create] among accepted options, the first thing a run does is
    to send the fork request. *)
Theorem create_forks_first (options : Options) (c : Cursor) :
  acceptable (help options) (version options) (create options) (update options) ->
  truthy (create options) = true ->
  exists rest,
    traceOf (run env options c)
    = Fetch (createNewVersionRequest env (version options)) :: rest.
Proof.
  intros Hacc Hcreate. unfold run. rewrite (main_accepted env _ _ _ _ c Hacc).
  rewrite Hcreate.
  match goal with
  | |- context [bind ?m ?k c] => destruct (bind_trace_prefix m k c) as [rest ->]
  end.
  rewrite createNewVersion_run. cbv zeta.
  destruct (http env (fetched c) _) as [e | r];
    [ | destruct (status r =? 200)%N]; eexists; reflexivity.
Qed.

(** When the fork request is rejected or answered with a status other than
    200, the run stops there: nothing is cleaned and nothing is
    uploaded. *)
Theorem failed_fork_ends_the_run (options : Options) (c : Cursor) :
  acceptable (help options) (version options) (create options) (update options) ->
  truthy (create options) = true ->
  (forall r, http env (fetched c) (createNewVersionRequest env (version options))
             = Responded r -> status r <> 200%N) ->
  traceOf (run env options c)
  = [ Fetch (createNewVersionRequest env (version options));
      Settled (createNewVersionRequest env (version options))
        (http env (fetched c) (createNewVersionRequest env (version options)));
      forkFailed ]
  /\ exists e, outcomeOf (run env options c) = Throw e.
Proof.
  intros Hacc Hcreate Hstatus. unfold run. rewrite (main_accepted env _ _ _ _ c Hacc).
  rewrite Hcreate.
  assert (Hfork : exists e,
             createNewVersion env (version options) c
             = (advance 1 c,
                [ Fetch (createNewVersionRequest env (version options));
                  Settled (createNewVersionRequest env (version options))
                    (http env (fetched c)
                       (createNewVersionRequest env (version options)));
                  forkFailed ],
                Throw e)).
  { rewrite createNewVersion_run. cbv zeta.
    destruct (http env (fetched c) _) as [e | r] eqn:Hanswer.
    - eexists. reflexivity.
    - destruct (N.eqb_spec (status r) 200) as [Heq | Hne].
      + exfalso. exact (Hstatus r eq_refl Heq).
      + eexists. reflexivity. }
  destruct Hfork as [e Hfork].
  match goal with
  | |- context [bind ?m ?k c] =>
      destruct (bind_throw m k c e) as [Ht Hr]; [rewrite Hfork; reflexivity | ]
  end.
  rewrite Ht, Hr, Hfork. split; [reflexivity | exists e; reflexivity].
Qed.

Lemma clean_request_is_no_fork (version version' : JsVal) (req : Request) :
  CleanRequest env version req -> req <> createNewVersionRequest env version'.
Proof.
  intros [-> | [[s ->] | [[t ->] | [[s ->] | [-> | [id ->]]]]]] H;
    discriminate H.
Qed.

(** Without [create], no run ever sends a fork request. *)
Theorem update_never_forks (options : Options) (c : Cursor) (version' : JsVal) :
  truthy (create options) = false ->
  ~ In (createNewVersionRequest env version')
       (requests (traceOf (run env options c))).
Proof.
  intros Hcreate Hin. unfold run in Hin.
  destruct (acceptable_dec (help options) (version options)
              (create options) (update options)) as [Hacc | Hna].
  - rewrite (main_accepted env _ _ _ _ c Hacc), Hcreate in Hin.
    match type of Hin with
    | context [bind ?m ?k c] =>
        destruct (bind_done m k c tt eq_refl) as [Ht _]; rewrite Ht in Hin
    end.
    cbn [ret Monad_Script retS traceOf fst snd app cursorOf] in Hin.
    pose proof (requests_satisfy _ _ (cleanProject_events env (version options) c))
      as Hclean.
    destruct (uploads_in_order env (version options)
                (cursorOf (cleanProject env (version options) c))) as (Hup & _).
    match type of Hin with
    | context [bind ?m ?k c] => sequence m k c; rewrite Ht0 in Hin
    end;
      rewrite ?(proj2 requests_additive), ?Hup, ?app_nil_r in Hin;
      rewrite Forall_forall in Hclean;
      exact (clean_request_is_no_fork _ version' _ (Hclean _ Hin) eq_refl).
  - destruct (validateOptions_refuses_the_rest _ _ _ _ c Hna)
      as (e & Hin' & Hrun).
    rewrite (main_refused env _ _ _ _ c e Hrun) in Hin.
    unfold usageMessages in Hin'. cbn [In] in Hin'.
    destruct Hin' as [<- | [<- | [<- | [<- | []]]]]; exact Hin.
Qed.

End Forking.

(* ===================================================================== *)
(** ** More on [cleanProject] *)
(* ===================================================================== *)

Section CleanMore.

Variable env : Environment.
Variable version : JsVal.

Lemma requestsOf_map_inr {A} (f : A -> Request) (l : list A) :
  requestsOf (map (fun x => inr (f x)) l) = map f l.
Proof. induction l as [ | x l IH]; [reflexivity | ]. cbn. rewrite IH. reflexivity. Qed.

Lemma firstError_map_inr {A} (f : A -> Request) (l : list A) :
  firstError (map (fun x => inr (f x)) l) = None.
Proof. induction l as [ | x l IH]; [reflexivity | exact IH]. Qed.

(** When the first listing is an array, one deletion is requested for each
    of its categories, by its slug, in the order of the listing, and all
    these requests leave before anything else happens, the settling of the
    first of them included. *)
Theorem deletions_are_sent_together (c : Cursor) (r : Response)
  (items : list ApiObject) :
  http env (fetched c) (getAllCategoriesRequest env version) = Responded r ->
  payload r = BodyJson (JsonArray items) ->
  exists rest,
    traceOf (cleanProject env version c)
    = (Fetch (getAllCategoriesRequest env version)
       :: Settled (getAllCategoriesRequest env version) (Responded r)
       :: map Fetch
            (map (fun category => deleteCategoryRequest env version (slug category))
                 items)
       ++ rest)%list.
Proof.
  intros Hanswer Hpayload. unfold cleanProject.
  match goal with
  | |- context [bind ?m ?k c] =>
      destruct (bind_done m k c (JsonArray items)) as [Ht _];
      [ rewrite getAllCategories_run; cbv zeta; rewrite Hanswer, Hpayload; reflexivity
      | rewrite Ht ]
  end.
  rewrite getAllCategories_run. cbv zeta. rewrite Hanswer.
  cbn [traceOf cursorOf fst snd app].
  match goal with
  | |- context [bind ?m ?k ?c'] => destruct (bind_trace_prefix m k c') as [rest ->]
  end.
  cbn [asyncMapJson].
  destruct (asyncMap_planned env
              (fun category => inr (deleteCategoryRequest env version (slug category)))
              items (advance 1 c)) as (settlements & Htr & _).
  cbn [plannedCall] in Htr. unfold deleteCategory. rewrite Htr, requestsOf_map_inr.
  exists (settlements ++ rest)%list. rewrite <- app_assoc. reflexivity.
Qed.

(** When the first listing is JSON but not an array (an error object, for
    instance), [cleanProject] ends with a [TypeError] after this one
    request: nothing is deleted and nothing is created. *)
Theorem cleanProject_needs_an_array (c : Cursor) (r : Response) (j : Json) :
  http env (fetched c) (getAllCategoriesRequest env version) = Responded r ->
  payload r = BodyJson j ->
  (forall items, j <> JsonArray items) ->
  traceOf (cleanProject env version c)
  = [ Fetch (getAllCategoriesRequest env version);
      Settled (getAllCategoriesRequest env version) (Responded r) ]
  /\ exists text, outcomeOf (cleanProject env version c) = Throw (TypeError text).
Proof.
  intros Hanswer Hpayload Hj. unfold cleanProject.
  match goal with
  | |- context [bind ?m ?k c] =>
      destruct (bind_done m k c j) as [Ht Hr];
      [ rewrite getAllCategories_run; cbv zeta; rewrite Hanswer, Hpayload; reflexivity
      | rewrite Ht, Hr ]
  end.
  rewrite getAllCategories_run. cbv zeta. rewrite Hanswer.
  cbn [traceOf cursorOf fst snd app].
  destruct j as [items | | ]; [exfalso; exact (Hj items eq_refl) | | ];
    (split; [reflexivity | eexists; reflexivity]).
Qed.

(** *** When every request is answered *)

Lemma awaitAll_all_respond (n : nat) (plans : list (JsError + Request)) (c : Cursor) :
  firstError plans = None ->
  (forall k req, exists r, http env k req = Responded r) ->
  exists xs, outcomeOf (awaitAll (promisesOf env n plans) c) = Done xs.
Proof.
  intros Hnone Hresp. revert n c.
  induction plans as [ | [e | req] plans IH]; intros n c.
  - exists []. reflexivity.
  - discriminate Hnone.
  - cbn [promisesOf awaitAll firstError] in *.
    rewrite bind_run, pending_run.
    destruct (Hresp n req) as [r ->].
    rewrite bind_run.
    destruct (IH Hnone (S n) c) as [xs Hxs].
    destruct (awaitAll (promisesOf env (S n) plans) c) as [[c2 t2] o].
    cbn [outcomeOf snd] in Hxs. subst o. eexists. reflexivity.
Qed.

Lemma asyncMap_all_respond {A} (g : A -> JsError + Request) (l : list A) (c : Cursor) :
  firstError (map g l) = None ->
  (forall k req, exists r, http env k req = Responded r) ->
  exists xs, outcomeOf (asyncMap l (fun x => plannedCall env (g x)) c) = Done xs.
Proof.
  intros Hnone Hresp. unfold asyncMap. rewrite bind_run, mapCalls_planned.
  unfold promiseAll. rewrite firstRejected_promisesOf, Hnone.
  destruct (awaitAll_all_respond (fetched c) (map g l)
              (advance (length (requestsOf (map g l))) c) Hnone Hresp) as [xs Hxs].
  destruct (awaitAll _ _) as [[c2 t2] o]. cbn [outcomeOf snd] in *. subst o.
  eexists. reflexivity.
Qed.

Lemma createCategories_all_respond (titles : list string) (c : Cursor) :
  (forall k req, exists r, http env k req = Responded r) ->
  outcomeOf (forOf titles
               (fun categoryTitle => await (createCategory env version categoryTitle)) c)
  = Done tt.
Proof.
  intros Hresp. revert c. induction titles as [ | t titles IH]; intros c.
  - reflexivity.
  - cbn [forOf].
    match goal with
    | |- context [bind ?m ?k c] =>
        destruct (bind_done m k c tt) as [_ Hr];
        [ rewrite createCategory_run; cbv zeta;
          destruct (Hresp (fetched c) (createCategoryRequest env version t)) as [r ->];
          reflexivity
        | rewrite Hr ]
    end.
    apply IH.
Qed.

Lemma plans_all_found (items : list ApiObject) (titles : list string) :
  (forall t, In t titles -> findByTitle t items <> None) ->
  firstError (map (updatePlan env version (JsonArray items)) titles) = None.
Proof.
  induction titles as [ | t titles IH]; intros H; [reflexivity | ].
  cbn [map firstError updatePlan].
  destruct (findByTitle t items) eqn:Hfind.
  - cbn [firstError]. apply IH. intros u Hu. apply H. right. exact Hu.
  - exfalso. apply (H t); [left; reflexivity | exact Hfind].
Qed.

(** [cleanProject] never looks at a status: it ends well as soon as no
    request is rejected, the listings of the categories are arrays in
    which every reference title is found, and the listing of the
    specifications is an array, whatever the statuses of the responses. *)
Theorem cleanProject_ignores_statuses (c : Cursor) :
  (forall k req, exists r, http env k req = Responded r) ->
  (forall k r,
     http env k (getAllCategoriesRequest env version) = Responded r ->
     exists items,
       payload r = BodyJson (JsonArray items)
       /\ forall t, In t listOfReferenceCategories -> findByTitle t items <> None) ->
  (forall k r,
     http env k (getAllApiSpecificationsRequest env version) = Responded r ->
     exists items, payload r = BodyJson (JsonArray items)) ->
  outcomeOf (cleanProject env version c) = Done tt.
Proof.
  intros Hresp Hlist Hspecs.
  assert (Hget : forall c', exists items,
             outcomeOf (getAllCategories env version c') = Done (JsonArray items)
             /\ forall t, In t listOfReferenceCategories -> findByTitle t items <> None).
  { intros c'. rewrite getAllCategories_run. cbv zeta.
    destruct (Hresp (fetched c') (getAllCategoriesRequest env version)) as [r Hr].
    destruct (Hlist _ _ Hr) as (items & Hp & Hall).
    rewrite Hr, Hp. exists items. split; [reflexivity | exact Hall]. }
  assert (Hgs : forall c', exists items,
             outcomeOf (getAllApiSpecifications env version c') = Done (JsonArray items)).
  { intros c'. rewrite getAllApiSpecifications_run. cbv zeta.
    destruct (Hresp (fetched c') (getAllApiSpecificationsRequest env version))
      as [r Hr].
    destruct (Hspecs _ _ Hr) as (items & Hp).
    rewrite Hr, Hp. exists items. reflexivity. }
  unfold cleanProject.
  destruct (Hget c) as (items0 & H1 & _).
  rewrite (proj2 (bind_done _ _ c _ H1)).
  cbn [asyncMapJson].
  match goal with
  | |- outcomeOf (bind ?m ?k ?c') = _ =>
      destruct (asyncMap_all_respond
                  (fun category => inr (deleteCategoryRequest env version (slug category)))
                  items0 c' (firstError_map_inr _ _) Hresp) as [xs Hxs];
      rewrite (proj2 (bind_done m k c' xs Hxs))
  end.
  match goal with
  | |- outcomeOf (bind ?m ?k ?c') = _ => rewrite (proj2 (bind_done m k c' tt eq_refl))
  end.
  match goal with
  | |- outcomeOf (bind ?m ?k ?c') = _ =>
      rewrite (proj2 (bind_done m k c' tt (createCategories_all_respond _ c' Hresp)))
  end.
  match goal with
  | |- outcomeOf (bind ?m ?k ?c') = _ => rewrite (proj2 (bind_done m k c' tt eq_refl))
  end.
  match goal with
  | |- outcomeOf (bind ?m ?k ?c') = _ =>
      destruct (Hget c') as (items & H6 & Hall);
      rewrite (proj2 (bind_done m k c' _ H6))
  end.
  rewrite asyncMap_updates.
  match goal with
  | |- outcomeOf (bind ?m ?k ?c') = _ =>
      destruct (asyncMap_all_respond (updatePlan env version (JsonArray items))
                  listOfReferenceCategories c'
                  (plans_all_found items _ Hall) Hresp) as [ys Hys];
      rewrite (proj2 (bind_done m k c' ys Hys))
  end.
  match goal with
  | |- outcomeOf (bind ?m ?k ?c') = _ => rewrite (proj2 (bind_done m k c' tt eq_refl))
  end.
  match goal with
  | |- outcomeOf (bind ?m ?k ?c') = _ =>
      destruct (Hgs c') as (specs & H9);
      rewrite (proj2 (bind_done m k c' _ H9))
  end.
  cbn [asyncMapJson].
  match goal with
  | |- outcomeOf (bind ?m ?k ?c') = _ =>
      destruct (asyncMap_all_respond
                  (fun id => inr (deleteSpecificationRequest env id))
                  specs c' (firstError_map_inr _ _) Hresp) as [zs Hzs];
      rewrite (proj2 (bind_done m k c' zs Hzs))
  end.
  match goal with
  | |- outcomeOf (bind ?m ?k ?c') = _ => rewrite (proj2 (bind_done m k c' tt eq_refl))
  end.
  reflexivity.
Qed.

(** *** When a deletion is rejected *)

Lemma awaitAll_one_rejected (n : nat) (plans : list (JsError + Request)) (c : Cursor)
  (i : nat) (req : Request) (e : JsError) :
  firstError plans = None ->
  nth_error (requestsOf plans) i = Some req ->
  http env (n + i) req = Rejected e ->
  exists e', outcomeOf (awaitAll (promisesOf env n plans) c) = Throw e'.
Proof.
  revert n i. induction plans as [ | [e0 | q] plans IH]; intros n i Hnone Hnth Hrej.
  - destruct i; discriminate Hnth.
  - discriminate Hnone.
  - cbn [promisesOf awaitAll firstError requestsOf] in *.
    rewrite bind_run, pending_run.
    destruct (http env n q) as [e1 | r] eqn:Hq; [eexists; reflexivity | ].
    destruct i as [ | i].
    + cbn in Hnth. injection Hnth as ->. rewrite Nat.add_0_r in Hrej. congruence.
    + cbn [nth_error] in Hnth. rewrite Nat.add_succ_r in Hrej.
      destruct (IH (S n) i Hnone Hnth Hrej) as [e' He'].
      rewrite bind_run.
      destruct (awaitAll (promisesOf env (S n) plans) c) as [[c2 t2] o].
      cbn [outcomeOf snd] in He'. subst o. eexists. reflexivity.
Qed.

(** When the promise of one of the deletions is rejected, [cleanProject]
    ends with an exception and creates no category. *)
Theorem rejected_deletion_ends_cleanProject (c : Cursor) (r : Response)
  (items : list ApiObject) (i : nat) (category : ApiObject) (e : JsError) :
  http env (fetched c) (getAllCategoriesRequest env version) = Responded r ->
  payload r = BodyJson (JsonArray items) ->
  nth_error items i = Some category ->
  http env (S (fetched c) + i) (deleteCategoryRequest env version (slug category))
  = Rejected e ->
  creationEvents (traceOf (cleanProject env version c)) = []
  /\ exists e', outcomeOf (cleanProject env version c) = Throw e'.
Proof.
  intros Hanswer Hpayload Hnth Hrej. unfold cleanProject.
  match goal with
  | |- context [bind ?m ?k c] =>
      destruct (bind_done m k c (JsonArray items)) as [Ht Hr];
      [ rewrite getAllCategories_run; cbv zeta; rewrite Hanswer, Hpayload; reflexivity
      | rewrite Ht, Hr ]
  end.
  rewrite (proj2 creationEvents_additive), getAllCategories_creates_nothing.
  cbn [app asyncMapJson].
  assert (Hthrow : exists e',
             outcomeOf (asyncMap items
                          (fun category => deleteCategory env version (slug category))
                          (cursorOf (getAllCategories env version c))) = Throw e').
  { rewrite getAllCategories_run. cbv zeta. cbn [cursorOf fst].
    change (fun category => deleteCategory env version (slug category))
      with (fun category =>
              plannedCall env (inr (deleteCategoryRequest env version (slug category)))).
    unfold asyncMap. rewrite bind_run, mapCalls_planned.
    unfold promiseAll. rewrite firstRejected_promisesOf, firstError_map_inr.
    destruct (awaitAll_one_rejected (fetched (advance 1 c))
                (map (fun category =>
                        inr (deleteCategoryRequest env version (slug category))) items)
                (advance (length (requestsOf
                   (map (fun category =>
                           inr (deleteCategoryRequest env version (slug category)))
                        items))) (advance 1 c))
                i (deleteCategoryRequest env version (slug category)) e)
      as [e' He'].
    - apply firstError_map_inr.
    - rewrite requestsOf_map_inr, nth_error_map, Hnth. reflexivity.
    - exact Hrej.
    - destruct (awaitAll _ _) as [[c2 t2] o]. cbn [outcomeOf snd] in *. subst o.
      exists e'. reflexivity. }
  destruct Hthrow as [e' Hthrow].
  match goal with
  | |- context [bind ?m ?k ?c'] =>
      destruct (bind_throw m k c' e' Hthrow) as [Ht' Hr']; rewrite Ht', Hr'
  end.
  split; [ | exists e'; reflexivity].
  apply (proj1 (deleteCategories_silent env version (JsonArray items))).
Qed.

(** *** The deletion of the specifications *)

Lemma requests_asyncMap_planned {A} (g : A -> JsError + Request) (l : list A)
  (c : Cursor) :
  requests (traceOf (asyncMap l (fun x => plannedCall env (g x)) c))
  = requestsOf (map g l).
Proof.
  destruct (asyncMap_planned env g l c) as (settlements & Htr & Hset & _).
  rewrite Htr, (proj2 requests_additive).
  rewrite (observes_nothing requests settlements requests_additive).
  - rewrite app_nil_r. generalize (requestsOf (map g l)) as reqs.
    induction reqs as [ | req reqs IH]; [reflexivity | ].
    unfold requests in *. cbn. rewrite IH. reflexivity.
  - eapply Forall_impl; [ | exact Hset]. intros e (req & answer & -> & _). reflexivity.
Qed.

Lemma deleteSpecificationRequests (specs : list ApiObject) :
  map (deleteSpecificationRequest env) specs
  = repeat {| url := api ++ "api-specification/[object Object]";
              method := DELETE;
              headers := [basicAuth env; acceptJson];
              body := None |}
           (length specs).
Proof. induction specs as [ | x specs IH]; [reflexivity | ]. cbn. rewrite IH. reflexivity. Qed.

(** When [cleanProject] ends well, its last requests are the listing of
    the specifications and then one deletion for each specification
    listed; all these deletions are the same request, in which the
    identifier of no specification appears. *)
Theorem specifications_are_not_deleted_by_id (c : Cursor) :
  outcomeOf (cleanProject env version c) = Done tt ->
  exists before r specs,
    requests (traceOf (cleanProject env version c))
    = (before
       ++ getAllApiSpecificationsRequest env version
       :: repeat {| url := api ++ "api-specification/[object Object]";
                    method := DELETE;
                    headers := [basicAuth env; acceptJson];
                    body := None |}
                 (length specs))%list
    /\ In (Settled (getAllApiSpecificationsRequest env version) (Responded r))
          (traceOf (cleanProject env version c))
    /\ payload r = BodyJson (JsonArray specs).
Proof.
  unfold cleanProject. intros H.
  apply done_step in H as (x1 & _ & H & ->).
  apply done_step in H as (x2 & _ & H & ->).
  apply done_step in H as (x3 & _ & H & ->).
  apply done_step in H as (x4 & _ & H & ->).
  apply done_step in H as (x5 & _ & H & ->).
  apply done_step in H as (x6 & _ & H & ->).
  apply done_step in H as (x7 & _ & H & ->).
  apply done_step in H as (x8 & _ & H & ->).
  apply done_step in H as (j & Hj & H & ->).
  apply done_step in H as (x10 & Hdel & H & ->).
  apply done_step in H as (x11 & _ & H & ->).
  match type of Hj with
  | outcomeOf (getAllApiSpecifications env version ?c9) = _ =>
      rewrite (getAllApiSpecifications_run env version c9) in Hj |- *;
      cbv zeta in Hj |- *;
      destruct (http env (fetched c9) (getAllApiSpecificationsRequest env version))
        as [e | r] eqn:Hanswer; [discriminate Hj | ];
      destruct (payload r) as [j' | e] eqn:Hpayload; [ | discriminate Hj];
      cbn [outcomeOf snd] in Hj; injection Hj as ->
  end.
  destruct j as [specs | | ]; cbn [asyncMapJson] in Hdel |- *;
    try discriminate Hdel.
  eexists _, r, specs. split; [ | split; [ | exact Hpayload]].
  - rewrite !(proj2 requests_additive).
    rewrite (requests_asyncMap_planned
               (fun id => inr (deleteSpecificationRequest env id))).
    rewrite requestsOf_map_inr, deleteSpecificationRequests.
    cbn [log emit traceOf fst snd requests flat_map requestOf app].
    rewrite app_nil_r. do 4 rewrite app_assoc. reflexivity.
  - do 8 (apply in_or_app; right).
    apply in_or_app. left. right. left. reflexivity.
Qed.

End CleanMore.

Lemma cleanProject_ignores_statuses_witness :
  outcomeOf (cleanProject (remoteWithStatus 500 [introduction; more])
               (JString "v2018-08-01-piotr-123") start) = Done tt.
Proof.
  apply (cleanProject_ignores_statuses (remoteWithStatus 500 [introduction; more])
           (JString "v2018-08-01-piotr-123") start).
  - intros k req. cbn. destruct (method req); eexists; reflexivity.
  - intros k r [= <-]. exists [introduction; more]. split; [reflexivity | ].
    intros t [<- | []]. discriminate.
  - intros k r [= <-]. exists [introduction; more]. reflexivity.
Defined.

(* ===================================================================== *)
(** ** [chunkArray] *)
(* ===================================================================== *)

Section Chunks.

Context {A : Type}.

Lemma splices_concat (count chunkSize : nat) (array : list A) :
  (concat (fst (FixDocs.splices count chunkSize array))
   ++ snd (FixDocs.splices count chunkSize array))%list = array.
Proof.
  revert array. induction count as [ | count IH]; intros array; [reflexivity | ].
  cbn [FixDocs.splices]. specialize (IH (skipn chunkSize array)).
  destruct (FixDocs.splices count chunkSize (skipn chunkSize array)) as [chunks left].
  cbn [fst snd concat] in *. rewrite <- app_assoc, IH. apply firstn_skipn.
Qed.

Lemma splices_left (count chunkSize : nat) (array : list A) :
  snd (FixDocs.splices count chunkSize array) = skipn (count * chunkSize) array.
Proof.
  revert array. induction count as [ | count IH]; intros array; [reflexivity | ].
  cbn [FixDocs.splices]. specialize (IH (skipn chunkSize array)).
  destruct (FixDocs.splices count chunkSize (skipn chunkSize array)) as [chunks left].
  cbn [fst snd] in *. rewrite IH, skipn_skipn. f_equal. lia.
Qed.

Lemma splices_count (count chunkSize : nat) (array : list A) :
  length (fst (FixDocs.splices count chunkSize array)) = count.
Proof.
  revert array. induction count as [ | count IH]; intros array; [reflexivity | ].
  cbn [FixDocs.splices]. specialize (IH (skipn chunkSize array)).
  destruct (FixDocs.splices count chunkSize (skipn chunkSize array)) as [chunks left].
  cbn [fst length] in *. rewrite IH. reflexivity.
Qed.

(** When the array is longer than what the chunks before the last take,
    every chunk but the last is full and the last is not empty. *)
Lemma splices_sizes (count chunkSize : nat) (array : list A) :
  0 < chunkSize ->
  count * chunkSize < length array + chunkSize ->
  Forall (fun chunk => 1 <= length chunk <= chunkSize)
         (fst (FixDocs.splices count chunkSize array))
  /\ Forall (fun chunk => length chunk = chunkSize)
            (removelast (fst (FixDocs.splices count chunkSize array))).
Proof.
  intros Hsize. revert array.
  induction count as [ | count IH]; intros array Hlen; [split; constructor | ].
  cbn [FixDocs.splices].
  assert (Hrest : count * chunkSize < length (skipn chunkSize array) + chunkSize
                  \/ count = 0).
  { rewrite length_skipn. destruct count as [ | count]; [right; reflexivity | left].
    cbn [Nat.mul] in *. lia. }
  pose proof (splices_count count chunkSize (skipn chunkSize array)) as Hcount.
  destruct Hrest as [Hrest | ->].
  - specialize (IH (skipn chunkSize array) Hrest).
    destruct (FixDocs.splices count chunkSize (skipn chunkSize array))
      as [chunks left].
    cbn [fst] in *. destruct IH as [IH1 IH2]. split.
    + constructor; [ | exact IH1]. rewrite length_firstn. cbn [Nat.mul] in Hlen. lia.
    + destruct chunks as [ | chunk chunks]; [constructor | ].
      cbn [removelast]. constructor; [ | exact IH2].
      cbn [length] in Hcount. rewrite length_firstn. cbn [Nat.mul] in Hlen.
      subst count. cbn [Nat.mul] in Hlen. lia.
  - cbn [FixDocs.splices fst removelast]. split; [ | constructor].
    constructor; [ | constructor]. rewrite length_firstn. cbn [Nat.mul] in Hlen. lia.
Qed.

Lemma ceilOfQuotient_positive (a b : Z) :
  (0 < b)%Z -> (0 <= a)%Z ->
  exists n,
    FixDocs.ceilOfQuotient a b = Some n
    /\ (0 <= n)%Z /\ (a <= n * b)%Z /\ (n * b < a + b)%Z.
Proof.
  intros Hb Ha. unfold FixDocs.ceilOfQuotient.
  destruct (Z.eqb_spec b 0) as [-> | _]; [lia | ].
  exists (- (- a / b))%Z. split; [reflexivity | ].
  pose proof (Z.div_mod (- a) b ltac:(lia)) as Hdiv.
  pose proof (Z.mod_pos_bound (- a) b Hb) as Hmod.
  nia.
Qed.

(** For a positive chunk size, the chunks put end to end give the array
    back, in order, and the array itself is left empty. *)
Theorem chunkArray_splits_the_array (array : list A) (chunkSize : Z) :
  (0 < chunkSize)%Z ->
  exists chunks,
    FixDocs.chunkArray array chunkSize = inr (chunks, [])
    /\ concat chunks = array.
Proof.
  intros Hsize. unfold FixDocs.chunkArray.
  destruct (ceilOfQuotient_positive (Z.of_nat (length array)) chunkSize Hsize
              ltac:(lia)) as (n & -> & Hn0 & Hn1 & Hn2).
  destruct (Z.ltb_spec n 0) as [Hneg | _]; [lia | ].
  pose proof (splices_concat (Z.to_nat n) (Z.to_nat chunkSize) array) as Hconcat.
  pose proof (splices_left (Z.to_nat n) (Z.to_nat chunkSize) array) as Hleft.
  destruct (FixDocs.splices (Z.to_nat n) (Z.to_nat chunkSize) array)
    as [chunks left].
  cbn [fst snd] in *.
  assert (left = []) as ->.
  { rewrite Hleft. apply skipn_all2. nia. }
  exists chunks. split; [reflexivity | ].
  rewrite app_nil_r in Hconcat. exact Hconcat.
Qed.

(** For a positive chunk size, no chunk is empty or longer than the chunk
    size, every chunk but the last has exactly the chunk size, and there
    are as few chunks as that allows. *)
Theorem chunkArray_fills_the_chunks (array : list A) (chunkSize : Z) :
  (0 < chunkSize)%Z ->
  exists chunks left,
    FixDocs.chunkArray array chunkSize = inr (chunks, left)
    /\ Forall (fun chunk => (1 <= Z.of_nat (length chunk) <= chunkSize)%Z) chunks
    /\ Forall (fun chunk => Z.of_nat (length chunk) = chunkSize) (removelast chunks)
    /\ (Z.of_nat (length array) <= Z.of_nat (length chunks) * chunkSize
        < Z.of_nat (length array) + chunkSize)%Z.
Proof.
  intros Hsize. unfold FixDocs.chunkArray.
  destruct (ceilOfQuotient_positive (Z.of_nat (length array)) chunkSize Hsize
              ltac:(lia)) as (n & -> & Hn0 & Hn1 & Hn2).
  destruct (Z.ltb_spec n 0) as [Hneg | _]; [lia | ].
  pose proof (splices_count (Z.to_nat n) (Z.to_nat chunkSize) array) as Hcount.
  destruct (splices_sizes (Z.to_nat n) (Z.to_nat chunkSize) array
              ltac:(lia) ltac:(nia)) as [H1 H2].
  destruct (FixDocs.splices (Z.to_nat n) (Z.to_nat chunkSize) array)
    as [chunks left].
  cbn [fst] in *. exists chunks, left. repeat split.
  - eapply Forall_impl; [ | exact H1]. cbn beta. intros chunk Hc. lia.
  - eapply Forall_impl; [ | exact H2]. cbn beta. intros chunk Hc. lia.
  - rewrite Hcount. lia.
  - rewrite Hcount. lia.
Qed.

(** A chunk size of zero makes [Array] throw, whatever the array.  With a
    negative chunk size, an array shorter than its absolute value gives no
    chunk and is left as it is, a longer one makes [Array] throw. *)
Theorem chunkArray_without_a_positive_size (array : list A) (chunkSize : Z) :
  (chunkSize <= 0)%Z ->
  FixDocs.chunkArray array chunkSize
  = if (chunkSize <? 0)%Z && (Z.of_nat (length array) <? - chunkSize)%Z
    then inr ([], array)
    else inl FixDocs.rangeError.
Proof.
  intros Hsize. unfold FixDocs.chunkArray, FixDocs.ceilOfQuotient.
  destruct (Z.eqb_spec chunkSize 0) as [-> | Hne]; [reflexivity | ].
  destruct (Z.ltb_spec chunkSize 0) as [Hneg | Hpos]; [ | lia]. cbn [andb].
  pose proof (Z.div_mod (- Z.of_nat (length array)) chunkSize Hne) as Hdiv.
  pose proof (Z.mod_neg_bound (- Z.of_nat (length array)) chunkSize Hneg) as Hmod.
  destruct (Z.ltb_spec (Z.of_nat (length array)) (- chunkSize)) as [Hshort | Hlong].
  - assert (Hq : (- Z.of_nat (length array) / chunkSize = 0)%Z) by nia.
    rewrite Hq. reflexivity.
  - destruct (Z.ltb_spec (- (- Z.of_nat (length array) / chunkSize)) 0)
      as [_ | Hq]; [reflexivity | nia].
Qed.

End Chunks.

(* ===================================================================== *)
(** ** [getFiles] *)
(* ===================================================================== *)

Lemma Dirent_induction (P : FixDocs.Dirent -> Prop) :
  (forall name, P (FixDocs.File name)) ->
  (forall name items, Forall P items -> P (FixDocs.Folder name items)) ->
  (forall name e, P (FixDocs.LockedFolder name e)) ->
  forall item, P item.
Proof.
  intros Hfile Hfolder Hlocked.
  fix IH 1. intros [name | name items | name e].
  - apply Hfile.
  - apply Hfolder. induction items as [ | item items IHitems]; constructor.
    + apply IH.
    + exact IHitems.
  - apply Hlocked.
Qed.

Lemma prefix_append (a b : string) : String.prefix a (a ++ b) = true.
Proof.
  induction a as [ | ch a IH]; cbn; [destruct b; reflexivity | ].
  destruct (Ascii.ascii_dec ch ch) as [_ | Hne]; [exact IH | contradiction].
Qed.

Lemma prefix_append_left (a b s : string) :
  String.prefix (a ++ b) s = true -> String.prefix a s = true.
Proof.
  revert s. induction a as [ | ch a IH]; intros s.
  - intros _. destruct s; reflexivity.
  - destruct s as [ | ch' s]; cbn; [discriminate | ].
    destruct (Ascii.ascii_dec ch ch'); [apply IH | discriminate].
Qed.

Lemma append_assoc (a b c : string) : (a ++ b) ++ c = a ++ (b ++ c).
Proof. induction a as [ | ch a IH]; cbn; [reflexivity | rewrite IH; reflexivity]. Qed.

(** A path that ends in [.bin] does not end in [.md]. *)
Lemma bin_is_not_markdown (s : string) :
  FixDocs.endsWith ".bin" s = true -> FixDocs.endsWith ".md" s = false.
Proof.
  induction s as [ | ch s IH]; [cbn; discriminate | ].
  cbn [FixDocs.endsWith].
  destruct (String ch s =? ".bin") eqn:Hbin'.
  - apply String.eqb_eq in Hbin'. injection Hbin' as -> ->. intros _. reflexivity.
  - cbn [orb]. intros Hbin. rewrite (IH Hbin), orb_false_r.
    destruct (String ch s =? ".md") eqn:Hmd; [ | reflexivity].
    apply String.eqb_eq in Hmd. injection Hmd as -> ->. discriminate Hbin.
Qed.

Lemma forEachItem_all (body : FixDocs.Dirent -> JsError + list string)
  (R : string -> Prop) (items : list FixDocs.Dirent) (paths : list string) :
  Forall (fun item => forall pushed, body item = inr pushed -> Forall R pushed) items ->
  FixDocs.forEachItem body items = inr paths ->
  Forall R paths.
Proof.
  intros Hitems. revert paths.
  induction Hitems as [ | item items Hitem _ IH]; intros paths; cbn.
  - intros [= <-]. constructor.
  - destruct (body item) as [e | pushed]; [discriminate | ].
    destruct (FixDocs.forEachItem body items) as [e | more]; [discriminate | ].
    intros [= <-]. apply Forall_app. split; [apply Hitem; reflexivity | apply IH; reflexivity].
Qed.

Lemma forEachItem_member (body : FixDocs.Dirent -> JsError + list string)
  (items : list FixDocs.Dirent) (paths : list string) (item : FixDocs.Dirent) :
  In item items ->
  FixDocs.forEachItem body items = inr paths ->
  exists pushed, body item = inr pushed /\ incl pushed paths.
Proof.
  revert paths. induction items as [ | first items IH]; intros paths Hin; [destruct Hin | ].
  cbn. destruct (body first) as [e | pushed] eqn:Hfirst; [discriminate | ].
  destruct (FixDocs.forEachItem body items) as [e | more]; [discriminate | ].
  intros [= <-]. destruct Hin as [-> | Hin].
  - exists pushed. split; [exact Hfirst | apply incl_appl, incl_refl].
  - destruct (IH more Hin eq_refl) as (ps & Hps & Hincl).
    exists ps. split; [exact Hps | apply incl_appr; exact Hincl].
Qed.

Lemma markdownOnly_sound (path name : string) :
  Forall (fun p => FixDocs.endsWith ".md" p = true
                   /\ String.prefix (path ++ "/") p = true)
         (FixDocs.markdownOnly (path ++ "/" ++ name)).
Proof.
  unfold FixDocs.markdownOnly.
  destruct (FixDocs.endsWith ".md" (path ++ "/" ++ name)) eqn:Hmd; constructor;
    [ | constructor].
  split; [exact Hmd | ]. rewrite <- append_assoc. apply prefix_append.
Qed.

Lemma turn_sound (item : FixDocs.Dirent) :
  forall path paths,
    FixDocs.turn path item = inr paths ->
    Forall (fun p => FixDocs.endsWith ".md" p = true
                     /\ String.prefix (path ++ "/") p = true) paths.
Proof.
  induction item as [name | name items IH | name e] using Dirent_induction;
    intros path paths; cbn [FixDocs.turn FixDocs.nameOf].
  - intros [= <-]. apply markdownOnly_sound.
  - destruct (negb _).
    + intros Hwalk.
      apply (forEachItem_all (FixDocs.turn (path ++ "/" ++ name))
               (fun p => FixDocs.endsWith ".md" p = true
                         /\ String.prefix (path ++ "/") p = true) items paths);
        [ | exact Hwalk].
      eapply Forall_impl; [ | exact IH].
      intros item Hitem pushed Hpushed.
      eapply Forall_impl; [ | exact (Hitem _ _ Hpushed)].
      intros p [Hmd Hprefix]. split; [exact Hmd | ].
      rewrite <- append_assoc in Hprefix.
      apply (prefix_append_left _ _ _ (prefix_append_left _ _ _ Hprefix)).
    + intros [= <-]. apply markdownOnly_sound.
  - destruct (negb _); [discriminate | ].
    intros [= <-]. apply markdownOnly_sound.
Qed.

(** Every path [getFiles] returns ends in [.md] and lies below the path it
    was called with. *)
Theorem getFiles_returns_markdown_below_the_path (path : string)
  (listing : JsError + list FixDocs.Dirent) (paths : list string) :
  FixDocs.getFiles path listing = inr paths ->
  Forall (fun p => FixDocs.endsWith ".md" p = true
                   /\ String.prefix (path ++ "/") p = true) paths.
Proof.
  destruct listing as [e | items]; [discriminate | ]. cbn [FixDocs.getFiles].
  apply forEachItem_all. apply Forall_forall. intros item _ pushed.
  apply turn_sound.
Qed.

(** When [getFiles] returns, it returns every file of the directory whose
    path ends in [.md], and everything [getFiles] returns for each folder
    of the directory whose path does not end in [.bin]. *)
Theorem getFiles_misses_nothing (path : string) (items : list FixDocs.Dirent)
  (paths : list string) :
  FixDocs.getFiles path (inr items) = inr paths ->
  (forall name,
     In (FixDocs.File name) items ->
     FixDocs.endsWith ".md" (path ++ "/" ++ name) = true ->
     In (path ++ "/" ++ name) paths)
  /\ (forall name below,
        In (FixDocs.Folder name below) items ->
        FixDocs.endsWith ".bin" (path ++ "/" ++ name) = false ->
        exists found,
          FixDocs.getFiles (path ++ "/" ++ name) (inr below) = inr found
          /\ incl found paths).
Proof.
  cbn [FixDocs.getFiles]. intros Hpaths. split.
  - intros name Hin Hmd.
    destruct (forEachItem_member _ _ _ _ Hin Hpaths) as (pushed & Hpushed & Hincl).
    cbn [FixDocs.turn FixDocs.nameOf] in Hpushed. unfold FixDocs.markdownOnly in Hpushed.
    rewrite Hmd in Hpushed. injection Hpushed as <-. apply Hincl. left. reflexivity.
  - intros name below Hin Hbin.
    destruct (forEachItem_member _ _ _ _ Hin Hpaths) as (pushed & Hpushed & Hincl).
    cbn [FixDocs.turn FixDocs.nameOf] in Hpushed. rewrite Hbin in Hpushed.
    exists pushed. split; assumption.
Qed.

(** A folder that cannot be read makes [getFiles] fail, unless its path
    ends in [.bin]: such a folder is not opened, and contributes nothing
    whatever it holds. *)
Theorem getFiles_opens_no_bin_folder (path name : string)
  (items below : list FixDocs.Dirent) (e : JsError) :
  (In (FixDocs.LockedFolder name e) items ->
   FixDocs.endsWith ".bin" (path ++ "/" ++ name) = false ->
   exists e', FixDocs.getFiles path (inr items) = inl e')
  /\ (FixDocs.endsWith ".bin" (path ++ "/" ++ name) = true ->
      FixDocs.turn path (FixDocs.LockedFolder name e) = inr []
      /\ FixDocs.turn path (FixDocs.Folder name below) = inr []).
Proof.
  split.
  - intros Hin Hbin. cbn [FixDocs.getFiles].
    destruct (FixDocs.forEachItem (FixDocs.turn path) items) as [e' | paths] eqn:Hwalk;
      [exists e'; reflexivity | ].
    destruct (forEachItem_member _ _ _ _ Hin Hwalk) as (pushed & Hpushed & _).
    cbn [FixDocs.turn FixDocs.nameOf] in Hpushed. rewrite Hbin in Hpushed.
    discriminate Hpushed.
  - intros Hbin. cbn [FixDocs.turn FixDocs.nameOf]. rewrite Hbin. cbn [negb].
    unfold FixDocs.markdownOnly. rewrite (bin_is_not_markdown _ Hbin).
    split; reflexivity.
Qed.

(* ===================================================================== *)
(** ** [readmeFixDocs] *)
(* ===================================================================== *)

(** A first byte gives one unit at once or begins a character. *)
Lemma firstByte_bound (b : N) :
  fst (FixDocs.firstByte b)
  + Nat.min 1 (FixDocs.needed (snd (FixDocs.firstByte b))) = 1.
Proof.
  unfold FixDocs.firstByte.
  destruct (b <=? 0x7F)%N; [reflexivity | ].
  destruct (FixDocs.within 0xC2 0xDF b); [reflexivity | ].
  destruct (FixDocs.within 0xE0 0xEF b); [reflexivity | ].
  destruct (FixDocs.within 0xF0 0xF4 b); reflexivity.
Qed.

Lemma nextByte_bound (d : FixDocs.Decoder) (b : N) :
  fst (FixDocs.nextByte d b)
  + Nat.min 1 (FixDocs.needed (snd (FixDocs.nextByte d b)))
  <= 1 + Nat.min 1 (FixDocs.needed d).
Proof.
  unfold FixDocs.nextByte. pose proof (firstByte_bound b) as Hfirst.
  destruct (FixDocs.needed d) as [ | [ | others]]; [lia | | ];
    (destruct (FixDocs.within (FixDocs.lower d) (FixDocs.upper d) b);
     [ destruct (FixDocs.fourBytes d); cbn; lia
     | destruct (FixDocs.firstByte b) as [units d']; cbn [fst snd] in *;
       destruct (FixDocs.needed d'); cbn in *; lia ]).
Qed.

Lemma unitsFrom_bound (s : string) :
  forall d,
    FixDocs.unitsFrom d s <= String.length s + Nat.min 1 (FixDocs.needed d).
Proof.
  induction s as [ | a s IH]; intros d; cbn [FixDocs.unitsFrom String.length].
  - destruct (FixDocs.needed d); cbn; lia.
  - pose proof (nextByte_bound d (N_of_ascii a)) as Hnext.
    destruct (FixDocs.nextByte d (N_of_ascii a)) as [units d'].
    cbn [fst snd] in Hnext.
    specialize (IH d'). lia.
Qed.

(** A string never has more code units than bytes. *)
Lemma lengthOf_le_bytes (s : string) : FixDocs.lengthOf s <= String.length s.
Proof.
  unfold FixDocs.lengthOf. pose proof (unitsFrom_bound s FixDocs.idle) as H.
  cbn in H. lia.
Qed.

(** On ASCII, units and bytes are the same. *)
Lemma lengthOf_ascii (s : string) :
  Forall (fun a => (N_of_ascii a <= 0x7F)%N) (list_ascii_of_string s) ->
  FixDocs.lengthOf s = String.length s.
Proof.
  unfold FixDocs.lengthOf.
  induction s as [ | a s IH];
    cbn [list_ascii_of_string FixDocs.unitsFrom String.length];
    [reflexivity | ].
  intros Hall. inversion Hall as [ | a' l Ha Hrest]; subst.
  unfold FixDocs.nextByte, FixDocs.firstByte. cbn [FixDocs.needed FixDocs.idle].
  destruct (N.leb_spec (N_of_ascii a) 0x7F) as [_ | Hgt]; [ | lia].
  cbn [Nat.add]. rewrite (IH Hrest). reflexivity.
Qed.

Section ReadDocs.

Variable basePath : string.
Variable listing : JsError + list FixDocs.Dirent.
Variable readFile : string -> JsError + string.

(** A key of fewer than ten UTF-16 code units stops the script at once,
    with one message and without a look at the files.  A key that is not
    set does not: the script goes on as it does with a key that is long
    enough. *)
Theorem readmeFixDocs_lets_a_missing_key_through (key : string) :
  (FixDocs.lengthOf key < 10 ->
   FixDocs.readmeFixDocs (Some key) basePath listing readFile
   = ([FixDocs.keyMissing], Done tt))
  /\ (10 <= FixDocs.lengthOf key ->
      FixDocs.readmeFixDocs None basePath listing readFile
      = FixDocs.readmeFixDocs (Some key) basePath listing readFile).
Proof.
  unfold FixDocs.readmeFixDocs, FixDocs.keyTooShort. split; intros Hlen.
  - destruct (Nat.ltb_spec (FixDocs.lengthOf key) 10) as [_ | Hge];
      [reflexivity | lia].
  - destruct (Nat.ltb_spec (FixDocs.lengthOf key) 10) as [Hlt | _];
      [lia | reflexivity].
Qed.

Lemma processFiles_clean (paths : list string) :
  (forall p, In p paths ->
     exists data, readFile p = inr data /\ FixDocs.hasMatch data = false) ->
  FixDocs.processFiles readFile paths = (repeat "[]" (length paths), Done tt).
Proof.
  induction paths as [ | p paths IH]; intros Hclean; [reflexivity | ].
  cbn [FixDocs.processFiles].
  destruct (Hclean p (or_introl eq_refl)) as (data & -> & ->).
  rewrite IH; [reflexivity | ]. intros q Hq. apply Hclean. right. exact Hq.
Qed.

Lemma processFiles_match (paths : list string) (p data : string) :
  In p paths -> readFile p = inr data -> FixDocs.hasMatch data = true ->
  exists k e,
    k < length paths
    /\ FixDocs.processFiles readFile paths = (repeat "[]" k, Throw e).
Proof.
  induction paths as [ | q paths IH]; intros Hin Hread Hmatch; [destruct Hin | ].
  cbn [FixDocs.processFiles].
  destruct (readFile q) as [e | data'] eqn:Hq.
  - exists 0, e. split; [cbn; lia | reflexivity].
  - destruct (FixDocs.hasMatch data') eqn:Hm.
    + exists 0, FixDocs.notAFunction. split; [cbn; lia | reflexivity].
    + destruct Hin as [-> | Hin]; [congruence | ].
      destruct (IH Hin Hread Hmatch) as (k & e & Hk & ->).
      exists (S k), e. split; [cbn; lia | reflexivity].
Qed.

(** When all the files found can be read and none holds a link to the
    assets, the script prints an empty list for each of them and then
    [Done!]. *)
Theorem readmeFixDocs_prints_empty_lists (key : option string) (paths : list string) :
  FixDocs.keyTooShort key = false ->
  FixDocs.getFiles basePath listing = inr paths ->
  (forall p, In p paths ->
     exists data, readFile p = inr data /\ FixDocs.hasMatch data = false) ->
  FixDocs.readmeFixDocs key basePath listing readFile
  = ((repeat "[]" (length paths) ++ ["Done!"])%list, Done tt).
Proof.
  intros Hkey Hfiles Hclean. unfold FixDocs.readmeFixDocs.
  rewrite Hkey, Hfiles, (processFiles_clean paths Hclean). reflexivity.
Qed.

(** When one of the files found holds a link to the assets, the script
    ends with an exception before it has printed anything but empty
    lists: no match is ever printed, and [Done!] is not reached. *)
Theorem readmeFixDocs_never_prints_a_match (key : option string)
  (paths : list string) (p data : string) :
  FixDocs.keyTooShort key = false ->
  FixDocs.getFiles basePath listing = inr paths ->
  In p paths -> readFile p = inr data -> FixDocs.hasMatch data = true ->
  exists k e,
    k < length paths
    /\ FixDocs.readmeFixDocs key basePath listing readFile
       = (repeat "[]" k, Throw e).
Proof.
  intros Hkey Hfiles Hin Hread Hmatch. unfold FixDocs.readmeFixDocs.
  rewrite Hkey, Hfiles.
  destruct (processFiles_match paths p data Hin Hread Hmatch) as (k & e & Hk & ->).
  exists k, e. split; [exact Hk | reflexivity].
Qed.

End ReadDocs.

(* ===================================================================== *)
(** ** Instances *)
(* ===================================================================== *)

Lemma version_ignores_the_value_of_v_witness :
  version explicitVersion
  = version (mkOptions JUndefined JUndefined JUndefined (JBool true)
                       JUndefined (JBool true) JUndefined JUndefined).
Proof.
  apply version_ignores_the_value_of_v; reflexivity.
Defined.

Lemma upload_stops_at_first_success_witness :
  uploadReferenceDocsWithMaxNumberOfAttempts (remote [introduction] 2)
    (JString "v2018-08-01-piotr-123") 6 5000 start
  = (spawnMany 3 start,
     (Log Green "UPLOADING REFERENCE DOC FILES..."
      :: failedAttempts (JString "v2018-08-01-piotr-123") 5000 2
      ++ [ Exec (updateReferenceDocsCommand (JString "v2018-08-01-piotr-123"));
           Log Green "REFERENCE DOC FILES WERE UPLOADED!" ])%list,
     Done tt).
Proof.
  apply (upload_stops_at_first_success (remote [introduction] 2)
           (JString "v2018-08-01-piotr-123") 6 5000 2 start).
  - lia.
  - intros j Hj. destruct j as [ | [ | j]]; [reflexivity | reflexivity | lia].
  - reflexivity.
Defined.

Lemma upload_gives_up_after_budget_witness :
  uploadReferenceDocsWithMaxNumberOfAttempts offline
    (JString "v2018-08-01-piotr-123") 6 5000 start
  = (spawnMany 6 start,
     (Log Green "UPLOADING REFERENCE DOC FILES..."
      :: failedAttempts (JString "v2018-08-01-piotr-123") 5000 5
      ++ [Exec (updateReferenceDocsCommand (JString "v2018-08-01-piotr-123"))])%list,
     Throw (Error "REFERENCE DOC WERE NOT UPLOADED!")).
Proof.
  apply (upload_gives_up_after_budget offline
           (JString "v2018-08-01-piotr-123") 6 5000 start).
  - lia.
  - intros j Hj. reflexivity.
Defined.

Lemma upload_without_budget_does_nothing_witness :
  uploadReferenceDocsWithMaxNumberOfAttempts offline
    (JString "v2018-08-01-piotr-123") 0 5000 start
  = (start, [Log Green "UPLOADING REFERENCE DOC FILES..."], Done tt).
Proof.
  apply (upload_without_budget_does_nothing offline
           (JString "v2018-08-01-piotr-123") 0 5000 start).
  lia.
Defined.

Lemma create_forks_first_witness :
  exists rest,
    traceOf (run offline versionAndTag start)
    = Fetch (createNewVersionRequest offline (version versionAndTag)) :: rest.
Proof.
  apply (create_forks_first offline versionAndTag start).
  - repeat split.
  - reflexivity.
Defined.

Lemma failed_fork_ends_the_run_witness :
  traceOf (run remoteRefusing versionAndTag start)
  = [ Fetch (createNewVersionRequest remoteRefusing (version versionAndTag));
      Settled (createNewVersionRequest remoteRefusing (version versionAndTag))
        (http remoteRefusing (fetched start)
           (createNewVersionRequest remoteRefusing (version versionAndTag)));
      forkFailed ]
  /\ exists e, outcomeOf (run remoteRefusing versionAndTag start) = Throw e.
Proof.
  apply (failed_fork_ends_the_run remoteRefusing versionAndTag start).
  - repeat split.
  - reflexivity.
  - intros r [= <-]. discriminate.
Defined.

Lemma update_never_forks_witness :
  ~ In (createNewVersionRequest (remote [introduction; more] 6)
          (JString "v2018-08-01-piotr-123"))
       (requests (traceOf (run (remote [introduction; more] 6) taggedVersion start))).
Proof.
  apply (update_never_forks (remote [introduction; more] 6) taggedVersion start).
  reflexivity.
Defined.

Lemma deletions_are_sent_together_witness :
  exists rest,
    traceOf (cleanProject (remote [introduction; more] 0)
               (JString "v2018-08-01-piotr-123") start)
    = (Fetch (getAllCategoriesRequest (remote [introduction; more] 0)
                (JString "v2018-08-01-piotr-123"))
       :: Settled (getAllCategoriesRequest (remote [introduction; more] 0)
                     (JString "v2018-08-01-piotr-123"))
            (Responded (mkResponse 200 (BodyJson (JsonArray [introduction; more]))))
       :: map Fetch
            (map (fun category =>
                    deleteCategoryRequest (remote [introduction; more] 0)
                      (JString "v2018-08-01-piotr-123") (slug category))
                 [introduction; more])
       ++ rest)%list.
Proof.
  apply (deletions_are_sent_together (remote [introduction; more] 0)
           (JString "v2018-08-01-piotr-123") start); reflexivity.
Defined.

Lemma cleanProject_needs_an_array_witness :
  traceOf (cleanProject remoteRefusing (JString "v2018-08-01-piotr-123") start)
  = [ Fetch (getAllCategoriesRequest remoteRefusing (JString "v2018-08-01-piotr-123"));
      Settled (getAllCategoriesRequest remoteRefusing (JString "v2018-08-01-piotr-123"))
        (Responded (mkResponse 401 (BodyJson JsonOther))) ]
  /\ exists text,
       outcomeOf (cleanProject remoteRefusing (JString "v2018-08-01-piotr-123") start)
       = Throw (TypeError text).
Proof.
  apply (cleanProject_needs_an_array remoteRefusing
           (JString "v2018-08-01-piotr-123") start
           (mkResponse 401 (BodyJson JsonOther)) JsonOther);
    try reflexivity.
  intros items H. discriminate H.
Defined.

Lemma rejected_deletion_ends_cleanProject_witness :
  creationEvents (traceOf (cleanProject (remoteKeeping [introduction; more])
                             (JString "v2018-08-01-piotr-123") start)) = []
  /\ exists e',
       outcomeOf (cleanProject (remoteKeeping [introduction; more])
                    (JString "v2018-08-01-piotr-123") start) = Throw e'.
Proof.
  apply (rejected_deletion_ends_cleanProject (remoteKeeping [introduction; more])
           (JString "v2018-08-01-piotr-123") start
           (mkResponse 200 (BodyJson (JsonArray [introduction; more])))
           [introduction; more] 1 more (TypeError "fetch failed"));
    reflexivity.
Defined.

Lemma specifications_are_not_deleted_by_id_witness :
  exists before r specs,
    requests (traceOf (cleanProject (remote [introduction; more] 0)
                         (JString "v2018-08-01-piotr-123") start))
    = (before
       ++ getAllApiSpecificationsRequest (remote [introduction; more] 0)
            (JString "v2018-08-01-piotr-123")
       :: repeat {| url := api ++ "api-specification/[object Object]";
                    method := DELETE;
                    headers := [basicAuth (remote [introduction; more] 0); acceptJson];
                    body := None |}
                 (length specs))%list
    /\ In (Settled (getAllApiSpecificationsRequest (remote [introduction; more] 0)
                      (JString "v2018-08-01-piotr-123")) (Responded r))
          (traceOf (cleanProject (remote [introduction; more] 0)
                      (JString "v2018-08-01-piotr-123") start))
    /\ payload r = BodyJson (JsonArray specs).
Proof.
  apply (specifications_are_not_deleted_by_id (remote [introduction; more] 0)
           (JString "v2018-08-01-piotr-123") start).
  reflexivity.
Defined.

Lemma chunkArray_splits_the_array_witness :
  exists chunks,
    FixDocs.chunkArray [1; 2; 3; 4; 5] 2 = inr (chunks, [])
    /\ concat chunks = [1; 2; 3; 4; 5].
Proof.
  apply (chunkArray_splits_the_array [1; 2; 3; 4; 5] 2). lia.
Defined.

Lemma chunkArray_fills_the_chunks_witness :
  exists chunks left,
    FixDocs.chunkArray [1; 2; 3; 4; 5] 2 = inr (chunks, left)
    /\ Forall (fun chunk => (1 <= Z.of_nat (length chunk) <= 2)%Z) chunks
    /\ Forall (fun chunk => Z.of_nat (length chunk) = 2%Z) (removelast chunks)
    /\ (Z.of_nat (length [1; 2; 3; 4; 5]) <= Z.of_nat (length chunks) * 2
        < Z.of_nat (length [1; 2; 3; 4; 5]) + 2)%Z.
Proof.
  apply (chunkArray_fills_the_chunks [1; 2; 3; 4; 5] 2). lia.
Defined.

Lemma chunkArray_without_a_positive_size_witness :
  FixDocs.chunkArray [1; 2; 3] 0 = inl FixDocs.rangeError
  /\ FixDocs.chunkArray [1; 2; 3] (-5) = inr ([], [1; 2; 3])
  /\ FixDocs.chunkArray [1; 2; 3] (-2) = inl FixDocs.rangeError.
Proof.
  split; [ | split].
  - apply (chunkArray_without_a_positive_size [1; 2; 3] 0). lia.
  - apply (chunkArray_without_a_positive_size [1; 2; 3] (-5)). lia.
  - apply (chunkArray_without_a_positive_size [1; 2; 3] (-2)). lia.
Defined.

Lemma getFiles_returns_markdown_below_the_path_witness :
  Forall (fun p => FixDocs.endsWith ".md" p = true
                   /\ String.prefix ("/repo/docs" ++ "/") p = true)
         [ "/repo/docs/guides/intro.md";
           "/repo/docs/guides/more/faq.md";
           "/repo/docs/README.md" ].
Proof.
  apply (getFiles_returns_markdown_below_the_path "/repo/docs"
           (inr [ FixDocs.Folder "guides"
                    [ FixDocs.File "intro.md"; FixDocs.File "logo.png";
                      FixDocs.Folder "more" [FixDocs.File "faq.md"] ];
                  FixDocs.Folder "cache.bin" [FixDocs.File "old.md"];
                  FixDocs.File "README.md" ])).
  reflexivity.
Defined.

Lemma getFiles_misses_nothing_witness :
  In ("/repo/docs" ++ "/" ++ "README.md")
     [ "/repo/docs/guides/intro.md";
       "/repo/docs/guides/more/faq.md";
       "/repo/docs/README.md" ].
Proof.
  apply (proj1 (getFiles_misses_nothing "/repo/docs" FixDocs.docs
                  [ "/repo/docs/guides/intro.md";
                    "/repo/docs/guides/more/faq.md";
                    "/repo/docs/README.md" ] eq_refl) "README.md").
  - do 3 right. left. reflexivity.
  - reflexivity.
Defined.

Lemma getFiles_opens_no_bin_folder_witness :
  (exists e', FixDocs.getFiles "/repo/docs"
                (inr [FixDocs.File "a.md"; FixDocs.LockedFolder "private" (Error "EACCES")])
              = inl e')
  /\ FixDocs.turn "/repo/docs" (FixDocs.LockedFolder "vault.bin" (Error "EACCES"))
     = inr [].
Proof.
  split.
  - apply (proj1 (getFiles_opens_no_bin_folder "/repo/docs" "private"
                    [FixDocs.File "a.md"; FixDocs.LockedFolder "private" (Error "EACCES")]
                    [] (Error "EACCES"))).
    + right. left. reflexivity.
    + reflexivity.
  - apply (proj2 (getFiles_opens_no_bin_folder "/repo/docs" "vault.bin" [] []
                    (Error "EACCES"))).
    reflexivity.
Defined.

Lemma readmeFixDocs_lets_a_missing_key_through_witness :
  FixDocs.readmeFixDocs (Some "ééééé") "/repo/docs" (inr FixDocs.docs)
    (fun _ => inr "text")
  = ([FixDocs.keyMissing], Done tt)
  /\ FixDocs.readmeFixDocs None "/repo/docs" (inr FixDocs.docs) (fun _ => inr "text")
     = FixDocs.readmeFixDocs (Some "rdme_0123456789") "/repo/docs"
         (inr FixDocs.docs) (fun _ => inr "text").
Proof.
  split.
  - apply (proj1 (readmeFixDocs_lets_a_missing_key_through "/repo/docs"
                    (inr FixDocs.docs) (fun _ => inr "text") "ééééé")).
    vm_compute. lia.
  - apply (proj2 (readmeFixDocs_lets_a_missing_key_through "/repo/docs"
                    (inr FixDocs.docs) (fun _ => inr "text") "rdme_0123456789")).
    cbn. lia.
Defined.

Lemma readmeFixDocs_prints_empty_lists_witness :
  FixDocs.readmeFixDocs None "/repo/docs" (inr FixDocs.docs) (fun _ => inr "text")
  = (["[]"; "[]"; "[]"; "Done!"], Done tt).
Proof.
  apply (readmeFixDocs_prints_empty_lists "/repo/docs" (inr FixDocs.docs)
           (fun _ => inr "text") None
           [ "/repo/docs/guides/intro.md";
             "/repo/docs/guides/more/faq.md";
             "/repo/docs/README.md" ]).
  - reflexivity.
  - reflexivity.
  - intros p _. exists "text". split; reflexivity.
Defined.

Lemma readmeFixDocs_never_prints_a_match_witness :
  exists k e,
    k < 3
    /\ FixDocs.readmeFixDocs None "/repo/docs" (inr FixDocs.docs)
         (fun _ => inr "![logo](../../assets/img/logo.png)")
       = (repeat "[]" k, Throw e).
Proof.
  apply (readmeFixDocs_never_prints_a_match "/repo/docs" (inr FixDocs.docs)
           (fun _ => inr "![logo](../../assets/img/logo.png)") None
           [ "/repo/docs/guides/intro.md";
             "/repo/docs/guides/more/faq.md";
             "/repo/docs/README.md" ]
           "/repo/docs/README.md" "![logo](../../assets/img/logo.png)").
  - reflexivity.
  - reflexivity.
  - do 2 right. left. reflexivity.
  - reflexivity.
  - reflexivity.
Defined.
